(** * Passivbot: a shallow embedding of the trading engine

    Numbers.  The Python sources compute on float64.  The rounding
    primitives of jitted.py and the minimum entry quantity built on
    them depend on the rounding of every float operation: they are
    embedded on binary64 floats, operation by operation ([Jitted64]).
    Everywhere else a float is an exact rational ([Q]); Python's [==]
    on floats is [Qeq_bool], [<=] is [Qle_bool], and the rounding error
    of the float operations is not modelled there. *)

From Stdlib Require Import QArith Qround Qabs Qminmax Lqa Lia ZArith Bool Floats.
From stdpp Require Import gmap strings list sorting pretty.

#[local] Set Warnings "-inexact-float".

Local Open Scope Q_scope.

(** ** jitted.py: rounding and the minimum entry quantity, in binary64 *)

Module Jitted64.

(** A float literal denotes the nearest binary64 value, as in Python;
    [+], [-], [*] and [/] on [float] are the IEEE 754 operations,
    rounding to nearest, ties to even. *)

(** From [2 ** 52] on, every binary64 value is integral. *)
Definition two52 : float := 0x1p52%float.

(** An integral result that is zero carries the sign of the argument
    ([np.ceil(-0.5)] is [-0.0]). *)
Definition keep_sign (x r : float) : float :=
  if PrimFloat.is_zero r then (if get_sign x then (-0)%float else 0%float) else r.

(** [np.rint(x)] and [np.round(x)]: the nearest integral value, ties to
    the even one.  Below [2 ** 52] in magnitude, adding and taking away
    [2 ** 52] rounds [x] to an integer in the rounding mode of the
    arithmetic; larger values, infinities and NaN are returned as they
    are. *)
Definition np_rint (x : float) : float :=
  if (abs x <? two52)%float then
    keep_sign x (if (0 <=? x)%float then ((x + two52) - two52)%float
                 else ((x - two52) + two52)%float)
  else x.

(** [np.floor(x)] *)
Definition np_floor (x : float) : float :=
  let r := np_rint x in
  keep_sign x (if (x <? r)%float then (r - 1)%float else r).

(** [np.ceil(x)] *)
Definition np_ceil (x : float) : float :=
  let r := np_rint x in
  keep_sign x (if (r <? x)%float then (r + 1)%float else r).

(** [10.0 ** decimals], exact up to [decimals = 22]. *)
Definition pow10 (decimals : nat) : float :=
  Nat.iter decimals (λ p, (p * 10)%float) 1%float.

(** [np.round(x, decimals)] for [0 <= decimals <= 22]: infinities and
    NaN are returned as they are; otherwise [x] is scaled by
    [10.0 ** decimals], rounded to the nearest integer and scaled back
    (and returned as it is if the scaling overflows). *)
Definition np_round (x : float) (decimals : nat) : float :=
  if is_infinity x || is_nan x then x
  else
    let y := (x * pow10 decimals)%float in
    if is_infinity y then x else (np_rint y / pow10 decimals)%float.

(** Default value of the keyword argument [safety_rounding]. *)
Definition safety_rounding : nat := 10.

(** [x / y]; [None] is the [ZeroDivisionError] of a zero divisor. *)
Definition py_div (x y : float) : option float :=
  if PrimFloat.is_zero y then None else Some (x / y)%float.

(** [max(a, b)]: [b] if [b > a], else [a]. *)
Definition py_max (a b : float) : float := if (a <? b)%float then b else a.

(** [round_up(n, step, safety_rounding=10)] *)
Definition round_up (n step : float) : option float :=
  q ← py_div n step;
  Some (np_round (np_ceil q * step)%float safety_rounding).

(** [round_dn(n, step, safety_rounding=10)] *)
Definition round_dn (n step : float) : option float :=
  q ← py_div n step;
  Some (np_round (np_floor q * step)%float safety_rounding).

(** [round_(n, step, safety_rounding=10)] *)
Definition round_ (n step : float) : option float :=
  q ← py_div n step;
  Some (np_round (np_rint q * step)%float safety_rounding).

(** The tuple [xk], one field per index, named after the docstring of
    [iter_entries]; indices 2 and 20 carry no name there. *)
Record xk_tuple := {
  qty_step : float;             (* xk[0] *)
  price_step : float;           (* xk[1] *)
  xk_2 : float;                 (* xk[2] *)
  min_qty : float;              (* xk[3] *)
  min_cost : float;             (* xk[4] *)
  contract_multiplier : float;  (* xk[5] *)
  ddown_factor : float;         (* xk[6] *)
  qty_pct : float;              (* xk[7] *)
  leverage : float;             (* xk[8] *)
  grid_spacing : float;         (* xk[9] *)
  grid_coefficient : float;     (* xk[10] *)
  ema_spread : float;           (* xk[11] *)
  stop_loss_liq_diff : float;   (* xk[12] *)
  stop_loss_pos_pct : float;    (* xk[13] *)
  do_long : bool;               (* xk[14] *)
  do_shrt : bool;               (* xk[15] *)
  inverse : bool;               (* xk[16] *)
  min_markup : float;           (* xk[17] *)
  markup_range : float;         (* xk[18] *)
  n_close_orders : float        (* xk[19] *)
}.

(** [calc_min_entry_qty(xk, price)]:
    [max(xk[3], round_up(xk[4] * (price / xk[5] if xk[16] else 1 / price), xk[1]))] *)
Definition calc_min_entry_qty (xk : xk_tuple) (price : float) : option float :=
  t ← (if inverse xk then py_div price (contract_multiplier xk) else py_div 1 price);
  r ← round_up (min_cost xk * t)%float (price_step xk);
  Some (py_max (min_qty xk) r).

(** *** The value of a float *)

(** The rational a finite float stands for. *)
Definition exact (x : float) : option Q :=
  match Prim2SF x with
  | S754_zero _ => Some 0
  | S754_finite s m e =>
      Some ((if s then - inject_Z (Zpos m) else inject_Z (Zpos m)) * Qpower 2 e)
  | _ => None
  end.

(** *** The rounding law as the specification states it *)

(** [r] is an integer multiple of [step]. *)
Definition is_multiple_of (step r : float) : Prop :=
  ∃ (k : Z) (s q : Q), exact step = Some s ∧ exact r = Some q ∧ q == inject_Z k * s.

(** [r] differs from [x] by at most [step]. *)
Definition within_step (step x r : float) : Prop :=
  ∃ s qx qr : Q,
    exact step = Some s ∧ exact x = Some qx ∧ exact r = Some qr
    ∧ Qabs (qr - qx) <= s.

(** The rounding law for one pair [(step, x)]: the three functions
    return, their results are multiples of [step], each within [step]
    of [x], and [round_dn] and [round_up] bracket [x]. *)
Definition rounding_law (step x : float) : Prop :=
  ∃ up dn nearest : float,
    round_up x step = Some up ∧ round_dn x step = Some dn
    ∧ round_ x step = Some nearest
    ∧ (is_multiple_of step up ∧ is_multiple_of step dn
       ∧ is_multiple_of step nearest)
    ∧ (within_step step x up ∧ within_step step x dn
       ∧ within_step step x nearest)
    ∧ ((dn <=? x)%float = true ∧ (x <=? up)%float = true).

(** *** The minimum entry quantity as the specification states it *)





(** *** Example markets *)





End Jitted64.

(** ** jitted.py: relative distance and profit, in exact arithmetic *)

Module Jitted.

(** [calc_diff(x, y)] *)
Definition calc_diff (x y : Q) : Q := Qabs (x - y) / Qabs y.

(** The tuple [xk], one field per index, named after the docstring of
    [iter_entries]; indices 2 and 20 carry no name there. *)
Record xk_tuple := {
  qty_step : Q;             (* xk[0] *)
  price_step : Q;           (* xk[1] *)
  xk_2 : Q;                 (* xk[2] *)
  min_qty : Q;              (* xk[3] *)
  min_cost : Q;             (* xk[4] *)
  contract_multiplier : Q;  (* xk[5] *)
  ddown_factor : Q;         (* xk[6] *)
  qty_pct : Q;              (* xk[7] *)
  leverage : Q;             (* xk[8] *)
  grid_spacing : Q;         (* xk[9] *)
  grid_coefficient : Q;     (* xk[10] *)
  ema_spread : Q;           (* xk[11] *)
  stop_loss_liq_diff : Q;   (* xk[12] *)
  stop_loss_pos_pct : Q;    (* xk[13] *)
  do_long : bool;           (* xk[14] *)
  do_shrt : bool;           (* xk[15] *)
  inverse : bool;           (* xk[16] *)
  min_markup : Q;           (* xk[17] *)
  markup_range : Q;         (* xk[18] *)
  n_close_orders : Q        (* xk[19] *)
}.

(** A linear market with contract multiplier 1 and steps 0.001. *)
Definition xk_unit : xk_tuple :=
  {| qty_step := 1 # 1000; price_step := 1 # 1000; xk_2 := 0; min_qty := 1 # 1000;
     min_cost := 5; contract_multiplier := 1; ddown_factor := 1; qty_pct := 1 # 10;
     leverage := 1; grid_spacing := 1 # 100; grid_coefficient := 0; ema_spread := 0;
     stop_loss_liq_diff := 0; stop_loss_pos_pct := 0; do_long := true;
     do_shrt := false; inverse := false; min_markup := 0; markup_range := 0;
     n_close_orders := 1 |}.

(** [calc_long_pnl(xk, entry_price, close_price, qty)] *)
Definition calc_long_pnl (xk : xk_tuple) (entry_price close_price qty : Q) : Q :=
  if inverse xk
  then Qabs qty * contract_multiplier xk * (1 / entry_price - 1 / close_price)
  else Qabs qty * (close_price - entry_price).

(** [calc_shrt_pnl(xk, entry_price, close_price, qty)] *)
Definition calc_shrt_pnl (xk : xk_tuple) (entry_price close_price qty : Q) : Q :=
  if inverse xk
  then Qabs qty * contract_multiplier xk * (1 / close_price - 1 / entry_price)
  else Qabs qty * (entry_price - close_price).

End Jitted.

(** ** passivbot_forager.py: the multi-symbol engine *)

Module Forager.

(** *** Exceptions

    A method either returns or raises; [x ← e; k] propagates the
    exception of [e]. *)

Inductive exn := KeyError | TypeError.

Inductive result (A : Type) : Type :=
  | Ok (a : A)
  | Raise (e : exn).
Arguments Ok {A} a.
Arguments Raise {A} e.

#[export] Instance result_ret : MRet result := λ A a, Ok a.
#[export] Instance result_bind : MBind result := λ A B f r,
  match r with
  | Ok a => f a
  | Raise e => Raise e
  end.

(** [d[k]] on a dict. *)
Definition getitem {V : Type} (d : gmap string V) (k : string) : result V :=
  match d !! k with
  | Some v => Ok v
  | None => Raise KeyError
  end.

(** *** Python built-ins used by the engine *)

(** [sub in s] on strings. *)
Fixpoint str_in (sub s : string) : bool :=
  String.prefix sub s
  || match s with
     | EmptyString => false
     | String _ s' => str_in sub s'
     end.

(** [l[:n]] for an integer [n]: a negative [n] counts from the end. *)
Definition slice_to {A : Type} (n : Z) (l : list A) : list A :=
  if (0 <=? n)%Z then take (Z.to_nat n) l
  else take (length l - Z.to_nat (- n)) l.

(** Stable insertion below is how [sorted] and [list.sort] are modelled:
    ascending, equal elements keep their order. *)
Fixpoint insert_sorted {A : Type} (leb : A → A → bool) (x : A) (l : list A) : list A :=
  match l with
  | [] => [x]
  | y :: l' => if leb x y then x :: l else y :: insert_sorted leb x l'
  end.

Definition sorted {A : Type} (leb : A → A → bool) (l : list A) : list A :=
  foldr (insert_sorted leb) [] l.

(** [sorted(l, key=...)] with the keys already computed. *)
Definition key_leb {A : Type} (a b : Q * A) : bool := Qle_bool (a.1) (b.1).

Definition sorted_by_key {A : Type} (l : list (Q * A)) : list A :=
  (sorted key_leb l).*2.

(** Keys of a dict filled by iterating over [l]: first occurrences, in order. *)
Fixpoint dict_keys (l : list string) : list string :=
  match l with
  | [] => []
  | k :: l' => k :: filter (λ k', k' ≠ k) (dict_keys l')
  end.

(** Lookup in a dict whose iteration order matters, kept as a list of items. *)
Fixpoint items_get {V : Type} (d : list (string * V)) (k : string) : option V :=
  match d with
  | [] => None
  | (k', v) :: d' => if decide (k' = k) then Some v else items_get d' k
  end.

(** [max] and [min] of two floats (the first argument wins a tie). *)
Definition py_max (a b : Q) : Q := Qmax a b.
Definition py_min (a b : Q) : Q := Qmin a b.

(** *** Data *)

Inductive pside := long | short.
Inductive order_side := buy | sell.
Inductive PB_mode := normal | graceful_stop | tp_only | panic | manual.

#[export] Instance pside_eq_dec : EqDecision pside.
Proof. solve_decision. Defined.
#[export] Instance order_side_eq_dec : EqDecision order_side.
Proof. solve_decision. Defined.
#[export] Instance PB_mode_eq_dec : EqDecision PB_mode.
Proof. solve_decision. Defined.

Definition pside_str (ps : pside) : string :=
  match ps with long => "long" | short => "short" end.

(** A dict with the two keys ["long"] and ["short"]. *)
Record sides (A : Type) := { on_long : A; on_short : A }.
Arguments on_long {A} s.
Arguments on_short {A} s.

Definition at_side {A : Type} (s : sides A) (ps : pside) : A :=
  match ps with long => on_long s | short => on_short s end.

(** An order proposal [(qty, price, tag)]: signed quantity, price, tag. *)
Definition otuple : Type := Q * Q * string.
Definition t_qty (x : otuple) : Q := x.1.1.
Definition t_price (x : otuple) : Q := x.1.2.
Definition t_tag (x : otuple) : string := x.2.

(** An order dict of the reconciler.  Orders read back from the
    exchange carry [id]; ideal orders carry [custom_id]. *)
Record order := {
  symbol : string;
  side : order_side;
  position_side : pside;
  qty : Q;
  price : Q;
  reduce_only : bool;
  id : option string;
  custom_id : option string
}.

(** An order as the exchange reports it and as [self.open_orders] stores it. *)
Record open_order := {
  oo_symbol : string;
  oo_side : order_side;
  oo_position_side : pside;
  oo_qty : Q;
  oo_price : Q;
  oo_id : string
}.

(** An order message handed to [add_new_order] or
    [remove_cancelled_order], as the exchange adapter passes it on
    ([watch_orders] and [execute_orders] of exchanges/bitget.py set
    ["side"], ["position_side"] and ["qty"] on every message): it
    carries the keys ["side"], ["position_side"], ["qty"] and ["price"]
    that the log lines of both functions read; the keys ["id"] and
    ["symbol"] may be missing ([None]; a ["symbol"] that is [None] is
    not told apart).  A message without one of the four logged keys is
    outside this type: on it the log line raises after the store has
    changed, and the functions return [False]. *)
Record order_msg := {
  msg_id : option string;
  msg_symbol : option string;
  msg_side : order_side;
  msg_position_side : pside;
  msg_qty : Q;
  msg_price : Q
}.

Record position := { pos_size : Q; pos_price : Q }.

Record ticker := { bid : Q; ask : Q; last : Q }.

Record trailing := {
  max_since_open : Q;
  min_since_max : Q;
  min_since_open : Q;
  max_since_min : Q
}.

(** [self.live_configs[symbol][pside]] *)
Record side_config := {
  mode : PB_mode;
  wallet_exposure_limit : Q;
  n_positions : Q;
  entry_grid_double_down_factor : Q;
  entry_grid_spacing_weight : Q;
  entry_grid_spacing_pct : Q;
  entry_initial_ema_dist : Q;
  entry_initial_qty_pct : Q;
  entry_trailing_retracement_pct : Q;
  entry_trailing_grid_ratio : Q;
  entry_trailing_threshold_pct : Q;
  close_grid_markup_range : Q;
  close_grid_min_markup : Q;
  close_grid_qty_pct : Q;
  close_trailing_retracement_pct : Q;
  close_trailing_grid_ratio : Q;
  close_trailing_threshold_pct : Q;
  unstuck_threshold : Q;
  unstuck_ema_dist : Q;
  unstuck_close_pct : Q;
  unstuck_loss_allowance_pct : Q
}.

(** A realized-PnL fill of [self.pnls]. *)
Record pnl_fill := { fill_id : string; fill_pnl : Q; fill_timestamp : Q }.

(** The three EMAs of a symbol and side. *)
Definition ema_triple : Type := Q * Q * Q.
Definition ema_max (e : ema_triple) : Q := py_max (py_max e.1.1 e.1.2) e.2.
Definition ema_min (e : ema_triple) : Q := py_min (py_min e.1.1 e.1.2) e.2.

(** The part of [self] that order composition and reconciliation read. *)
Record Passivbot := {
  active_symbols : list string;
  hedge_mode : bool;
  balance : Q;
  positions : list (string * sides position);
  open_orders : gmap string (list open_order);
  tickers : gmap string ticker;
  live_configs : gmap string (sides side_config);
  trailing_prices : gmap string (sides trailing);
  emas : sides (gmap string ema_triple);
  c_mults : gmap string Q;
  qty_steps : gmap string Q;
  price_steps : gmap string Q;
  min_qtys : gmap string Q;
  min_costs : gmap string Q;
  pnls : list pnl_fill;
  price_distance_threshold : Q;
  max_n_cancellations_per_batch : Z;
  max_n_creations_per_batch : Z
}.

(** Comparisons of floats as booleans. *)
Definition Qlt_bool (a b : Q) : bool := negb (Qle_bool b a).
Definition Qne_bool (a b : Q) : bool := negb (Qeq_bool a b).

(** *** Modules of the repository that the engine imports

    [passivbot_rust] (as [pbr]), [njit_funcs] and [pure_funcs] are
    compiled or separate modules.  The engine is defined once for any
    implementation of the functions it calls from them. *)

Class Externals := {
  (** [pbr.calc_wallet_exposure(c_mult, balance, size, price)] *)
  pbr_calc_wallet_exposure : Q → Q → Q → Q → Q;
  (** [calc_pprice_diff(pside, pprice, last)] *)
  calc_pprice_diff : pside → Q → Q → Q;
  (** [pbr.round_up(x, step)], [pbr.round_dn(x, step)] *)
  pbr_round_up : Q → Q → Q;
  pbr_round_dn : Q → Q → Q;
  (** [calc_min_entry_qty(price, inverse, c_mult, qty_step, min_qty, min_cost)] *)
  calc_min_entry_qty : Q → bool → Q → Q → Q → Q → Q;
  (** [pbr.cost_to_qty(cost, price, c_mult)] *)
  pbr_cost_to_qty : Q → Q → Q → Q;
  (** The grid generators, applied to their positional arguments. *)
  pbr_calc_entries_long_py : list Q → list otuple;
  pbr_calc_closes_long_py : list Q → list otuple;
  pbr_calc_entries_short_py : list Q → list otuple;
  pbr_calc_closes_short_py : list Q → list otuple;
  (** [determine_side_from_order_tuple(order)] *)
  determine_side_from_order_tuple : otuple → result order_side;
  (** [str(x)] of a float *)
  float_str : Q → string
}.

(** Modelled from the spec: [calc_diff] of [njit_funcs], not among the
    sources.  "|price − last|/last", written as [calc_diff] of
    jitted.py writes it. *)
Definition calc_diff (x y : Q) : Q := Jitted.calc_diff x y.

Section Engine.
Context `{ext : Externals}.

(** *** Positions and modes *)

Definition getpos (self : Passivbot) (symbol : string) : result (sides position) :=
  match items_get (positions self) symbol with
  | Some p => Ok p
  | None => Raise KeyError
  end.

(** [has_position(symbol, pside)] *)
Definition has_position (self : Passivbot) (symbol : string) (ps : pside) : bool :=
  match items_get (positions self) symbol with
  | Some p => Qne_bool (pos_size (at_side p ps)) 0
  | None => false
  end.

(** [has_position(symbol)] *)
Definition has_position_any (self : Passivbot) (symbol : string) : bool :=
  has_position self symbol long || has_position self symbol short.

(** [is_enabled(symbol, pside)] *)
Definition is_enabled (self : Passivbot) (symbol : string) (ps : pside) : result bool :=
  cfg ← getitem (live_configs self) symbol;
  Ok (Qlt_bool 0 (wallet_exposure_limit (at_side cfg ps))
      && Qlt_bool 0 (n_positions (at_side cfg ps))).

(** *** calc_unstucking_close *)

(** An entry [(symbol, pside, pprice_diff)] of [stuck_positions]. *)
Definition stuck_entry : Type := string * pside * Q.

(** The test that puts a position on [stuck_positions]. *)
Definition is_stuck (wallet_exposure : Q) (cfg : side_config) : bool :=
  Qeq_bool (wallet_exposure_limit cfg) 0
  || Qlt_bool (unstuck_threshold cfg) (wallet_exposure / wallet_exposure_limit cfg).

(** Body of the first loop for one [(symbol, pside)]. *)
Definition stuck_check (self : Passivbot) (symbol : string) (ps : pside)
  : result (list stuck_entry) :=
  if has_position self symbol ps then
    c_mult ← getitem (c_mults self) symbol;
    pos ← getpos self symbol;
    let wallet_exposure :=
      pbr_calc_wallet_exposure c_mult (balance self)
        (pos_size (at_side pos ps)) (pos_price (at_side pos ps)) in
    cfg ← getitem (live_configs self) symbol;
    if is_stuck wallet_exposure (at_side cfg ps) then
      tk ← getitem (tickers self) symbol;
      Ok [(symbol, ps, calc_pprice_diff ps (pos_price (at_side pos ps)) (last tk))]
    else Ok []
  else Ok [].

(** [for symbol in self.positions: for pside in ["long", "short"]: ...] *)
Fixpoint collect_stuck (self : Passivbot) (symbols : list string)
  : result (list stuck_entry) :=
  match symbols with
  | [] => Ok []
  | symbol :: rest =>
      l ← stuck_check self symbol long;
      s ← stuck_check self symbol short;
      r ← collect_stuck self rest;
      Ok (l ++ s ++ r)
  end.

(** [key=lambda x: x[2]] *)
Definition stuck_leb (a b : stuck_entry) : bool := Qle_bool a.2 b.2.

(** [[x for x in ideal_orders[symbol] if "close" in x[2] and pside in x[2]]
    if symbol in ideal_orders else []] *)
Definition ideal_closes_of (ideal_orders : gmap string (list otuple))
    (symbol : string) (ps : pside) : list otuple :=
  match ideal_orders !! symbol with
  | Some l =>
      List.filter (λ x, str_in "close" (t_tag x) && str_in (pside_str ps) (t_tag x)) l
  | None => []
  end.

(** [x["price"]] on a tuple: tuple indices must be integers. *)
Definition tuple_getitem_str (x : otuple) (key : string) : result Q :=
  Raise TypeError.

(** The quantity both branches compute before signing it. *)
Definition unstuck_qty (self : Passivbot) (symbol : string) (ps : pside)
    (psize close_price : Q) : result Q :=
  c_mult ← getitem (c_mults self) symbol;
  qty_step ← getitem (qty_steps self) symbol;
  min_qty ← getitem (min_qtys self) symbol;
  min_cost ← getitem (min_costs self) symbol;
  cfg ← getitem (live_configs self) symbol;
  Ok (py_min psize
        (py_max
           (calc_min_entry_qty close_price false c_mult qty_step min_qty min_cost)
           (pbr_round_dn
              (pbr_cost_to_qty
                 (balance self * wallet_exposure_limit (at_side cfg ps)
                  * unstuck_close_pct (at_side cfg ps))
                 close_price c_mult)
              qty_step))).

(** The [pside == "long"] branch of the second loop; [None] is
    [continue] (also when the loop body falls through). *)
Definition unstuck_close_long (self : Passivbot)
    (ideal_orders : gmap string (list otuple)) (symbol : string)
  : result (option otuple) :=
  tk ← getitem (tickers self) symbol;
  em ← getitem (on_long (emas self)) symbol;
  cfg ← getitem (live_configs self) symbol;
  price_step ← getitem (price_steps self) symbol;
  let close_price :=
    py_max (ask tk)
      (pbr_round_up (ema_max em * (1 + unstuck_ema_dist (on_long cfg))) price_step) in
  match ideal_closes_of ideal_orders symbol long with
  | [] => Ok None
  | first :: _ =>
      if Qle_bool (t_price first) close_price then Ok None
      else
        pos ← getpos self symbol;
        q ← unstuck_qty self symbol long (pos_size (on_long pos)) close_price;
        let close_qty := - q in
        if Qne_bool close_qty 0
        then Ok (Some (close_qty, close_price, "unstuck_close_long"))
        else Ok None
  end.

(** The [pside == "short"] branch; it reads [ideal_closes[0]["price"]]. *)
Definition unstuck_close_short (self : Passivbot)
    (ideal_orders : gmap string (list otuple)) (symbol : string)
  : result (option otuple) :=
  tk ← getitem (tickers self) symbol;
  em ← getitem (on_short (emas self)) symbol;
  cfg ← getitem (live_configs self) symbol;
  price_step ← getitem (price_steps self) symbol;
  let close_price :=
    py_min (bid tk)
      (pbr_round_dn (ema_min em * (1 - unstuck_ema_dist (on_short cfg))) price_step) in
  match ideal_closes_of ideal_orders symbol short with
  | [] => Ok None
  | first :: _ =>
      first_price ← tuple_getitem_str first "price";
      if Qle_bool close_price first_price then Ok None
      else
        pos ← getpos self symbol;
        q ← unstuck_qty self symbol short (Qabs (pos_size (on_short pos))) close_price;
        let close_qty := q in
        if Qne_bool close_qty 0
        then Ok (Some (close_qty, close_price, "unstuck_close_short"))
        else Ok None
  end.

(** [for symbol, pside, _ in stuck_positions: ...] and the final return. *)
Fixpoint unstuck_loop (self : Passivbot) (ideal_orders : gmap string (list otuple))
    (stuck_positions : list stuck_entry) : result (string * otuple) :=
  match stuck_positions with
  | [] => Ok ("", (0, 0, ""))
  | (symbol, ps, _) :: rest =>
      r ← match ps with
          | long => unstuck_close_long self ideal_orders symbol
          | short => unstuck_close_short self ideal_orders symbol
          end;
      match r with
      | Some close => Ok (symbol, close)
      | None => unstuck_loop self ideal_orders rest
      end
  end.

Definition calc_unstucking_close (self : Passivbot)
    (ideal_orders : gmap string (list otuple)) : result (string * otuple) :=
  stuck_positions ← collect_stuck self (positions self).*1;
  match stuck_positions with
  | [] => Ok ("", (0, 0, ""))
  | _ => unstuck_loop self ideal_orders (sorted stuck_leb stuck_positions)
  end.

(** *** calc_ideal_orders *)

(** [do_long] and [do_short] for one symbol. *)
Definition do_flags (self : Passivbot) (symbol : string) : result (bool * bool) :=
  if hedge_mode self then
    el ← is_enabled self symbol long;
    es ← is_enabled self symbol short;
    Ok (el || has_position self symbol long, es || has_position self symbol short)
  else
    let no_pos := negb (has_position_any self symbol) in
    el ← (if no_pos then is_enabled self symbol long else Ok false);
    es ← (if no_pos then is_enabled self symbol short else Ok false);
    Ok (el || has_position self symbol long, es || has_position self symbol short).

(** The long half of the loop body. *)
Definition ideal_long (self : Passivbot) (symbol : string) (do_long : bool)
  : result (list otuple) :=
  cfg ← getitem (live_configs self) symbol;
  let c := on_long cfg in
  if decide (mode c = panic) then
    if has_position self symbol long then
      pos ← getpos self symbol;
      tk ← getitem (tickers self) symbol;
      Ok [(- Qabs (pos_size (on_long pos)), ask tk, "panic_close_long")]
    else Ok []
  else if bool_decide (mode c = graceful_stop) && negb (has_position self symbol long)
  then Ok []
  else if do_long then
    qty_step ← getitem (qty_steps self) symbol;
    price_step ← getitem (price_steps self) symbol;
    min_qty ← getitem (min_qtys self) symbol;
    min_cost ← getitem (min_costs self) symbol;
    c_mult ← getitem (c_mults self) symbol;
    pos ← getpos self symbol;
    tr ← getitem (trailing_prices self) symbol;
    em ← getitem (on_long (emas self)) symbol;
    tk ← getitem (tickers self) symbol;
    let entries_long :=
      pbr_calc_entries_long_py
        [qty_step; price_step; min_qty; min_cost; c_mult;
         entry_grid_double_down_factor c; entry_grid_spacing_weight c;
         entry_grid_spacing_pct c; entry_initial_ema_dist c; entry_initial_qty_pct c;
         entry_trailing_retracement_pct c; entry_trailing_grid_ratio c;
         entry_trailing_threshold_pct c; wallet_exposure_limit c; balance self;
         pos_size (on_long pos); pos_price (on_long pos);
         min_since_open (on_long tr); max_since_min (on_long tr);
         ema_min em; bid tk] in
    let closes_long :=
      pbr_calc_closes_long_py
        [qty_step; price_step; min_qty; min_cost; c_mult;
         close_grid_markup_range c; close_grid_min_markup c; close_grid_qty_pct c;
         close_trailing_retracement_pct c; close_trailing_grid_ratio c;
         close_trailing_threshold_pct c; wallet_exposure_limit c; balance self;
         pos_size (on_long pos); pos_price (on_long pos);
         max_since_open (on_long tr); min_since_max (on_long tr);
         ask tk] in
    Ok (entries_long ++ closes_long)
  else Ok [].

(** The short half of the loop body. *)
Definition ideal_short (self : Passivbot) (symbol : string) (do_short : bool)
  : result (list otuple) :=
  cfg ← getitem (live_configs self) symbol;
  let c := on_short cfg in
  if decide (mode c = panic) then
    if has_position self symbol short then
      pos ← getpos self symbol;
      tk ← getitem (tickers self) symbol;
      Ok [(Qabs (pos_size (on_short pos)), bid tk, "panic_close_short")]
    else Ok []
  else if bool_decide (mode c = graceful_stop) && negb (has_position self symbol short)
  then Ok []
  else if do_short then
    qty_step ← getitem (qty_steps self) symbol;
    price_step ← getitem (price_steps self) symbol;
    min_qty ← getitem (min_qtys self) symbol;
    min_cost ← getitem (min_costs self) symbol;
    c_mult ← getitem (c_mults self) symbol;
    pos ← getpos self symbol;
    tr ← getitem (trailing_prices self) symbol;
    em ← getitem (on_short (emas self)) symbol;
    tk ← getitem (tickers self) symbol;
    let entries_short :=
      pbr_calc_entries_short_py
        [qty_step; price_step; min_qty; min_cost; c_mult;
         entry_grid_double_down_factor c; entry_grid_spacing_weight c;
         entry_grid_spacing_pct c; entry_initial_ema_dist c; entry_initial_qty_pct c;
         entry_trailing_retracement_pct c; entry_trailing_grid_ratio c;
         entry_trailing_threshold_pct c; wallet_exposure_limit c; balance self;
         pos_size (on_short pos); pos_price (on_short pos);
         max_since_open (on_short tr); min_since_max (on_short tr);
         ema_max em; ask tk] in
    let closes_short :=
      pbr_calc_closes_short_py
        [qty_step; price_step; min_qty; min_cost; c_mult;
         close_grid_markup_range c; close_grid_min_markup c; close_grid_qty_pct c;
         close_trailing_retracement_pct c; close_trailing_grid_ratio c;
         close_trailing_threshold_pct c; wallet_exposure_limit c; balance self;
         pos_size (on_short pos); pos_price (on_short pos);
         min_since_open (on_short tr); max_since_min (on_short tr);
         bid tk] in
    Ok (entries_short ++ closes_short)
  else Ok [].

(** [{symbol: [] for symbol in self.active_symbols}] *)
Definition empty_ideal (symbols : list string) : gmap string (list otuple) :=
  list_to_map ((λ symbol, (symbol, [])) <$> symbols).

(** The first loop: each active symbol appends its proposals. *)
Fixpoint compose_ideal (self : Passivbot) (symbols : list string)
    (ideal_orders : gmap string (list otuple)) : result (gmap string (list otuple)) :=
  match symbols with
  | [] => Ok ideal_orders
  | symbol :: rest =>
      flags ← do_flags self symbol;
      l ← ideal_long self symbol flags.1;
      s ← ideal_short self symbol flags.2;
      cur ← getitem ideal_orders symbol;
      compose_ideal self rest (<[symbol := cur ++ l ++ s]> ideal_orders)
  end.

(** The unstuck close replaces the closes of its symbol. *)
Definition apply_unstucking (ideal_orders : gmap string (list otuple))
    (unstucking_symbol : string) (unstucking_close : otuple)
  : result (gmap string (list otuple)) :=
  if Qne_bool (t_qty unstucking_close) 0 then
    cur ← getitem ideal_orders unstucking_symbol;
    Ok (<[unstucking_symbol :=
            List.filter (λ x, negb (str_in "close" (t_tag x))) cur ++ [unstucking_close]]>
          ideal_orders)
  else Ok ideal_orders.

(** Python orders the pairs [(pprice_diff, order)] lexicographically. *)
Definition otuple_ltb (x y : otuple) : bool :=
  Qlt_bool (t_qty x) (t_qty y)
  || (Qeq_bool (t_qty x) (t_qty y)
      && (Qlt_bool (t_price x) (t_price y)
          || (Qeq_bool (t_price x) (t_price y) && String.ltb (t_tag x) (t_tag y)))).

Definition with_diff_ltb (a b : Q * otuple) : bool :=
  Qlt_bool a.1 b.1 || (Qeq_bool a.1 b.1 && otuple_ltb a.2 b.2).

Definition with_diff_leb (a b : Q * otuple) : bool := negb (with_diff_ltb b a).

(** [with_pprice_diff] for one symbol. *)
Definition with_pprice_diff (self : Passivbot) (symbol : string) (l : list otuple)
  : result (list (Q * otuple)) :=
  match l with
  | [] => Ok []
  | _ =>
      tk ← getitem (tickers self) symbol;
      Ok ((λ x, (calc_diff (t_price x) (last tk), x)) <$> l)
  end.

(** The loop over the sorted pairs, with the set [seen]. *)
Fixpoint filter_ideal (self : Passivbot) (symbol : string) (seen : gset string)
    (l : list (Q * otuple)) : result (list order) :=
  match l with
  | [] => Ok []
  | (pprice_diff, o) :: rest =>
      if Qeq_bool (t_qty o) 0
         || ((str_in "initial" (t_tag o) || str_in "unstuck" (t_tag o))
             && Qlt_bool (price_distance_threshold self) pprice_diff)
      then filter_ideal self symbol seen rest
      else
        let seen_key := (float_str (Qabs (t_qty o)) +:+ float_str (t_price o))%string in
        if bool_decide (seen_key ∈ seen) then filter_ideal self symbol seen rest
        else
          sd ← determine_side_from_order_tuple o;
          r ← filter_ideal self symbol ({[seen_key]} ∪ seen) rest;
          Ok ({| symbol := symbol;
                 side := sd;
                 position_side := if str_in "long" (t_tag o) then long else short;
                 qty := Qabs (t_qty o);
                 price := t_price o;
                 reduce_only := str_in "close" (t_tag o);
                 id := None;
                 custom_id := Some (t_tag o) |} :: r)
  end.

(** [ideal_orders_f], built symbol by symbol. *)
Fixpoint filter_all (self : Passivbot) (symbols : list string)
    (ideal_orders : gmap string (list otuple)) : result (gmap string (list order)) :=
  match symbols with
  | [] => Ok ∅
  | symbol :: rest =>
      cur ← getitem ideal_orders symbol;
      wd ← with_pprice_diff self symbol cur;
      f ← filter_ideal self symbol ∅ (sorted with_diff_leb wd);
      r ← filter_all self rest ideal_orders;
      Ok (<[symbol := f]> r)
  end.

(** The second half of [calc_ideal_orders], from the call of
    [calc_unstucking_close] on: unstucking, then filtering. *)
Definition unstuck_and_filter (self : Passivbot)
    (ideal_orders : gmap string (list otuple)) : result (gmap string (list order)) :=
  unstucking ← calc_unstucking_close self ideal_orders;
  ideal_orders ← apply_unstucking ideal_orders unstucking.1 unstucking.2;
  filter_all self (dict_keys (active_symbols self)) ideal_orders.

Definition calc_ideal_orders (self : Passivbot) : result (gmap string (list order)) :=
  ideal_orders ← compose_ideal self (active_symbols self)
                   (empty_ideal (active_symbols self));
  unstuck_and_filter self ideal_orders.

(** *** calc_orders_to_cancel_and_create *)

(** An open order as the reconciler reads it. *)
Definition actual_order_of (x : open_order) : order :=
  {| symbol := oo_symbol x;
     side := oo_side x;
     position_side := oo_position_side x;
     qty := Qabs (oo_qty x);
     price := oo_price x;
     reduce_only :=
       (bool_decide (oo_position_side x = long) && bool_decide (oo_side x = sell))
       || (bool_decide (oo_position_side x = short) && bool_decide (oo_side x = buy));
     id := Some (oo_id x);
     custom_id := None |}.

(** [actual_orders[symbol]] *)
Definition actual_orders_of (self : Passivbot) (symbol : string) : list order :=
  match open_orders self !! symbol with
  | Some l => actual_order_of <$> l
  | None => []
  end.

(** Two order dicts agree on
    [keys = ("symbol", "side", "position_side", "qty", "price")]. *)
Definition keys_eqb (a b : order) : bool :=
  bool_decide (symbol a = symbol b)
  && bool_decide (side a = side b)
  && bool_decide (position_side a = position_side b)
  && Qeq_bool (qty a) (qty b)
  && Qeq_bool (price a) (price b).

(** Modelled from the spec: [filter_orders] of [pure_funcs], which is not
    among the sources.  "Given ideal set I and actual set A keyed by
    (symbol, side, position_side, qty, price): to_cancel = A − I,
    to_create = I − A." *)
Definition filter_orders (actual_orders ideal_orders : list order)
  : list order * list order :=
  (List.filter (λ a, negb (existsb (keys_eqb a) ideal_orders)) actual_orders,
   List.filter (λ i, negb (existsb (λ a, keys_eqb a i) actual_orders)) ideal_orders).

(** The two branches on [self.live_configs[symbol][pside]["mode"]]. *)
Definition mode_filter (m : PB_mode) (ps : pside) (l : list order) : list order :=
  match m with
  | manual => List.filter (λ x, negb (bool_decide (position_side x = ps))) l
  | tp_only =>
      List.filter
        (λ x, negb (bool_decide (position_side x = ps))
              || (bool_decide (position_side x = ps) && reduce_only x)) l
  | _ => l
  end.

(** [for pside in ["long", "short"]: ...] *)
Definition mode_filters (cfg : sides side_config) (l : list order) : list order :=
  mode_filter (mode (on_short cfg)) short (mode_filter (mode (on_long cfg)) long l).

(** [for symbol in actual_orders: ...] *)
Fixpoint reconcile_symbols (self : Passivbot) (ideal_orders : gmap string (list order))
    (symbols : list string) : result (list order * list order) :=
  match symbols with
  | [] => Ok ([], [])
  | symbol :: rest =>
      ideal_s ← getitem ideal_orders symbol;
      let diff := filter_orders (actual_orders_of self symbol) ideal_s in
      cfg ← getitem (live_configs self) symbol;
      r ← reconcile_symbols self ideal_orders rest;
      Ok (mode_filters cfg diff.1 ++ r.1, mode_filters cfg diff.2 ++ r.2)
  end.

(** The sort keys [calc_diff(x["price"], self.tickers[x["symbol"]]["last"])]. *)
Fixpoint with_diff (self : Passivbot) (l : list order) : result (list (Q * order)) :=
  match l with
  | [] => Ok []
  | x :: rest =>
      tk ← getitem (tickers self) (symbol x);
      r ← with_diff self rest;
      Ok ((calc_diff (price x) (last tk), x) :: r)
  end.

(** The diff of actual against given ideal orders, filtered and sorted. *)
Definition reconcile (self : Passivbot) (ideal_orders : gmap string (list order))
  : result (list order * list order) :=
  queues ← reconcile_symbols self ideal_orders (dict_keys (active_symbols self));
  c ← with_diff self queues.1;
  k ← with_diff self queues.2;
  Ok (sorted_by_key c, sorted_by_key k).

Definition calc_orders_to_cancel_and_create (self : Passivbot)
  : result (list order * list order) :=
  ideal_orders ← calc_ideal_orders self;
  reconcile self ideal_orders.

(** *** execute_to_exchange and the exchange adapter *)

(** [execute_multiple(orders, type_, max_n_executions)]: the orders for
    which a request is issued. *)
Definition execute_multiple (orders : list order) (max_n_executions : Z) : list order :=
  slice_to max_n_executions orders.

(** [BitgetBot.execute_cancellations(orders)] *)
Definition execute_cancellations (self : Passivbot) (orders : list order) : list order :=
  let cap := max_n_cancellations_per_batch self in
  let orders :=
    if (cap <? Z.of_nat (length orders))%Z then
      slice_to cap (List.filter reduce_only orders
                    ++ List.filter (λ x, negb (reduce_only x)) orders)
    else orders in
  execute_multiple orders cap.

(** [BitgetBot.execute_orders(orders)] *)
Definition execute_orders (self : Passivbot) (orders : list order) : list order :=
  execute_multiple orders (max_n_creations_per_batch self).

(** What [execute_to_exchange] hands over, given the two queues: the
    cancellations and the creations for which requests are issued
    (creations shown before [format_custom_ids] rewrites [custom_id]). *)
Definition dispatch (self : Passivbot) (to_cancel to_create : list order)
  : list order * list order :=
  (execute_cancellations self (slice_to (max_n_cancellations_per_batch self) to_cancel),
   execute_orders self (slice_to (max_n_creations_per_batch self) to_create)).

Definition execute_to_exchange (self : Passivbot) : result (list order * list order) :=
  queues ← calc_orders_to_cancel_and_create self;
  Ok (dispatch self queues.1 queues.2).

End Engine.

(** *** The open-order store *)

(** Python's [True], [False] and the [None] of a function that falls
    off its end. *)
Inductive py_ret := ret_True | ret_False | ret_None.

Definition open_order_of_msg (o : order_msg) (oid symbol : string) : open_order :=
  {| oo_symbol := symbol; oo_side := msg_side o;
     oo_position_side := msg_position_side o;
     oo_qty := msg_qty o; oo_price := msg_price o; oo_id := oid |}.

(** [{x["id"] for x in self.open_orders[symbol]}] *)
Definition ids_of (l : list open_order) : list string := oo_id <$> l.

(** [if symbol not in self.open_orders: self.open_orders[symbol] = []] *)
Definition ensure_symbol (store : gmap string (list open_order)) (symbol : string)
  : gmap string (list open_order) :=
  match store !! symbol with
  | Some _ => store
  | None => <[symbol := []]> store
  end.

(** [add_new_order(order, source)]: the new store and the return value.
    The argument is [None] for a falsy [order].  On an [order_msg] the
    log line that follows the [append] finds its keys, so the [except]
    clause is not entered. *)
Definition add_new_order (store : gmap string (list open_order))
    (order : option order_msg) : gmap string (list open_order) * py_ret :=
  match order with
  | None => (store, ret_False)
  | Some o =>
      match msg_id o, msg_symbol o with
      | None, _ => (store, ret_False)
      | Some _, None => (store, ret_False)
      | Some oid, Some sym =>
          let store1 := ensure_symbol store sym in
          let cur := default [] (store1 !! sym) in
          if bool_decide (oid ∉ ids_of cur)
          then (<[sym := cur ++ [open_order_of_msg o oid sym]]> store1, ret_True)
          else (store1, ret_None)
      end
  end.

(** [remove_cancelled_order(order, source)], on an [order_msg] (the
    log line after the removal finds its keys). *)
Definition remove_cancelled_order (store : gmap string (list open_order))
    (order : option order_msg) : gmap string (list open_order) * py_ret :=
  match order with
  | None => (store, ret_False)
  | Some o =>
      match msg_id o, msg_symbol o with
      | None, _ => (store, ret_False)
      | Some _, None => (store, ret_False)
      | Some oid, Some sym =>
          let store1 := ensure_symbol store sym in
          let cur := default [] (store1 !! sym) in
          if bool_decide (oid ∈ ids_of cur)
          then (<[sym := List.filter (λ x, negb (String.eqb (oo_id x) oid)) cur]> store1,
                ret_True)
          else (store1, ret_None)
      end
  end.

(** [update_open_orders]: the store rebuilt from the fetched orders. *)
Definition update_open_orders (fetched : list open_order)
  : gmap string (list open_order) :=
  foldl (λ store elm,
           <[oo_symbol elm := default [] (store !! oo_symbol elm) ++ [elm]]> store)
        ∅ fetched.

(** The stores the bot can hold when the exchange answers a fetch with
    lists in [fetches]: empty at start, then changed by order messages,
    by the mode update (which files an empty list for a symbol), and by
    a refresh, which files whatever was fetched. *)
Inductive reachable_with (fetches : list open_order → Prop)
  : gmap string (list open_order) → Prop :=
  | reach_init : reachable_with fetches ∅
  | reach_add store order :
      reachable_with fetches store →
      reachable_with fetches (add_new_order store order).1
  | reach_remove store order :
      reachable_with fetches store →
      reachable_with fetches (remove_cancelled_order store order).1
  | reach_modes store symbol :
      reachable_with fetches store →
      reachable_with fetches (ensure_symbol store symbol)
  | reach_refresh fetched :
      fetches fetched → reachable_with fetches (update_open_orders fetched).

Arguments reach_init {fetches}.
Arguments reach_add {fetches} store order _.
Arguments reach_remove {fetches} store order _.
Arguments reach_modes {fetches} store symbol _.
Arguments reach_refresh {fetches} fetched _.

(** The stores the bot can hold: a refresh files any fetched list. *)
Definition reachable : gmap string (list open_order) → Prop :=
  reachable_with (λ _, True).

(** The ids of a fetched list are pairwise distinct. *)
Definition distinct_ids (fetched : list open_order) : Prop :=
  NoDup (ids_of fetched).

(** No list of the store holds two orders with the same id. *)
Definition unique_ids (store : gmap string (list open_order)) : Prop :=
  ∀ sym l, store !! sym = Some l → NoDup (ids_of l).

(** Every order is filed under its own symbol. *)
Definition well_keyed (store : gmap string (list open_order)) : Prop :=
  ∀ sym l x, store !! sym = Some l → x ∈ l → oo_symbol x = sym.

(** *** The execution loops and the clock *)

(** [utc_ms() // (1000 * 60)] *)
Definition minute_of (now : Q) : Z := Qfloor (now / 60000).

(** One pass of the body of [run_execution_loop], at clock reading
    [now]: the new [prev_minute] and whether [execute_to_exchange] ran. *)
Definition run_execution_loop_pass (prev_minute : Z) (now : Q) : Z * bool :=
  let now_minute := minute_of now in
  if negb (now_minute =? prev_minute)%Z then (now_minute, true)
  else (prev_minute, false).

(** A pass of a loop sees the clock when it starts ([t_start]), and, if
    it runs a tick, when the tick starts to reconcile ([t_tick]) and
    when it has completed ([t_done]); [raised] tells whether the tick
    let an exception escape. *)
Record pass_clock := { t_start : Q; t_tick : Q; t_done : Q; raised : bool }.

(** A tick that ran: when it began and when it completed. *)
Definition tick : Type := Q * Q.

(** [run_execution_loop] over a sequence of passes: the ticks it runs. *)
Fixpoint run_execution_loop_from (prev_minute : Z) (clock : list pass_clock)
  : list tick :=
  match clock with
  | [] => []
  | c :: rest =>
      let r := run_execution_loop_pass prev_minute (t_start c) in
      if r.2 then (t_start c, t_done c) :: run_execution_loop_from r.1 rest
      else run_execution_loop_from r.1 rest
  end.

Definition run_execution_loop (started : Q) (clock : list pass_clock) : list tick :=
  run_execution_loop_from (minute_of started) clock.

(** [self.execution_delay_millis] of [__init__] *)
Definition execution_delay_millis (execution_delay_seconds : Q) : Q :=
  py_max 3000 (execution_delay_seconds * 1000).

(** The guard that opens [execute_to_exchange_old]:
    [utc_ms() - self.execution_delay_millis < self.previous_execution_ts]. *)
Definition execute_to_exchange_old_skips (execution_delay_seconds
    previous_execution_ts now : Q) : bool :=
  Qlt_bool (now - execution_delay_millis execution_delay_seconds) previous_execution_ts.

(** The guard of [execution_loop]:
    [utc_ms() - self.execution_delay_millis > self.previous_execution_ts]. *)
Definition execution_loop_calls (execution_delay_seconds
    previous_execution_ts now : Q) : bool :=
  Qlt_bool previous_execution_ts (now - execution_delay_millis execution_delay_seconds).

(** [execution_loop] with [execute_to_exchange_old]: the ticks it runs.
    A tick that runs leaves its completion time in
    [self.previous_execution_ts] (the [finally] clause); an exception
    that escapes it (from [restart_bot_on_too_many_errors]) ends the
    loop. *)
Fixpoint execution_loop (execution_delay_seconds previous_execution_ts : Q)
    (clock : list pass_clock) : list tick :=
  match clock with
  | [] => []
  | c :: rest =>
      if execution_loop_calls execution_delay_seconds previous_execution_ts (t_start c)
         && negb (execute_to_exchange_old_skips execution_delay_seconds
                    previous_execution_ts (t_tick c))
      then (t_tick c, t_done c)
           :: (if raised c then []
               else execution_loop execution_delay_seconds (t_done c) rest)
      else execution_loop execution_delay_seconds previous_execution_ts rest
  end.

(** Of the ticks a loop ran, none begins less than [gap] milliseconds
    after the previous one completed. *)
Fixpoint spaced (gap : Q) (ticks : list tick) : Prop :=
  match ticks with
  | [] => True
  | t1 :: rest =>
      match rest with
      | [] => True
      | t2 :: _ => gap <= t2.1 - t1.2
      end /\ spaced gap rest
  end.

(** The rule as the specification states it: no tick begins less than
    [execution_delay_seconds] seconds after the previous one
    completed. *)
Definition respects_delay (execution_delay_seconds : Q) (ticks : list tick) : Prop :=
  spaced (execution_delay_seconds * 1000) ticks.

(** The first tick the legacy loop runs begins at least the delay after
    [previous_execution_ts]. *)
Definition starts_after (d prev : Q) (ticks : list tick) : Prop :=
  match ticks with
  | [] => True
  | t :: _ => execution_delay_millis d <= t.1 - prev
  end.

(** *** Restart policy *)

Definition max_n_errors_per_hour : nat := 10.

(** [restart_bot_on_too_many_errors]: the new [self.error_counts] and
    whether the exception is raised. *)
Definition restart_bot_on_too_many_errors (error_counts : list Q) (now : Q)
  : list Q * bool :=
  let error_counts :=
    List.filter (λ x, Qlt_bool (now - 1000 * 60 * 60) x) error_counts ++ [now] in
  (error_counts, (max_n_errors_per_hour <=? length error_counts)%nat).

(** Errors within the hour that ends at [now], the current one apart. *)
Definition errors_in_window (error_counts : list Q) (now : Q) : nat :=
  length (List.filter (λ x, Qlt_bool (now - 1000 * 60 * 60) x) error_counts).

Definition max_n_restarts_per_day : nat := 5.

(** The clock when a run of the bot has ended and the cooldown has
    passed: [t_append] is read by [restarts.append(utc_ms())], [t_filter]
    by the comprehension on the next line. *)
Record restart_clock := { t_append : Q; t_filter : Q }.

(** The tail of one iteration of the loop of [main]: the new [restarts]
    and whether the loop goes on (restarts the bot). *)
Definition main_restart_step (restarts : list Q) (c : restart_clock) : list Q * bool :=
  let restarts := restarts ++ [t_append c] in
  let restarts :=
    List.filter (λ x, Qlt_bool (t_filter c - 1000 * 60 * 60 * 24) x) restarts in
  (restarts, negb (max_n_restarts_per_day <? length restarts)%nat).

(** The loop of [main] over the runs of the bot that end: the clock
    readings of the restarts it performs. *)
Fixpoint main_loop (restarts : list Q) (runs : list restart_clock) : list restart_clock :=
  match runs with
  | [] => []
  | c :: rest =>
      let r := main_restart_step restarts c in
      if r.2 then c :: main_loop r.1 rest else []
  end.

(** Entries of [restarts] that the comprehension read at [tf] keeps. *)
Definition within_day (tf : Q) (l : list Q) : list Q :=
  List.filter (λ x, Qlt_bool (tf - 1000 * 60 * 60 * 24) x) l.

(** The clock does not run backwards. *)
Fixpoint clock_monotone (runs : list restart_clock) : Prop :=
  match runs with
  | [] => True
  | c :: rest =>
      t_append c <= t_filter c
      /\ match rest with
         | [] => True
         | c' :: _ => t_filter c <= t_append c'
         end
      /\ clock_monotone rest
  end.

(** *** The imported functions, as the specification describes them *)

(** Modelled from the spec: [qty_to_cost] of [njit_funcs], not among the
    sources.  "qty_to_cost(qty, price, mult, inverse): |qty|·mult·price
    for linear". *)
Definition qty_to_cost (qty price c_mult : Q) : Q := Qabs qty * c_mult * price.

(** Modelled from the spec: [calc_wallet_exposure] of [passivbot_rust],
    not among the sources.  "wallet_exposure = qty_to_cost(size, price,
    …) / balance". *)
Definition spec_calc_wallet_exposure (c_mult balance size price : Q) : Q :=
  qty_to_cost size price c_mult / balance.

(** Modelled from the spec: [cost_to_qty] of [passivbot_rust], not among
    the sources.  "cost_to_qty: inverse of the above at a given price". *)
Definition spec_cost_to_qty (cost price c_mult : Q) : Q := cost / (price * c_mult).

(** The nearest integer, ties to the even one. *)
Definition rint (x : Q) : Z :=
  let f := Qfloor x in
  match Qcompare (x - inject_Z f) (1 # 2) with
  | Lt => f
  | Gt => (f + 1)%Z
  | Eq => if Z.even f then f else (f + 1)%Z
  end.

(** [x] rounded to ten decimals. *)
Definition round_decimals (x : Q) : Q :=
  inject_Z (rint (x * inject_Z (10 ^ 10))) / inject_Z (10 ^ 10).

(** Modelled from the spec: [round_up] of [passivbot_rust], not among
    the sources.  "round_to(step, x, mode∈{nearest,up,down}): snap x to
    a multiple of step", in exact arithmetic, with the rounding of the
    result to ten decimals that round_up of jitted.py ends with. *)
Definition spec_round_up (n step : Q) : Q :=
  round_decimals (inject_Z (Qceiling (n / step)) * step).

(** Modelled from the spec: [round_dn] of [passivbot_rust], not among
    the sources; as [spec_round_up], downwards. *)
Definition spec_round_dn (n step : Q) : Q :=
  round_decimals (inject_Z (Qfloor (n / step)) * step).

(** Modelled from the spec: [calc_min_entry_qty] of [njit_funcs], not
    among the sources.  "max(min_qty, ceil_to(qty_step, min_notional /
    (price·mult))) (linear form)". *)
Definition spec_calc_min_entry_qty (price : Q) (inverse : bool)
    (c_mult qty_step min_qty min_cost : Q) : Q :=
  py_max min_qty (spec_round_up (min_cost / (price * c_mult)) qty_step).

(** Modelled from the spec: [calc_pprice_diff] of [njit_funcs], not
    among the sources.  The "price-gap to last price" of a position,
    relative to the position price, positive when the position is at a
    loss. *)
Definition spec_calc_pprice_diff (ps : pside) (pprice last : Q) : Q :=
  match ps with
  | long => 1 - last / pprice
  | short => last / pprice - 1
  end.

(** Modelled from the spec: [determine_side_from_order_tuple] of
    [pure_funcs], not among the sources.  "Signed qty: positive = buy,
    negative = sell." *)
Definition spec_determine_side (o : otuple) : result order_side :=
  Ok (if Qlt_bool 0 (t_qty o) then buy else sell).

(** A printer of numbers that yields distinct strings for distinct
    values.  It stands for [str] on floats where the engine uses the
    string as a key; it is not the text Python prints. *)
Definition ratio_str (q : Q) : string :=
  (pretty (Qnum (Qred q)) +:+ "/" +:+ pretty (Zpos (Qden (Qred q))))%string.

(** The imported functions as the specification describes them, in
    exact arithmetic.  The grid generators propose nothing here: the
    example states below keep to orders that the engine builds
    itself. *)
Definition reference_externals : Externals := {|
  pbr_calc_wallet_exposure := spec_calc_wallet_exposure;
  calc_pprice_diff := spec_calc_pprice_diff;
  pbr_round_up := spec_round_up;
  pbr_round_dn := spec_round_dn;
  calc_min_entry_qty := spec_calc_min_entry_qty;
  pbr_cost_to_qty := spec_cost_to_qty;
  pbr_calc_entries_long_py := λ _, [];
  pbr_calc_closes_long_py := λ _, [];
  pbr_calc_entries_short_py := λ _, [];
  pbr_calc_closes_short_py := λ _, [];
  determine_side_from_order_tuple := spec_determine_side;
  float_str := ratio_str
|}.

(** *** Example states *)

Definition example_config (m : PB_mode) (W : Q) : side_config :=
  {| mode := m; wallet_exposure_limit := W; n_positions := 2;
     entry_grid_double_down_factor := 1; entry_grid_spacing_weight := 1;
     entry_grid_spacing_pct := 4 # 100; entry_initial_ema_dist := 1 # 100;
     entry_initial_qty_pct := 5 # 100; entry_trailing_retracement_pct := 0;
     entry_trailing_grid_ratio := 0; entry_trailing_threshold_pct := 0;
     close_grid_markup_range := 4 # 1000; close_grid_min_markup := 2 # 1000;
     close_grid_qty_pct := 2 # 10; close_trailing_retracement_pct := 0;
     close_trailing_grid_ratio := 0; close_trailing_threshold_pct := 0;
     unstuck_threshold := 9 # 10; unstuck_ema_dist := 0;
     unstuck_close_pct := 1 # 100; unstuck_loss_allowance_pct := 2 # 100 |}.

Definition flat : position := {| pos_size := 0; pos_price := 0 |}.

Definition no_trailing : sides trailing :=
  let t := {| max_since_open := 0; min_since_max := 0;
              min_since_open := 0; max_since_min := 0 |} in
  {| on_long := t; on_short := t |}.

(** Two symbols on a market with price step 0.01, quantity step 0.001,
    minimum quantity 0.001, minimum notional 5, contract multiplier 1. *)
Definition market_AB (x : Q) : gmap string Q := {[ "A" := x; "B" := x ]}.

(** Scenario S5: balance 1000 and two stuck longs entered at 100 with
    limit W = 1, A of size 12 (we/W = 1.2, last 98) and B of size 14
    (we/W = 1.4, last 99). *)
Definition state_S5 : Passivbot :=
  {| active_symbols := ["A"; "B"];
     hedge_mode := true;
     balance := 1000;
     positions :=
       [("A", {| on_long := {| pos_size := 12; pos_price := 100 |}; on_short := flat |});
        ("B", {| on_long := {| pos_size := 14; pos_price := 100 |}; on_short := flat |})];
     open_orders := ∅;
     tickers := {[ "A" := {| bid := 979 # 10; ask := 981 # 10; last := 98 |};
                   "B" := {| bid := 989 # 10; ask := 991 # 10; last := 99 |} ]};
     live_configs :=
       {[ "A" := {| on_long := example_config normal 1;
                    on_short := example_config normal 0 |};
          "B" := {| on_long := example_config normal 1;
                    on_short := example_config normal 0 |} ]};
     trailing_prices := {[ "A" := no_trailing; "B" := no_trailing ]};
     emas := {| on_long := {[ "A" := (98, 982 # 10, 985 # 10);
                              "B" := (99, 992 # 10, 995 # 10) ]};
                on_short := {[ "A" := (98, 982 # 10, 985 # 10);
                               "B" := (99, 992 # 10, 995 # 10) ]} |};
     c_mults := market_AB 1;
     qty_steps := market_AB (1 # 1000);
     price_steps := market_AB (1 # 100);
     min_qtys := market_AB (1 # 1000);
     min_costs := market_AB 5;
     pnls := [];
     price_distance_threshold := 1 # 100;
     max_n_cancellations_per_batch := 8;
     max_n_creations_per_batch := 4 |}.

(** The closes proposed for the two longs of S5 before unstucking. *)
Definition ideal_S5 : gmap string (list otuple) :=
  {[ "A" := [(- (24 # 10), 1002 # 10, "close_grid_long")];
     "B" := [(- (28 # 10), 1002 # 10, "close_grid_long")] ]}.

(** S5 with the loss allowance set to 0 on every side and a realized
    loss of 500 in the PnL ledger. *)
Definition no_allowance (c : side_config) : side_config :=
  {| mode := mode c; wallet_exposure_limit := wallet_exposure_limit c;
     n_positions := n_positions c;
     entry_grid_double_down_factor := entry_grid_double_down_factor c;
     entry_grid_spacing_weight := entry_grid_spacing_weight c;
     entry_grid_spacing_pct := entry_grid_spacing_pct c;
     entry_initial_ema_dist := entry_initial_ema_dist c;
     entry_initial_qty_pct := entry_initial_qty_pct c;
     entry_trailing_retracement_pct := entry_trailing_retracement_pct c;
     entry_trailing_grid_ratio := entry_trailing_grid_ratio c;
     entry_trailing_threshold_pct := entry_trailing_threshold_pct c;
     close_grid_markup_range := close_grid_markup_range c;
     close_grid_min_markup := close_grid_min_markup c;
     close_grid_qty_pct := close_grid_qty_pct c;
     close_trailing_retracement_pct := close_trailing_retracement_pct c;
     close_trailing_grid_ratio := close_trailing_grid_ratio c;
     close_trailing_threshold_pct := close_trailing_threshold_pct c;
     unstuck_threshold := unstuck_threshold c;
     unstuck_ema_dist := unstuck_ema_dist c;
     unstuck_close_pct := unstuck_close_pct c;
     unstuck_loss_allowance_pct := 0 |}.

Definition with_ledger (self : Passivbot) (cfgs : gmap string (sides side_config))
    (ledger : list pnl_fill) : Passivbot :=
  {| active_symbols := active_symbols self; hedge_mode := hedge_mode self;
     balance := balance self; positions := positions self;
     open_orders := open_orders self; tickers := tickers self;
     live_configs := cfgs;
     trailing_prices := trailing_prices self; emas := emas self;
     c_mults := c_mults self; qty_steps := qty_steps self;
     price_steps := price_steps self; min_qtys := min_qtys self;
     min_costs := min_costs self;
     pnls := ledger;
     price_distance_threshold := price_distance_threshold self;
     max_n_cancellations_per_batch := max_n_cancellations_per_batch self;
     max_n_creations_per_batch := max_n_creations_per_batch self |}.

Definition state_loss : Passivbot :=
  with_ledger state_S5
    ((λ c, {| on_long := no_allowance (on_long c);
              on_short := no_allowance (on_short c) |}) <$> live_configs state_S5)
    [{| fill_id := "f1"; fill_pnl := - (500); fill_timestamp := 1700000000000 |}].

(** One symbol A on the market of [market_AB], last price 100.45. *)
Definition state_A (pos : sides position) (oo : list open_order)
    (cfg : sides side_config) (cap : Z) : Passivbot :=
  {| active_symbols := ["A"];
     hedge_mode := true;
     balance := 1000;
     positions := [("A", pos)];
     open_orders := update_open_orders oo;
     tickers := {[ "A" := {| bid := 1004 # 10; ask := 1005 # 10; last := 10045 # 100 |} ]};
     live_configs := {[ "A" := cfg ]};
     trailing_prices := {[ "A" := no_trailing ]};
     emas := {| on_long := {[ "A" := (100, 1002 # 10, 1004 # 10) ]};
                on_short := {[ "A" := (100, 1002 # 10, 1004 # 10) ]} |};
     c_mults := market_AB 1;
     qty_steps := market_AB (1 # 1000);
     price_steps := market_AB (1 # 100);
     min_qtys := market_AB (1 # 1000);
     min_costs := market_AB 5;
     pnls := [];
     price_distance_threshold := 2 # 1000;
     max_n_cancellations_per_batch := cap;
     max_n_creations_per_batch := cap |}.

(** Scenario S4: the long side in panic mode with a long of 0.3, ask
    100.5; the close at the ask is already on the exchange. *)
Definition oo_x1 : open_order :=
  {| oo_symbol := "A"; oo_side := sell; oo_position_side := long;
     oo_qty := 3 # 10; oo_price := 1005 # 10; oo_id := "x1" |}.

Definition state_S4 : Passivbot :=
  state_A {| on_long := {| pos_size := 3 # 10; pos_price := 100 |}; on_short := flat |}
          [oo_x1]
          {| on_long := example_config panic 1; on_short := example_config normal 0 |}
          8.

Definition ideal_S4 : gmap string (list order) :=
  {[ "A" := [ {| symbol := "A"; side := sell; position_side := long;
                 qty := 3 # 10; price := 1005 # 10; reduce_only := true;
                 id := None; custom_id := Some "panic_close_long" |} ] ]}.

(** No position; the long side in manual mode; a long entry placed by
    hand and a stale short entry on the exchange. *)
Definition oo_m1 : open_order :=
  {| oo_symbol := "A"; oo_side := buy; oo_position_side := long;
     oo_qty := 1 # 10; oo_price := 99; oo_id := "m1" |}.

Definition oo_s1 : open_order :=
  {| oo_symbol := "A"; oo_side := sell; oo_position_side := short;
     oo_qty := 1 # 10; oo_price := 101; oo_id := "s1" |}.

Definition order_s1 : order := actual_order_of oo_s1.

Definition cfg_manual : sides side_config :=
  {| on_long := example_config manual 0; on_short := example_config normal 0 |}.

Definition state_manual : Passivbot :=
  state_A {| on_long := flat; on_short := flat |} [oo_m1; oo_s1] cfg_manual 8.

(** No position and both sides disabled; a stale long entry at 100 and
    a stale long close at 102 on the exchange; at most one cancellation
    per batch. *)
Definition oo_e1 : open_order :=
  {| oo_symbol := "A"; oo_side := buy; oo_position_side := long;
     oo_qty := 1; oo_price := 100; oo_id := "e1" |}.

Definition oo_c1 : open_order :=
  {| oo_symbol := "A"; oo_side := sell; oo_position_side := long;
     oo_qty := 1; oo_price := 102; oo_id := "c1" |}.

Definition order_e1 : order := actual_order_of oo_e1.
Definition order_c1 : order := actual_order_of oo_c1.

Definition state_batch : Passivbot :=
  state_A {| on_long := flat; on_short := flat |} [oo_e1; oo_c1]
          {| on_long := example_config normal 0; on_short := example_config normal 0 |}
          1.

(** Modelled from the spec: [calc_pnl_long] of [njit_funcs], not among
    the sources.  "standard perp PnL", linear form. *)
Definition calc_pnl_long (entry_price close_price qty c_mult : Q) : Q :=
  Qabs qty * c_mult * (close_price - entry_price).

(** Realized PnL summed over the ledger. *)
Definition cumulative_pnl (self : Passivbot) : Q :=
  foldr (λ f acc, fill_pnl f + acc) 0 (pnls self).

(** *** Statements about unstucking *)

Definition unstuck_tag (ps : pside) : string :=
  match ps with
  | long => "unstuck_close_long"
  | short => "unstuck_close_short"
  end.

Section Unstucking.
Context `{ext : Externals}.

(** [(symbol, ps)] receives the unstuck close of this tick. *)
Definition receives_unstuck (self : Passivbot) (ideal_orders : gmap string (list otuple))
    (symbol : string) (ps : pside) : Prop :=
  ∃ q p, calc_unstucking_close self ideal_orders = Ok (symbol, (q, p, unstuck_tag ps))
         ∧ ¬ q == 0.

(** [we / W > unstuck_threshold] for the position of [(symbol, ps)]. *)
Definition exposure_exceeds (self : Passivbot) (symbol : string) (ps : pside) : Prop :=
  ∃ pos cfg c_mult,
    items_get (positions self) symbol = Some pos
    ∧ live_configs self !! symbol = Some cfg
    ∧ c_mults self !! symbol = Some c_mult
    ∧ unstuck_threshold (at_side cfg ps)
      < pbr_calc_wallet_exposure c_mult (balance self)
          (pos_size (at_side pos ps)) (pos_price (at_side pos ps))
        / wallet_exposure_limit (at_side cfg ps).

(** The trigger as the specification states it. *)
Definition unstuck_trigger_claim (self : Passivbot)
    (ideal_orders : gmap string (list otuple)) : Prop :=
  (∀ symbol ps,
     receives_unstuck self ideal_orders symbol ps ↔ exposure_exceeds self symbol ps)
  ∧ (∀ s1 p1 s2 p2,
       receives_unstuck self ideal_orders s1 p1 →
       receives_unstuck self ideal_orders s2 p2 → s1 = s2 ∧ p1 = p2).

(** [(symbol, ps)] holds a position that the engine counts as stuck:
    its limit is 0, or its exposure ratio exceeds the threshold. *)
Definition counts_as_stuck (self : Passivbot) (symbol : string) (ps : pside) : Prop :=
  has_position self symbol ps = true
  ∧ ∃ pos cfg c_mult,
      items_get (positions self) symbol = Some pos
      ∧ live_configs self !! symbol = Some cfg
      ∧ c_mults self !! symbol = Some c_mult
      ∧ is_stuck
          (pbr_calc_wallet_exposure c_mult (balance self)
             (pos_size (at_side pos ps)) (pos_price (at_side pos ps)))
          (at_side cfg ps) = true.

(** The branch of the second loop proposed nothing for this entry. *)
Definition skipped (self : Passivbot) (ideal_orders : gmap string (list otuple))
    (e : stuck_entry) : Prop :=
  match e.1.2 with
  | long => unstuck_close_long self ideal_orders e.1.1 = Ok None
  | short => unstuck_close_short self ideal_orders e.1.1 = Ok None
  end.

(** [(symbol, ps)] is the first entry of [stuck_positions], in ascending
    order of price gap, that was not skipped. *)
Definition first_not_skipped (self : Passivbot)
    (ideal_orders : gmap string (list otuple)) (symbol : string) (ps : pside) : Prop :=
  ∃ stuck_positions before d after,
    collect_stuck self (positions self).*1 = Ok stuck_positions
    ∧ sorted stuck_leb stuck_positions = before ++ (symbol, ps, d) :: after
    ∧ Forall (skipped self ideal_orders) before.

End Unstucking.

(** An ideal order that carries an unstuck tag, and whether the ideal
    orders of a symbol hold one. *)
Definition is_unstuck_order (o : order) : bool :=
  match custom_id o with
  | Some tag => str_in "unstuck" tag
  | None => false
  end.

Definition holds_unstuck (ideal : gmap string (list order)) (symbol : string) : bool :=
  existsb is_unstuck_order (default [] (ideal !! symbol)).

(** *** Statements about the reconciler *)

(** Two lists of orders hold the same set of keys. *)
Definition same_keys (actual ideal : list order) : Prop :=
  (∀ a, a ∈ actual → ∃ i, i ∈ ideal ∧ keys_eqb a i = true)
  ∧ (∀ i, i ∈ ideal → ∃ a, a ∈ actual ∧ keys_eqb a i = true).

(** The ideal order set equals the actual open-order set on the keys,
    symbol by symbol. *)
Definition same_order_sets (self : Passivbot) (ideal : gmap string (list order)) : Prop :=
  ∀ symbol, symbol ∈ active_symbols self →
    same_keys (actual_orders_of self symbol) (default [] (ideal !! symbol)).

(** An order gets through the mode filters of its symbol: on a side in
    [manual] mode nothing passes, on a side in [tp_only] mode only
    reduce-only orders pass. *)
Definition passes_modes (cfg : sides side_config) (x : order) : Prop :=
  ∀ ps,
    (mode (at_side cfg ps) = manual → position_side x ≠ ps)
    ∧ (mode (at_side cfg ps) = tp_only → position_side x = ps → reduce_only x = true).

(** The sort key of an order in a queue. *)
Definition order_key (self : Passivbot) (x : order) : Q :=
  match tickers self !! symbol x with
  | Some tk => calc_diff (price x) (last tk)
  | None => 0
  end.

(** A queue is in ascending order of the distance to the last price. *)
Definition queue_sorted (self : Passivbot) (l : list order) : Prop :=
  StronglySorted (λ a b, order_key self a <= order_key self b) l.

(** *** Example inputs for the store and the clocks *)

Definition msg_o1 : order_msg :=
  {| msg_id := Some "o1"; msg_symbol := Some "A"; msg_side := buy;
     msg_position_side := long; msg_qty := 1 # 10; msg_price := 99 |}.

(** The store after the first message about order o1. *)
Definition store_o1 : gmap string (list open_order) :=
  (add_new_order ∅ (Some msg_o1)).1.

(** Nine errors, a millisecond apart. *)
Definition nine_errors : list Q := [1; 2; 3; 4; 5; 6; 7; 8; 9].

(** The rule on aborting as the specification states it: the exception
    is raised only when more than [max_n_errors_per_hour] errors, the
    current one included, fall within the last hour. *)
Definition aborts_only_above_max (error_counts : list Q) (now : Q) : Prop :=
  (restart_bot_on_too_many_errors error_counts now).2 = true →
  (max_n_errors_per_hour < errors_in_window error_counts now + 1)%nat.

(** Two runs of the bot that end a little after one and three minutes. *)
Definition run_1 : restart_clock := {| t_append := 61000; t_filter := 61001 |}.
Definition run_2 : restart_clock := {| t_append := 200000; t_filter := 200001 |}.
Definition two_runs : list restart_clock := [run_1; run_2].

(** Two passes on consecutive minute boundaries, each tick taking a second. *)
Definition minute_passes : list pass_clock :=
  [ {| t_start := 60000; t_tick := 60000; t_done := 61000; raised := false |};
    {| t_start := 120000; t_tick := 120000; t_done := 121000; raised := false |} ].

(** A pass at 2:00.000 and the passes that follow it: at 2:59.000, at
    3:30.000 and at 5:00.000. *)
Definition pass_120 : pass_clock :=
  {| t_start := 120000; t_tick := 120000; t_done := 121000; raised := false |}.
Definition later_passes : list pass_clock :=
  [ {| t_start := 179000; t_tick := 179000; t_done := 180000; raised := false |};
    {| t_start := 210000; t_tick := 210000; t_done := 211000; raised := false |};
    {| t_start := 300000; t_tick := 300000; t_done := 301000; raised := false |} ].

(** Passes a minute apart, then a pass one second after the second tick
    has completed. *)
Definition close_passes : list pass_clock :=
  [ {| t_start := 60000; t_tick := 60000; t_done := 61000; raised := false |};
    {| t_start := 120000; t_tick := 120000; t_done := 121000; raised := false |};
    {| t_start := 122000; t_tick := 122000; t_done := 123000; raised := false |} ].

(** The same order fetched twice, and the store a refresh makes of it. *)
Definition oo_twin : open_order :=
  {| oo_symbol := "A"; oo_side := buy; oo_position_side := long;
     oo_qty := 1 # 10; oo_price := 99; oo_id := "t1" |}.
Definition store_twice : gmap string (list open_order) :=
  update_open_orders [oo_twin; oo_twin].

(** A store after a refresh that fetched two orders with different ids,
    a message about a third order on symbol A, and an empty message. *)
Definition oo_a7 : open_order :=
  {| oo_symbol := "A"; oo_side := sell; oo_position_side := long;
     oo_qty := 2 # 10; oo_price := 101; oo_id := "a7" |}.
Definition oo_b3 : open_order :=
  {| oo_symbol := "B"; oo_side := buy; oo_position_side := long;
     oo_qty := 1; oo_price := 7; oo_id := "b3" |}.
Definition store_AB : gmap string (list open_order) :=
  (add_new_order (add_new_order (update_open_orders [oo_a7; oo_b3]) (Some msg_o1)).1
                 None).1.

(** *** Websocket handler of order updates *)

(** An element of [upd_list]: the order message with its ["status"] and
    ["filled"] entries; [None] stands for a missing key, for ["filled"]
    also for the value [None]. *)
Record order_update := {
  upd_status : option string;
  upd_filled : option Q;
  upd_order : order_msg
}.

(** [handle_order_update(upd_list)]: the new store and the new
    [self.recent_fill].  The [try] encloses the whole loop, so the first
    exception ends it: a missing ["status"], or, where the fill is
    logged, a symbol that is missing or [None]. *)
Fixpoint handle_order_update (store : gmap string (list open_order)) (recent_fill : bool)
    (upd_list : list order_update) : gmap string (list open_order) * bool :=
  match upd_list with
  | [] => (store, recent_fill)
  | upd :: rest =>
      match upd_status upd with
      | None => (store, recent_fill)
      | Some status =>
          if String.eqb status "closed"
             || match upd_filled upd with
                | Some filled => Qlt_bool 0 filled
                | None => false
                end
          then
            match msg_symbol (upd_order upd) with
            | None => (store, recent_fill)
            | Some _ => handle_order_update store true rest
            end
          else if bool_decide (status ∈ ["canceled"; "expired"; "rejected"])
          then handle_order_update
                 (remove_cancelled_order store (Some (upd_order upd))).1 recent_fill rest
          else if String.eqb status "open"
          then handle_order_update
                 (add_new_order store (Some (upd_order upd))).1 recent_fill rest
          else handle_order_update store recent_fill rest
      end
  end.

(** *** maintain_thing *)

(** One pass of the loop of [maintain_thing]: the clock as the guard
    reads it ([m_check]) and, if the guard holds, as the assignment to
    [self.last_update_timestamps[function_name]] reads it ([m_stamp]). *)
Record maintain_clock := { m_check : Q; m_stamp : Q }.

(** The [while True] loop of [maintain_thing] over a sequence of passes:
    the values of [last_update_timestamps[function_name]] at which the
    update function is called.  An exception of the update function is
    caught inside the loop, after the timestamp has been set. *)
Fixpoint maintain_thing (update_interval last_update_timestamp : Q)
    (clock : list maintain_clock) : list Q :=
  match clock with
  | [] => []
  | c :: rest =>
      if Qlt_bool update_interval (m_check c - last_update_timestamp)
      then m_stamp c :: maintain_thing update_interval (m_stamp c) rest
      else maintain_thing update_interval last_update_timestamp rest
  end.

(** *** format_custom_ids *)

(** [s[:n]] on a string. *)
Definition str_slice_to (n : Z) (s : string) : string :=
  String.string_of_list_ascii (slice_to n (String.list_ascii_of_string s)).

(** [format_custom_ids(orders)].  [shorten_custom_id] belongs to
    [pure_funcs], which is not among the sources, and is a parameter;
    [uuid4_hex i] is the value of [uuid4().hex] in the iteration for the
    order at index [i]. *)
Definition format_custom_ids (shorten_custom_id : string → string)
    (uuid4_hex : nat → string) (custom_id_max_length : Z) (orders : list order)
  : list order :=
  imap (λ i order,
          {| symbol := symbol order; side := side order;
             position_side := position_side order; qty := qty order;
             price := price order; reduce_only := reduce_only order; id := id order;
             custom_id :=
               Some (str_slice_to custom_id_max_length
                       (shorten_custom_id (default "" (custom_id order))
                        +:+ uuid4_hex i)%string) |})
       orders.

(** [self.custom_id_max_length] of [__init__] *)
Definition custom_id_max_length : Z := 36.

(** *** Dicts in insertion order *)

(** [d[k] = v] on a dict held as the list of its items in insertion
    order: a key that is present keeps its place and takes the value. *)
Fixpoint dict_set {K V : Type} (eqb : K → K → bool) (k : K) (v : V)
    (d : list (K * V)) : list (K * V) :=
  match d with
  | [] => [(k, v)]
  | (k', v') :: rest =>
      if eqb k' k then (k', v) :: rest else (k', v') :: dict_set eqb k v rest
  end.

(** [{key(x): x for x in l}] *)
Definition dict_comp {K V : Type} (eqb : K → K → bool) (key : V → K) (l : list V)
  : list (K * V) :=
  foldl (λ d x, dict_set eqb (key x) x d) [] l.

(** [d.update(d2)] *)
Definition dict_update {K V : Type} (eqb : K → K → bool) (d d2 : list (K * V))
  : list (K * V) :=
  foldl (λ d kv, dict_set eqb kv.1 kv.2 d) d d2.

(** No two items of a dict have equal keys. *)
Definition keys_distinct {K V : Type} (eqb : K → K → bool) (d : list (K * V)) : Prop :=
  StronglySorted (λ a b, eqb a.1 b.1 = false) d.

(** *** One-minute candles *)

(** A candle [[timestamp, high, low, close]] of [self.hlcs_1m[symbol]]. *)
Record hlc := { hlc_ts : Q; hlc_high : Q; hlc_low : Q; hlc_close : Q }.

(** [key=lambda x: x[0]] *)
Definition hlc_leb (a b : hlc) : bool := Qle_bool (hlc_ts a) (hlc_ts b).

(** [update_hlcs_1m_single(symbol, since)]: the new
    [self.hlcs_1m[symbol]], given the stored entry ([None] when the
    symbol is no key), the candles that [fetch_hlcs_1m] returns and
    [since], for which [update_hlcs_1m] passes a number. *)
Definition update_hlcs_1m_single (stored : option (list hlc)) (candles : list hlc)
    (since : Q) : list hlc :=
  let stored := default [] stored in
  let all_candles_d := dict_comp Qeq_bool hlc_ts stored in
  let all_candles_d :=
    dict_update Qeq_bool all_candles_d (dict_comp Qeq_bool hlc_ts candles) in
  let hlcs := sorted hlc_leb all_candles_d.*2 in
  List.filter (λ x, Qle_bool (since - 1000 * 60 * 60 * 3) (hlc_ts x)) hlcs.

(** *** The ledger of realized PnL *)

(** [key=lambda x: x["timestamp"]] *)
Definition fill_leb (a b : pnl_fill) : bool :=
  Qle_bool (fill_timestamp a) (fill_timestamp b).

(** [sorted({elm["id"]: elm for elm in l if keep(elm)}.values(),
    key=lambda x: x["timestamp"])] *)
Definition dedupe_sorted (keep : pnl_fill → bool) (l : list pnl_fill) : list pnl_fill :=
  sorted fill_leb (dict_comp String.eqb fill_id (List.filter keep l)).*2.

(** [age_limit] of [update_pnls], from the first reading of the clock. *)
Definition age_limit (now pnls_max_lookback_days : Q) : Q :=
  now - 1000 * 60 * 60 * 24 * pnls_max_lookback_days.

(** [update_pnls]: the new [self.pnls] and the return value.  The clock
    is read for [age_limit] ([now_age]) and for the guard ([now_guard]);
    [pnls_cache] is what the cache file yields ([[]] when it is missing
    or unreadable); [fetched_missing] and [fetched] are the results of
    the two calls of [fetch_pnls], [None] for [None] or [False].  In the
    [else] branch a failed fetch is iterated over, which raises. *)
Definition update_pnls (pnls : list pnl_fill)
    (pnls_max_lookback_days upd_timestamp now_age now_guard : Q)
    (pnls_cache : list pnl_fill) (fetched_missing fetched : option (list pnl_fill))
  : result (list pnl_fill * bool) :=
  let age_limit := age_limit now_age pnls_max_lookback_days in
  let merge (pnls res : list pnl_fill) : list pnl_fill :=
    let new_pnls :=
      List.filter (λ x, negb (bool_decide (fill_id x ∈ fill_id <$> pnls))) res in
    dedupe_sorted (λ elm, Qlt_bool age_limit (fill_timestamp elm)) (pnls ++ new_pnls) in
  if Qlt_bool (1000 * 60 * 5) (now_guard - upd_timestamp) then
    let loaded : option (list pnl_fill) :=
      match pnls with
      | _ :: _ => Some pnls
      | [] =>
          match pnls_cache with
          | [] => Some []
          | first :: _ =>
              if Qlt_bool (age_limit + 1000 * 60 * 60 * 4) (fill_timestamp first) then
                match fetched_missing with
                | None => None
                | Some missing_pnls =>
                    Some (dedupe_sorted (λ elm, Qle_bool age_limit (fill_timestamp elm))
                            (pnls_cache ++ missing_pnls))
                end
              else Some pnls_cache
          end
      end in
    match loaded with
    | None => Ok (pnls, false)
    | Some pnls =>
        match fetched with
        | None => Ok (pnls, false)
        | Some res => Ok (merge pnls res, true)
        end
    end
  else
    match fetched with
    | None => Raise TypeError
    | Some res => Ok (merge pnls res, true)
    end.

(** *** Trailing data *)

(** A float that may be [np.inf]. *)
Inductive xfloat := finite (q : Q) | inf.

(** [x < y] and [min(y, x)] for a float [x] and a [y] that may be
    [np.inf]. *)
Definition xlt (x : Q) (y : xfloat) : bool :=
  match y with
  | inf => true
  | finite m => Qlt_bool x m
  end.

Definition xmin (y : xfloat) (x : Q) : xfloat :=
  match y with
  | inf => finite x
  | finite m => finite (py_min m x)
  end.

(** [self.trailing_prices[symbol][pside]] as [update_trailing_data]
    writes it. *)
Record trailing_data := {
  td_max_since_open : Q;
  td_min_since_max : xfloat;
  td_min_since_open : xfloat;
  td_max_since_min : Q
}.

(** The values every entry is reset to. *)
Definition trailing_reset : trailing_data :=
  {| td_max_since_open := 0; td_min_since_max := inf;
     td_min_since_open := inf; td_max_since_min := 0 |}.

(** The body of [for x in self.hlcs_1m[symbol]]. *)
Definition trailing_step (last_position_change : Q) (t : trailing_data) (x : hlc)
  : trailing_data :=
  if Qle_bool (hlc_ts x) last_position_change then t
  else
    let t :=
      if Qlt_bool (td_max_since_open t) (hlc_high x)
      then {| td_max_since_open := hlc_high x;
              td_min_since_max := finite (hlc_close x);
              td_min_since_open := td_min_since_open t;
              td_max_since_min := td_max_since_min t |}
      else {| td_max_since_open := td_max_since_open t;
              td_min_since_max := xmin (td_min_since_max t) (hlc_low x);
              td_min_since_open := td_min_since_open t;
              td_max_since_min := td_max_since_min t |} in
    if xlt (hlc_low x) (td_min_since_open t)
    then {| td_max_since_open := td_max_since_open t;
            td_min_since_max := td_min_since_max t;
            td_min_since_open := finite (hlc_low x);
            td_max_since_min := hlc_close x |}
    else {| td_max_since_open := td_max_since_open t;
            td_min_since_max := td_min_since_max t;
            td_min_since_open := td_min_since_open t;
            td_max_since_min := py_max (td_max_since_min t) (hlc_high x) |}.

(** The entry of one symbol and side: reset, then, if the side has a
    last position change and the symbol has candles, the loop. *)
Definition trailing_of (hlcs : option (list hlc)) (last_position_change : option Q)
  : trailing_data :=
  match last_position_change, hlcs with
  | Some t, Some candles => foldl (trailing_step t) trailing_reset candles
  | _, _ => trailing_reset
  end.

(** [update_trailing_data], given the result of
    [get_last_position_changes]: per symbol, the sides that have an
    entry ([None] for a side without one). *)
Definition update_trailing_data (trailing_prices : gmap string (sides trailing_data))
    (last_position_changes : gmap string (sides (option Q)))
    (active_symbols : list string) (hlcs_1m : gmap string (list hlc))
  : gmap string (sides trailing_data) :=
  let symbols : gset string :=
    dom trailing_prices ∪ dom last_position_changes ∪ list_to_set active_symbols in
  set_to_map
    (λ symbol,
       (symbol,
        {| on_long :=
             trailing_of (hlcs_1m !! symbol)
               (last_position_changes !! symbol ≫= on_long);
           on_short :=
             trailing_of (hlcs_1m !! symbol)
               (last_position_changes !! symbol ≫= on_short) |}))
    symbols.

(** Example input: a long of A that last changed at 100, and three
    candles, the first of them older than the change. *)
Definition changes_A : gmap string (sides (option Q)) :=
  {[ "A" := {| on_long := Some 100; on_short := None |} ]}.

Definition candles_A : list hlc :=
  [ {| hlc_ts := 90; hlc_high := 50; hlc_low := 40; hlc_close := 45 |};
    {| hlc_ts := 160; hlc_high := 12; hlc_low := 9; hlc_close := 10 |};
    {| hlc_ts := 220; hlc_high := 11; hlc_low := 8; hlc_close := 10 |} ].

Definition hlcs_A : gmap string (list hlc) := {[ "A" := candles_A ]}.

(** [y <= x] for a [y] that may be [np.inf]. *)
Definition xle (y : xfloat) (x : Q) : Prop :=
  match y with
  | inf => False
  | finite m => m <= x
  end.

(** *** exchanges/bitget.py: the side of a fetched order *)

(** [order["info"]], with [None] for a missing key. *)
Record order_info := {
  tradeSide : option string;
  reduceOnly : option string;
  posSide : option string
}.

(** [determine_side(order)]; [None] when it raises. *)
Definition determine_side (info : option order_info) : option order_side :=
  match info with
  | Some i =>
      match tradeSide i, reduceOnly i, posSide i with
      | Some ts, Some _, Some ps =>
          if String.eqb ts "close" then
            if String.eqb ps "long" then Some sell
            else if String.eqb ps "short" then Some buy
            else None
          else if String.eqb ts "open" then
            if String.eqb ps "long" then Some buy
            else if String.eqb ps "short" then Some sell
            else None
          else None
      | _, _, _ => None
      end
  | None => None
  end.

(** *** exchanges/bitget.py: fetch_open_orders *)

(** An open order as the exchange library returns it: the entries that
    [fetch_open_orders] reads or that the engine reads later. *)
Record fetched_order := {
  fo_info : option order_info;
  fo_symbol : string;
  fo_amount : Q;
  fo_price : Q;
  fo_id : string;
  fo_timestamp : Q
}.

(** The position side of the engine for the string of the exchange. *)
Definition pside_of_str (s : string) : option pside :=
  if String.eqb s "long" then Some long
  else if String.eqb s "short" then Some short
  else None.

(** The body of the loop of [fetch_open_orders] for one order, with its
    timestamp; [None] when it raises.  [position_side] is
    [info["posSide"]], [qty] is [amount], [side] is [determine_side]. *)
Definition convert_fetched (o : fetched_order) : option (Q * open_order) :=
  match fo_info o with
  | None => None
  | Some i =>
      match posSide i with
      | None => None
      | Some pos_side =>
          match determine_side (fo_info o), pside_of_str pos_side with
          | Some sd, Some ps =>
              Some (fo_timestamp o,
                    {| oo_symbol := fo_symbol o; oo_side := sd; oo_position_side := ps;
                       oo_qty := fo_amount o; oo_price := fo_price o; oo_id := fo_id o |})
          | _, _ => None
          end
      end
  end.

(** [fetch_open_orders()], given what the exchange library returns;
    [None] when the [except] clause returns [False]. *)
Definition fetch_open_orders (fetched : list fetched_order) : option (list open_order) :=
  match mapM convert_fetched fetched with
  | Some l => Some (sorted_by_key l)
  | None => None
  end.

(** Example input: a close of a long and an open of a short. *)
Definition fetched_AB : list fetched_order :=
  [ {| fo_info := Some {| tradeSide := Some "close"; reduceOnly := Some "YES";
                          posSide := Some "long" |};
       fo_symbol := "A"; fo_amount := 1; fo_price := 102; fo_id := "c1";
       fo_timestamp := 20 |};
    {| fo_info := Some {| tradeSide := Some "open"; reduceOnly := Some "NO";
                          posSide := Some "short" |};
       fo_symbol := "B"; fo_amount := 2; fo_price := 55; fo_id := "e7";
       fo_timestamp := 10 |} ].

(** *** The tail of execute_to_exchange *)

(** The results of the cancellations, then of the creations, are
    recorded in the store: [for elm in res:
    self.remove_cancelled_order(elm, source="POST")] and [for elm in res:
    self.add_new_order(elm, source="POST")].  A result is [None] when it
    is falsy (the [{}] of a failed request). *)
Definition record_executions (store : gmap string (list open_order))
    (cancelled created : list (option order_msg)) : gmap string (list open_order) :=
  foldl (λ store elm, (add_new_order store elm).1)
        (foldl (λ store elm, (remove_cancelled_order store elm).1) store cancelled)
        created.

End Forager.

(** * Properties *)

(** ** Rounding (jitted.py) *)

Section Rounding.
Import Jitted64.

(** The integral roundings at a few arguments, ties and signed zeros
    among them. *)
Lemma np_integral_values :
  np_floor 323.99999999999994 = 323%float
  ∧ np_floor (-0.5) = (-1)%float
  ∧ np_ceil 7.000000000000001 = 8%float
  ∧ np_ceil (-0.5) = (-0)%float
  ∧ np_rint 0.5 = 0%float ∧ np_rint 1.5 = 2%float ∧ np_rint 2.5 = 2%float
  ∧ np_rint (-2.5) = (-2)%float
  ∧ np_round 0.30000000000000004 10 = 0.3%float.
Proof. repeat split; reflexivity. Qed.




End Rounding.

(** C9: the code breaks the rounding law at ordinary arguments.  In
    binary64 [32.4 / 0.1] is [323.99999999999994], so that
    [round_dn(32.4, 0.1)] is [32.3], more than one step below [32.4],
    which is the multiple [324 * 0.1] itself; [round_up(1.11, 0.01)] is
    [1.12], more than one step above [1.11 = 111 * 0.01]; and
    [round_up(0.7000000000000001, 0.1)] is [0.7], below its argument
    [7 * 0.1].  The rounding to ten decimals comes after the floor or
    ceiling and does not repair the quotient. *)
Theorem rounding_law_float64 :
  (Jitted64.round_dn 32.4 0.1 = Some 32.3%float
   ∧ (324 * 0.1 = 32.4)%float
   ∧ ¬ Jitted64.within_step 0.1 32.4 32.3
   ∧ ¬ Jitted64.rounding_law 0.1 32.4)
  ∧ (Jitted64.round_up 1.11 0.01 = Some 1.12%float
     ∧ (111 * 0.01 = 1.11)%float
     ∧ ¬ Jitted64.within_step 0.01 1.11 1.12
     ∧ ¬ Jitted64.rounding_law 0.01 1.11)
  ∧ (Jitted64.round_up 0.7000000000000001 0.1 = Some 0.7%float
     ∧ (7 * 0.1 = 0.7000000000000001)%float
     ∧ (0.7000000000000001 <=? 0.7)%float = false
     ∧ ¬ Jitted64.rounding_law 0.1 0.7000000000000001).
Proof.
  assert (H1 : ¬ Jitted64.within_step 0.1 32.4 32.3).
  { intros (s & qx & qr & Hs & Hx & Hr & Hle).
    vm_compute in Hs, Hx, Hr.
    injection Hs as <-. injection Hx as <-. injection Hr as <-.
    vm_compute in Hle. now apply Hle. }
  assert (H2 : ¬ Jitted64.within_step 0.01 1.11 1.12).
  { intros (s & qx & qr & Hs & Hx & Hr & Hle).
    vm_compute in Hs, Hx, Hr.
    injection Hs as <-. injection Hx as <-. injection Hr as <-.
    vm_compute in Hle. now apply Hle. }
  split; [|split].
  - split; [reflexivity|]. split; [reflexivity|]. split; [exact H1|].
    intros (up & dn & nearest & _ & Hdn & _ & _ & (_ & Hw & _) & _).
    vm_compute in Hdn. injection Hdn as <-. exact (H1 Hw).
  - split; [reflexivity|]. split; [reflexivity|]. split; [exact H2|].
    intros (up & dn & nearest & Hup & _ & _ & _ & (Hw & _ & _) & _).
    vm_compute in Hup. injection Hup as <-. exact (H2 Hw).
  - split; [reflexivity|]. split; [reflexivity|]. split; [reflexivity|].
    intros (up & dn & nearest & Hup & _ & _ & _ & _ & _ & Hle).
    vm_compute in Hup. injection Hup as <-.
    vm_compute in Hle. discriminate.
Qed.

(** ** Minimum entry quantity (jitted.py) *)




(** ** The open-order store (passivbot_forager.py) *)

Section Store.
Import Forager.

Lemma elem_of_filter_bool {A : Type} (p : A → bool) (l : list A) (x : A) :
  x ∈ List.filter p l ↔ x ∈ l ∧ p x = true.
Proof. rewrite !list_elem_of_In. apply filter_In. Qed.

Lemma ids_of_filter_subset (p : open_order → bool) (l : list open_order) (i : string) :
  i ∈ ids_of (List.filter p l) → i ∈ ids_of l.
Proof.
  unfold ids_of. rewrite !list_elem_of_fmap.
  intros (x & -> & Hx). apply elem_of_filter_bool in Hx as [Hx _]. eauto.
Qed.

Lemma NoDup_ids_filter (p : open_order → bool) (l : list open_order) :
  NoDup (ids_of l) → NoDup (ids_of (List.filter p l)).
Proof.
  induction l as [|x l IH]; simpl; [done|].
  intros [Hx Hl]%NoDup_cons. destruct (p x); simpl; [|by apply IH].
  apply NoDup_cons. split; [|by apply IH].
  intros Hin. apply Hx. by eapply ids_of_filter_subset.
Qed.

Lemma NoDup_ids_snoc (l : list open_order) (x : open_order) :
  NoDup (ids_of l) → oo_id x ∉ ids_of l → NoDup (ids_of (l ++ [x])).
Proof.
  intros Hl Hx. unfold ids_of. rewrite fmap_app. apply NoDup_app.
  split; [done|]. split; [|apply NoDup_singleton].
  intros i Hi [->|[]%elem_of_nil]%elem_of_cons. by apply Hx.
Qed.

Lemma ensure_symbol_lookup (store : gmap string (list open_order)) (sym sym' : string)
    (l : list open_order) :
  ensure_symbol store sym !! sym' = Some l → store !! sym' = Some l ∨ l = [].
Proof.
  unfold ensure_symbol. destruct (store !! sym) eqn:E; [by left|].
  destruct (decide (sym = sym')) as [->|Hne].
  - rewrite lookup_insert_eq. intros [= <-]. by right.
  - rewrite lookup_insert_ne by done. by left.
Qed.

Lemma ensure_symbol_is_Some (store : gmap string (list open_order)) (sym : string) :
  is_Some (ensure_symbol store sym !! sym).
Proof.
  unfold ensure_symbol. destruct (store !! sym) eqn:E; [by rewrite E|].
  by rewrite lookup_insert_eq.
Qed.

Lemma ensure_symbol_present (store : gmap string (list open_order)) (sym : string) :
  is_Some (store !! sym) → ensure_symbol store sym = store.
Proof. intros [l Hl]. unfold ensure_symbol. by rewrite Hl. Qed.

Lemma unique_ids_ensure store sym : unique_ids store → unique_ids (ensure_symbol store sym).
Proof.
  intros H sym' l [Hl| ->]%ensure_symbol_lookup; [by eapply H | constructor].
Qed.

Lemma well_keyed_ensure store sym : well_keyed store → well_keyed (ensure_symbol store sym).
Proof.
  intros H sym' l x [Hl| ->]%ensure_symbol_lookup Hx; [by eapply H|].
  by apply elem_of_nil in Hx.
Qed.

Lemma unique_ids_insert store sym l :
  unique_ids store → NoDup (ids_of l) → unique_ids (<[sym := l]> store).
Proof.
  intros H Hl sym' l'. destruct (decide (sym = sym')) as [->|Hne].
  - rewrite lookup_insert_eq. by intros [= <-].
  - rewrite lookup_insert_ne by done. apply H.
Qed.

Lemma well_keyed_insert store sym l :
  well_keyed store → (∀ x, x ∈ l → oo_symbol x = sym) → well_keyed (<[sym := l]> store).
Proof.
  intros H Hl sym' l' x. destruct (decide (sym = sym')) as [->|Hne].
  - rewrite lookup_insert_eq. intros [= <-]. apply Hl.
  - rewrite lookup_insert_ne by done. apply H.
Qed.

Lemma lookup_default_unique store sym :
  unique_ids store → NoDup (ids_of (default [] (store !! sym))).
Proof.
  intros H. destruct (store !! sym) eqn:E; simpl; [by eapply H | constructor].
Qed.

Lemma lookup_default_keyed store sym x :
  well_keyed store → x ∈ default [] (store !! sym) → oo_symbol x = sym.
Proof.
  intros H. destruct (store !! sym) eqn:E; simpl; [by eapply H|].
  by intros ?%elem_of_nil.
Qed.

Lemma unique_ids_add store order : unique_ids store → unique_ids (add_new_order store order).1.
Proof.
  intros H. unfold add_new_order.
  destruct order as [o|]; [|done].
  destruct (msg_id o) as [oid|]; [|done].
  destruct (msg_symbol o) as [sym|]; [|done].
  pose proof (unique_ids_ensure store sym H) as He.
  case_bool_decide as Hin; simpl; [|done].
  apply unique_ids_insert; [done|].
  apply NoDup_ids_snoc; [by apply lookup_default_unique | done].
Qed.

Lemma well_keyed_add store order : well_keyed store → well_keyed (add_new_order store order).1.
Proof.
  intros H. unfold add_new_order.
  destruct order as [o|]; [|done].
  destruct (msg_id o) as [oid|]; [|done].
  destruct (msg_symbol o) as [sym|]; [|done].
  pose proof (well_keyed_ensure store sym H) as He.
  case_bool_decide as Hin; simpl; [|done].
  apply well_keyed_insert; [done|].
  intros x [Hx|Hx]%elem_of_app; [by eapply lookup_default_keyed|].
  apply list_elem_of_singleton in Hx as ->. done.
Qed.

Lemma unique_ids_remove store order :
  unique_ids store → unique_ids (remove_cancelled_order store order).1.
Proof.
  intros H. unfold remove_cancelled_order.
  destruct order as [o|]; [|done].
  destruct (msg_id o) as [oid|]; [|done].
  destruct (msg_symbol o) as [sym|]; [|done].
  pose proof (unique_ids_ensure store sym H) as He.
  case_bool_decide as Hin; simpl; [|done].
  apply unique_ids_insert; [done|].
  by apply NoDup_ids_filter, lookup_default_unique.
Qed.

Lemma well_keyed_remove store order :
  well_keyed store → well_keyed (remove_cancelled_order store order).1.
Proof.
  intros H. unfold remove_cancelled_order.
  destruct order as [o|]; [|done].
  destruct (msg_id o) as [oid|]; [|done].
  destruct (msg_symbol o) as [sym|]; [|done].
  pose proof (well_keyed_ensure store sym H) as He.
  case_bool_decide as Hin; simpl; [|done].
  apply well_keyed_insert; [done|].
  intros x [Hx _]%elem_of_filter_bool. by eapply lookup_default_keyed.
Qed.

(** The refresh, from any store whose ids are all different from the
    ids still to be filed. *)
Lemma refresh_invariant (fetched : list open_order) :
  ∀ store,
    unique_ids store → well_keyed store →
    (∀ sym l i, store !! sym = Some l → i ∈ ids_of l → i ∉ ids_of fetched) →
    NoDup (ids_of fetched) →
    let store' :=
      foldl (λ store elm,
               <[oo_symbol elm := default [] (store !! oo_symbol elm) ++ [elm]]> store)
            store fetched in
    unique_ids store' ∧ well_keyed store'.
Proof.
  induction fetched as [|elm fetched IH]; intros store Hu Hk Hfresh Hnd; simpl; [done|].
  simpl in Hnd. apply NoDup_cons in Hnd as [Helm Hnd].
  assert (Hnew : oo_id elm ∉ ids_of (default [] (store !! oo_symbol elm))).
  { destruct (store !! oo_symbol elm) as [l|] eqn:E; simpl; [|apply not_elem_of_nil].
    intros Hin. apply (Hfresh _ _ _ E Hin). simpl. left. }
  apply IH; [| | |done].
  - apply unique_ids_insert; [done|].
    apply NoDup_ids_snoc; [by apply lookup_default_unique | done].
  - apply well_keyed_insert; [done|].
    intros x [Hx|Hx]%elem_of_app; [by eapply lookup_default_keyed|].
    by apply list_elem_of_singleton in Hx as ->.
  - intros sym l i. destruct (decide (oo_symbol elm = sym)) as [<-|Hne].
    + rewrite lookup_insert_eq. intros [= <-].
      unfold ids_of at 1. rewrite fmap_app, elem_of_app.
      intros [Hi|Hi].
      * destruct (store !! oo_symbol elm) as [l|] eqn:E; simpl in Hi;
          [|by apply elem_of_nil in Hi].
        intros Hin. apply (Hfresh _ _ _ E Hi). simpl. by right.
      * simpl in Hi. apply list_elem_of_singleton in Hi as ->. done.
    + rewrite lookup_insert_ne by done. intros Hl Hi Hin.
      apply (Hfresh _ _ _ Hl Hi). simpl. by right.
Qed.

Lemma unique_ids_empty : unique_ids ∅.
Proof. intros sym l; by rewrite lookup_empty. Qed.

Lemma well_keyed_empty : well_keyed ∅.
Proof. intros sym l x; by rewrite lookup_empty. Qed.

(** The refresh files every order under its own symbol, whatever was
    fetched. *)
Lemma refresh_well_keyed (fetched : list open_order) :
  ∀ store,
    well_keyed store →
    well_keyed
      (foldl (λ store elm,
                <[oo_symbol elm := default [] (store !! oo_symbol elm) ++ [elm]]> store)
             store fetched).
Proof.
  induction fetched as [|elm fetched IH]; intros store Hk; simpl; [done|].
  apply IH. apply well_keyed_insert; [done|].
  intros x [Hx|Hx]%elem_of_app; [by eapply lookup_default_keyed|].
  by apply list_elem_of_singleton in Hx as ->.
Qed.

(** Every store the bot can hold files each order under its own symbol. *)
Lemma reachable_well_keyed (fetches : list open_order → Prop) store :
  reachable_with fetches store → well_keyed store.
Proof.
  induction 1 as [|store order _ IH|store order _ IH|store sym _ IH|fetched _].
  - apply well_keyed_empty.
  - by apply well_keyed_add.
  - by apply well_keyed_remove.
  - by apply well_keyed_ensure.
  - apply refresh_well_keyed, well_keyed_empty.
Qed.

(** As long as every fetch carries pairwise distinct ids, no list of the
    store holds an id twice. *)
Lemma reachable_invariant store :
  reachable_with distinct_ids store → unique_ids store ∧ well_keyed store.
Proof.
  induction 1 as [|store order _ [IHu IHk]|store order _ [IHu IHk]
                  |store sym _ [IHu IHk]|fetched Hnd].
  - split; [apply unique_ids_empty | apply well_keyed_empty].
  - split; [by apply unique_ids_add | by apply well_keyed_add].
  - split; [by apply unique_ids_remove | by apply well_keyed_remove].
  - split; [by apply unique_ids_ensure | by apply well_keyed_ensure].
  - apply refresh_invariant; [| | |done].
    + apply unique_ids_empty.
    + apply well_keyed_empty.
    + intros sym l i; by rewrite lookup_empty.
Qed.

End Store.

(** C10 (as amended): for every order and every store the bot can hold,
    if an order with the same id is already recorded under the order's
    symbol, [add_new_order] leaves the store unchanged and reports no
    creation (it returns [None]); consequently, as long as every list
    fetched from the exchange carries pairwise distinct ids, no
    symbol's list holds two orders with the same id, whatever messages,
    mode updates and refreshes the store went through. *)
Theorem add_new_order_no_duplicates (store : gmap string (list Forager.open_order)) :
  (∀ (o : Forager.order_msg) (oid sym : string) (l : list Forager.open_order),
      Forager.msg_id o = Some oid → Forager.msg_symbol o = Some sym →
      store !! sym = Some l → oid ∈ Forager.ids_of l →
      Forager.add_new_order store (Some o) = (store, Forager.ret_None))
  ∧ (Forager.reachable_with Forager.distinct_ids store →
     ∀ sym l, store !! sym = Some l → NoDup (Forager.ids_of l)).
Proof.
  split.
  - intros o oid sym l Hid Hsym Hl Hin. unfold Forager.add_new_order.
    rewrite Hid, Hsym, ensure_symbol_present by (by rewrite Hl).
    rewrite Hl. simpl. case_bool_decide; [done|reflexivity].
  - intros Hr. by apply reachable_invariant.
Qed.

Lemma add_new_order_no_duplicates_witness :
  Forager.reachable_with Forager.distinct_ids Forager.store_AB
  ∧ Forager.add_new_order Forager.store_AB (Some Forager.msg_o1)
    = (Forager.store_AB, Forager.ret_None)
  ∧ (∀ sym l, Forager.store_AB !! sym = Some l → NoDup (Forager.ids_of l)).
Proof.
  assert (Hr : Forager.reachable_with Forager.distinct_ids Forager.store_AB).
  { unfold Forager.store_AB.
    apply Forager.reach_add, Forager.reach_add, Forager.reach_refresh.
    unfold Forager.distinct_ids. simpl.
    apply NoDup_cons. split; [|apply NoDup_singleton].
    intros Hin%list_elem_of_singleton. discriminate. }
  split; [exact Hr|].
  destruct (add_new_order_no_duplicates Forager.store_AB) as [Hadd Huniq].
  split; [|exact (Huniq Hr)].
  apply (Hadd Forager.msg_o1 "o1" "A"
           [Forager.oo_a7; Forager.open_order_of_msg Forager.msg_o1 "o1" "A"]);
    [reflexivity | reflexivity | reflexivity | ].
  simpl. apply elem_of_cons. right. apply list_elem_of_singleton. reflexivity.
Defined.

(** C10 (as stated) fails after a refresh: [update_open_orders] files
    the fetched orders as they come, so an order that the exchange
    lists twice is held twice under its symbol. *)
Lemma add_new_order_no_duplicates_counterexample :
  Forager.reachable Forager.store_twice
  ∧ Forager.store_twice !! "A" = Some [Forager.oo_twin; Forager.oo_twin]
  ∧ ¬ Forager.unique_ids Forager.store_twice.
Proof.
  split; [apply Forager.reach_refresh; exact I|].
  split; [reflexivity|].
  intros H. specialize (H "A" [Forager.oo_twin; Forager.oo_twin] eq_refl).
  simpl in H. apply NoDup_cons in H as [H _]. apply H. left.
Qed.

(** ** Execution loops and restart policy (passivbot_forager.py) *)

Section Clock.
Import Forager.

Lemma Qlt_bool_iff (a b : Q) : Qlt_bool a b = true ↔ a < b.
Proof.
  unfold Qlt_bool. rewrite negb_true_iff, <- not_true_iff_false, Qle_bool_iff.
  split; [apply Qnot_le_lt | apply Qlt_not_le].
Qed.

Lemma Qlt_bool_false_iff (a b : Q) : Qlt_bool a b = false ↔ b <= a.
Proof.
  unfold Qlt_bool. rewrite negb_false_iff. apply Qle_bool_iff.
Qed.

Lemma execution_loop_spaced (d : Q) (clock : list pass_clock) :
  ∀ prev, starts_after d prev (execution_loop d prev clock)
          ∧ spaced (execution_delay_millis d) (execution_loop d prev clock).
Proof.
  induction clock as [|c rest IH]; intros prev; simpl; [done|].
  destruct (execution_loop_calls d prev (t_start c)
            && negb (execute_to_exchange_old_skips d prev (t_tick c))) eqn:E.
  - apply andb_true_iff in E as [_ E]. apply negb_true_iff in E.
    unfold execute_to_exchange_old_skips in E. apply Qlt_bool_false_iff in E.
    split; [simpl; lra|].
    destruct (raised c); [simpl; done|].
    destruct (IH (t_done c)) as [Hs Hr].
    simpl. split; [|exact Hr].
    destruct (execution_loop d (t_done c) rest) as [|t2 ?]; [done|].
    simpl in Hs |- *. exact Hs.
  - apply IH.
Qed.

(** A pass whose tick would begin less than the delay after the previous
    completion runs no tick. *)
Lemma execution_loop_skips (d prev : Q) (c : pass_clock) (rest : list pass_clock) :
  t_tick c - prev < execution_delay_millis d →
  execution_loop d prev (c :: rest) = execution_loop d prev rest.
Proof.
  intros Hlt. cbn [execution_loop].
  assert (E : execute_to_exchange_old_skips d prev (t_tick c) = true).
  { unfold execute_to_exchange_old_skips. apply Qlt_bool_iff. lra. }
  rewrite E. cbn [negb]. by rewrite andb_false_r.
Qed.

Lemma run_execution_loop_pass_fires (prev_minute : Z) (now : Q) :
  (run_execution_loop_pass prev_minute now).2 = true ↔ minute_of now ≠ prev_minute.
Proof.
  unfold run_execution_loop_pass.
  destruct (Z.eqb_spec (minute_of now) prev_minute) as [E|E]; simpl; split;
    congruence.
Qed.

Lemma within_day_app tf l1 l2 : within_day tf (l1 ++ l2) = within_day tf l1 ++ within_day tf l2.
Proof. apply List.filter_app. Qed.

Lemma within_day_later (tf tf' : Q) (l : list Q) :
  tf <= tf' → within_day tf' (within_day tf l) = within_day tf' l.
Proof.
  intros Hle. unfold within_day. induction l as [|x l IH]; simpl; [done|].
  destruct (Qlt_bool (tf - 1000 * 60 * 60 * 24) x) eqn:E1; simpl.
  - destruct (Qlt_bool (tf' - 1000 * 60 * 60 * 24) x); by rewrite IH.
  - destruct (Qlt_bool (tf' - 1000 * 60 * 60 * 24) x) eqn:E2; [|done].
    apply Qlt_bool_iff in E2. apply Qlt_bool_false_iff in E1. lra.
Qed.

Lemma clock_monotone_tail c rest :
  clock_monotone (c :: rest) →
  clock_monotone rest ∧ ∀ c', c' ∈ rest → t_filter c <= t_filter c'.
Proof.
  revert c. induction rest as [|c1 rest IH]; intros c (Hc & Hn & Hm).
  - split; [done|]. by intros c' ?%elem_of_nil.
  - split; [done|]. intros c' [->|Hin]%elem_of_cons.
    + destruct Hm as (Hc1 & _). lra.
    + destruct (IH c1 Hm) as [_ Hrest]. specialize (Hrest c' Hin).
      destruct Hm as (Hc1 & _). lra.
Qed.

Lemma main_loop_bounded (runs : list restart_clock) :
  ∀ (past : list restart_clock) (tf : Q) (pre : list restart_clock) c post,
    clock_monotone runs →
    (∀ c', c' ∈ runs → tf <= t_filter c') →
    main_loop (within_day tf (t_append <$> past)) runs = pre ++ c :: post →
    (length (within_day (t_filter c) (t_append <$> (past ++ pre ++ [c])))
     <= max_n_restarts_per_day)%nat.
Proof.
  induction runs as [|c0 rest IH]; intros past tf pre c post Hm Htf Hrun; simpl in Hrun.
  { by destruct pre. }
  assert (Hstep : within_day (t_filter c0) (within_day tf (t_append <$> past) ++ [t_append c0])
                  = within_day (t_filter c0) (t_append <$> (past ++ [c0]))).
  { rewrite fmap_app, !within_day_app, within_day_later; [done|].
    apply Htf. left. }
  unfold main_restart_step in Hrun. simpl in Hrun.
  fold (within_day (t_filter c0) (within_day tf (t_append <$> past) ++ [t_append c0])) in Hrun.
  rewrite Hstep in Hrun.
  destruct (max_n_restarts_per_day
            <? length (within_day (t_filter c0) (t_append <$> (past ++ [c0]))))%nat eqn:E;
    simpl in Hrun; [by destruct pre|].
  apply Nat.ltb_ge in E.
  destruct pre as [|c1 pre]; simpl in Hrun.
  - injection Hrun as <- _. exact E.
  - injection Hrun as <- Hrun.
    destruct (clock_monotone_tail _ _ Hm) as [Hm' Hle].
    replace (past ++ (c0 :: pre) ++ [c]) with ((past ++ [c0]) ++ pre ++ [c])
      by (by rewrite <- app_assoc).
    by apply (IH (past ++ [c0]) (t_filter c0) pre c post).
Qed.

End Clock.

(** C7 (as amended): [restart_bot_on_too_many_errors] raises exactly
    when at least 10 errors, the current one included, fall within the
    last hour; and the loop of [main] restarts the bot only while at
    most [max_n_restarts_per_day = 5] restarts, the current one
    included, are recorded within the 24 hours before. *)
Theorem restart_policy (error_counts : list Q) (now : Q)
    (runs pre post : list Forager.restart_clock) (c : Forager.restart_clock) :
  Forager.clock_monotone runs →
  Forager.main_loop [] runs = pre ++ c :: post →
  ((Forager.restart_bot_on_too_many_errors error_counts now).2 = true
   ↔ (Forager.max_n_errors_per_hour <= Forager.errors_in_window error_counts now + 1)%nat)
  ∧ (length (Forager.within_day (Forager.t_filter c)
               (Forager.t_append <$> (pre ++ [c])))
     <= Forager.max_n_restarts_per_day)%nat.
Proof.
  intros Hm Hrun. split.
  - unfold Forager.restart_bot_on_too_many_errors, Forager.errors_in_window.
    cbn [snd]. rewrite length_app. cbn [length]. apply Nat.leb_le.
  - destruct runs as [|c0 rest]; [by destruct pre|].
    apply (main_loop_bounded (c0 :: rest) [] (Forager.t_filter c0) pre c post Hm);
      [|exact Hrun].
    intros c' [->|Hin]%elem_of_cons; [lra|].
    by apply (clock_monotone_tail c0 rest Hm).
Qed.

Lemma restart_policy_witness :
  Forager.clock_monotone Forager.two_runs
  ∧ Forager.main_loop [] Forager.two_runs
    = [Forager.run_1] ++ Forager.run_2 :: []
  ∧ ((Forager.restart_bot_on_too_many_errors Forager.nine_errors 10).2 = true
     ↔ (Forager.max_n_errors_per_hour
        <= Forager.errors_in_window Forager.nine_errors 10 + 1)%nat)
  ∧ (length (Forager.within_day (Forager.t_filter Forager.run_2)
               (Forager.t_append <$> ([Forager.run_1] ++ [Forager.run_2])))
     <= Forager.max_n_restarts_per_day)%nat.
Proof.
  assert (Hm : Forager.clock_monotone Forager.two_runs).
  { simpl. repeat split; try exact I; unfold Qle; simpl; lia. }
  assert (Hrun : Forager.main_loop [] Forager.two_runs
                 = [Forager.run_1] ++ Forager.run_2 :: []) by reflexivity.
  split; [exact Hm | split; [exact Hrun|]].
  exact (restart_policy Forager.nine_errors 10 Forager.two_runs
           [Forager.run_1] [] Forager.run_2 Hm Hrun).
Defined.

(** C7 (as stated) fails: nine errors within the hour and a tenth one
    now make [restart_bot_on_too_many_errors] raise, with 10 errors in
    the window, not more than 10. *)
Lemma restart_policy_counterexample :
  ¬ Forager.aborts_only_above_max Forager.nine_errors 10.
Proof.
  unfold Forager.aborts_only_above_max. intros H.
  specialize (H eq_refl). vm_compute in H. lia.
Qed.

(** C6 (as amended): in the legacy loop ([execution_loop] with
    [execute_to_exchange_old]) a tick is skipped whenever the previous
    tick completed less than [max(3, execution_delay_seconds)] seconds
    ago: a pass whose tick would begin that early runs none, and of the
    ticks that ran none begins less than
    [max(3000, execution_delay_seconds * 1000)] milliseconds after the
    previous one completed, nor after the initial
    [previous_execution_ts]. *)
Theorem execution_delay_legacy_loop (d prev : Q) (c : Forager.pass_clock)
    (rest : list Forager.pass_clock) :
  (Forager.t_tick c - prev < Qmax 3000 (d * 1000) →
   Forager.execution_loop d prev (c :: rest) = Forager.execution_loop d prev rest)
  ∧ Forager.spaced (Qmax 3000 (d * 1000)) (Forager.execution_loop d prev (c :: rest))
  ∧ Forager.starts_after d prev (Forager.execution_loop d prev (c :: rest)).
Proof.
  change (Qmax 3000 (d * 1000)) with (Forager.execution_delay_millis d).
  destruct (execution_loop_spaced d (c :: rest) prev) as [Hs Hr].
  split; [apply execution_loop_skips | split; [exact Hr | exact Hs]].
Qed.

Lemma execution_delay_legacy_loop_witness :
  (Forager.execution_loop 90 61000 (Forager.pass_120 :: Forager.later_passes)
   = [(179000, 180000); (300000, 301000)]
   ∧ Forager.execution_loop 90 61000 (Forager.pass_120 :: Forager.later_passes)
     = Forager.execution_loop 90 61000 Forager.later_passes
   ∧ Forager.spaced (Qmax 3000 (90 * 1000))
       (Forager.execution_loop 90 61000 (Forager.pass_120 :: Forager.later_passes)))
  ∧ (Forager.execution_loop 1 0 Forager.close_passes
     = [(60000, 61000); (120000, 121000)]
     ∧ Forager.spaced (Qmax 3000 (1 * 1000))
         (Forager.execution_loop 1 0 Forager.close_passes)).
Proof.
  destruct (execution_delay_legacy_loop 90 61000 Forager.pass_120 Forager.later_passes)
    as (Hskip & Hsp & _).
  split.
  - split; [reflexivity|]. split; [|exact Hsp].
    apply Hskip. reflexivity.
  - split; [reflexivity|].
    exact (proj1 (proj2 (execution_delay_legacy_loop 1 0
                           {| Forager.t_start := 60000; Forager.t_tick := 60000;
                              Forager.t_done := 61000; Forager.raised := false |}
                           (tail Forager.close_passes)))).
Defined.

(** C6 (as stated) fails on the live loop: with
    [execution_delay_seconds = 90], a tick that begins at 1:00.000 and
    completes at 1:01.000 is followed by a tick at 2:00.000, 59 seconds
    after the completion. *)
Lemma execution_delay_counterexample :
  Forager.run_execution_loop 0 Forager.minute_passes
  = [(60000, 61000); (120000, 121000)]
  ∧ ¬ Forager.respects_delay 90 (Forager.run_execution_loop 0 Forager.minute_passes).
Proof.
  split; [reflexivity|].
  intros [H _]. vm_compute in H. apply H. reflexivity.
Qed.

(** ** Sorting *)

Section Sorting.
Import Forager.
Context {A : Type} (leb : A → A → bool).

Lemma insert_sorted_perm (x : A) (l : list A) : insert_sorted leb x l ≡ₚ x :: l.
Proof.
  induction l as [|y l IH]; simpl; [done|].
  destruct (leb x y); [done|]. rewrite IH. apply Permutation_swap.
Qed.

Lemma sorted_perm (l : list A) : sorted leb l ≡ₚ l.
Proof.
  induction l as [|x l IH]; simpl; [done|].
  unfold sorted in *. simpl. by rewrite insert_sorted_perm, IH.
Qed.

Lemma elem_of_sorted (x : A) (l : list A) : x ∈ sorted leb l ↔ x ∈ l.
Proof. by rewrite sorted_perm. Qed.

Hypothesis leb_total : ∀ a b, leb a b = true ∨ leb b a = true.
Hypothesis leb_trans : ∀ a b c, leb a b = true → leb b c = true → leb a c = true.

Lemma insert_sorted_sorted (x : A) (l : list A) :
  StronglySorted (λ a b, leb a b = true) l →
  StronglySorted (λ a b, leb a b = true) (insert_sorted leb x l).
Proof.
  induction l as [|y l IH]; simpl; intros Hl.
  { repeat constructor. }
  apply StronglySorted_inv in Hl as [Hl Hy].
  destruct (leb x y) eqn:E.
  - constructor; [by constructor|].
    constructor; [done|]. eapply Forall_impl; [exact Hy|].
    intros z Hz. by eapply leb_trans.
  - constructor; [by apply IH|].
    assert (Hyx : leb y x = true) by (destruct (leb_total x y); congruence).
    rewrite insert_sorted_perm. by constructor.
Qed.

Lemma sorted_sorted (l : list A) : StronglySorted (λ a b, leb a b = true) (sorted leb l).
Proof.
  induction l as [|x l IH]; [constructor|].
  unfold sorted in *. simpl. by apply insert_sorted_sorted.
Qed.

End Sorting.

(** ** The reconciler (passivbot_forager.py) *)

(** Case analysis on a bind that returned. *)
Ltac bind_ok H :=
  match type of H with
  | (?r ≫= _) = Forager.Ok _ =>
      let a := fresh "a" in
      let E := fresh "E" in
      destruct r as [a|] eqn:E; [cbn [mbind Forager.result_bind] in H | discriminate H]
  end.

Section Reconciler.
Import Forager.
Context `{ext : Externals}.

Lemma getitem_Ok {V : Type} (d : gmap string V) (k : string) (v : V) :
  getitem d k = Ok v ↔ d !! k = Some v.
Proof. unfold getitem. destruct (d !! k); split; congruence. Qed.

Lemma getitem_is_Some {V : Type} (d : gmap string V) (k : string) :
  is_Some (d !! k) → ∃ v, getitem d k = Ok v ∧ d !! k = Some v.
Proof. intros [v Hv]. exists v. by rewrite getitem_Ok. Qed.

Lemma dict_keys_subset (l : list string) (k : string) : k ∈ dict_keys l → k ∈ l.
Proof.
  induction l as [|k' l IH]; simpl; [done|].
  intros [->|Hin]%elem_of_cons; [left|right].
  apply list_elem_of_filter in Hin as [_ Hin]. by apply IH.
Qed.

Lemma filter_bool_nil {B : Type} (p : B → bool) (l : list B) :
  (∀ x, x ∈ l → p x = false) → List.filter p l = [].
Proof.
  induction l as [|x l IH]; simpl; intros H; [done|].
  rewrite (H x) by left. apply IH. intros y Hy. apply H. by right.
Qed.

Lemma existsb_elem {B : Type} (p : B → bool) (l : list B) (x : B) :
  x ∈ l → p x = true → existsb p l = true.
Proof. intros Hx Hp. apply existsb_exists. exists x. by rewrite <- list_elem_of_In. Qed.

(** Equal key sets leave nothing to cancel and nothing to create. *)
Lemma filter_orders_same_keys (actual ideal : list order) :
  same_keys actual ideal → filter_orders actual ideal = ([], []).
Proof.
  intros [Ha Hi]. unfold filter_orders. f_equal; apply filter_bool_nil.
  - intros a Hin. destruct (Ha a Hin) as (i & Hi' & Hk).
    apply negb_false_iff. by eapply existsb_elem.
  - intros i Hin. destruct (Hi i Hin) as (a & Ha' & Hk).
    apply negb_false_iff. by apply (existsb_elem _ _ a).
Qed.

Lemma filter_orders_subset (actual ideal : list order) (x : order) :
  (x ∈ (filter_orders actual ideal).1 → x ∈ actual)
  ∧ (x ∈ (filter_orders actual ideal).2 → x ∈ ideal).
Proof.
  unfold filter_orders. simpl. split; intros [H _]%elem_of_filter_bool; exact H.
Qed.

Lemma mode_filter_elem (m : PB_mode) (ps ps' : pside) (l : list order) (x : order) :
  x ∈ mode_filter m ps l →
  x ∈ l
  ∧ (ps' = ps → m = manual → position_side x ≠ ps')
  ∧ (ps' = ps → m = tp_only → position_side x = ps' → reduce_only x = true).
Proof.
  destruct m; simpl; try (intros Hx; split; [exact Hx | split; congruence]).
  - intros [Hx Hp]%elem_of_filter_bool. split; [exact Hx|]. split; [congruence|].
    intros -> _ Hps. apply orb_true_iff in Hp as [Hp|Hp].
    + apply negb_true_iff, bool_decide_eq_false in Hp. done.
    + by apply andb_true_iff in Hp as [_ Hp].
  - intros [Hx Hp]%elem_of_filter_bool. split; [exact Hx|]. split; [|congruence].
    intros -> _. by apply negb_true_iff, bool_decide_eq_false in Hp.
Qed.

Lemma mode_filters_elem (cfg : sides side_config) (l : list order) (x : order) :
  x ∈ mode_filters cfg l → x ∈ l ∧ passes_modes cfg x.
Proof.
  unfold mode_filters. intros Hx.
  apply (mode_filter_elem _ short short) in Hx as (Hx & Hs1 & Hs2).
  apply (mode_filter_elem _ long long) in Hx as (Hx & Hl1 & Hl2).
  split; [exact Hx|]. intros ps. destruct ps; simpl; split; auto.
Qed.

Lemma mode_filters_nil (cfg : sides side_config) : mode_filters cfg [] = [].
Proof. unfold mode_filters. by destruct (mode (on_long cfg)), (mode (on_short cfg)). Qed.

(** Where the entries of the two queues come from. *)
Lemma reconcile_symbols_elem (self : Passivbot) (ideal : gmap string (list order))
    (symbols : list string) (queues : list order * list order) (x : order) :
  reconcile_symbols self ideal symbols = Ok queues →
  (x ∈ queues.1 →
   ∃ s cfg, s ∈ symbols ∧ live_configs self !! s = Some cfg
            ∧ x ∈ actual_orders_of self s ∧ passes_modes cfg x)
  ∧ (x ∈ queues.2 →
     ∃ s cfg l, s ∈ symbols ∧ live_configs self !! s = Some cfg
                ∧ ideal !! s = Some l ∧ x ∈ l ∧ passes_modes cfg x).
Proof.
  revert queues. induction symbols as [|s rest IH]; simpl; intros queues H.
  { injection H as <-. simpl. split; by intros ?%elem_of_nil. }
  bind_ok H. bind_ok H. bind_ok H. injection H as <-. simpl.
  apply getitem_Ok in E, E0.
  destruct (IH _ eq_refl) as [IH1 IH2].
  split; intros [Hx|Hx]%elem_of_app.
  - exists s, a0. split; [left|]. split; [done|].
    apply mode_filters_elem in Hx as [Hx Hm].
    apply filter_orders_subset in Hx. done.
  - destruct (IH1 Hx) as (s' & cfg & ? & ?). exists s', cfg. split; [by right|done].
  - exists s, a0, a. split; [left|]. split; [done|]. split; [done|].
    apply mode_filters_elem in Hx as [Hx Hm].
    apply filter_orders_subset in Hx. done.
  - destruct (IH2 Hx) as (s' & cfg & l & ? & ?).
    exists s', cfg, l. split; [by right|done].
Qed.

(** With nothing to cancel or create for any symbol, both queues are empty. *)
Lemma reconcile_symbols_nil (self : Passivbot) (ideal : gmap string (list order))
    (symbols : list string) :
  (∀ s, s ∈ symbols →
     is_Some (ideal !! s) ∧ is_Some (live_configs self !! s)
     ∧ same_keys (actual_orders_of self s) (default [] (ideal !! s))) →
  reconcile_symbols self ideal symbols = Ok ([], []).
Proof.
  induction symbols as [|s rest IH]; simpl; intros H; [done|].
  destruct (H s) as ([l Hl] & [cfg Hcfg] & Hsame); [left|].
  rewrite Hl in Hsame. simpl in Hsame.
  rewrite (proj2 (getitem_Ok _ _ _) Hl), (proj2 (getitem_Ok _ _ _) Hcfg).
  cbn [mbind result_bind].
  rewrite IH by (intros s' Hs'; apply H; by right).
  cbn [mbind result_bind].
  pose proof (filter_orders_same_keys _ _ Hsame) as Hf.
  unfold filter_orders in Hf. injection Hf as Hf1 Hf2.
  rewrite Hf1, Hf2. simpl. by rewrite mode_filters_nil.
Qed.

Lemma with_diff_spec (self : Passivbot) (l : list order) (wd : list (Q * order)) :
  with_diff self l = Ok wd →
  wd.*2 = l ∧ Forall (λ p, p.1 = order_key self p.2) wd.
Proof.
  revert wd. induction l as [|x l IH]; simpl; intros wd H.
  { injection H as <-. by split. }
  bind_ok H. bind_ok H. injection H as <-.
  destruct (IH _ eq_refl) as [IH1 IH2]. apply getitem_Ok in E.
  split; [rewrite fmap_cons; by rewrite IH1|].
  constructor; [|done]. simpl. unfold order_key. by rewrite E.
Qed.

Lemma key_leb_total {B : Type} (a b : Q * B) : key_leb a b = true ∨ key_leb b a = true.
Proof.
  unfold key_leb. rewrite !Qle_bool_iff.
  destruct (Qlt_le_dec a.1 b.1) as [H|H]; [left; by apply Qlt_le_weak | by right].
Qed.

Lemma key_leb_trans {B : Type} (a b c : Q * B) :
  key_leb a b = true → key_leb b c = true → key_leb a c = true.
Proof. unfold key_leb. rewrite !Qle_bool_iff. apply Qle_trans. Qed.

Lemma elem_of_sorted_by_key {B : Type} (l : list (Q * B)) (x : B) :
  x ∈ sorted_by_key l ↔ x ∈ l.*2.
Proof. unfold sorted_by_key. by rewrite sorted_perm. Qed.

Lemma sorted_by_key_sorted {B : Type} (key : B → Q) (l : list (Q * B)) :
  Forall (λ p, p.1 = key p.2) l →
  StronglySorted (λ a b, key a <= key b) (sorted_by_key l).
Proof.
  intros Hkeys. unfold sorted_by_key.
  assert (Hk : Forall (λ p, p.1 = key p.2) (sorted key_leb l)) by (by rewrite sorted_perm).
  pose proof (sorted_sorted key_leb key_leb_total key_leb_trans l) as Hs.
  induction Hs as [|p l' Hs IH Hp]; [constructor|].
  apply Forall_cons in Hk as [Hp1 Hk]. simpl. constructor; [by apply IH|].
  rewrite Forall_fmap. rewrite Forall_forall in Hp, Hk |- *.
  intros q Hq. simpl. specialize (Hp q Hq). specialize (Hk q Hq). simpl in Hk.
  unfold key_leb in Hp. apply Qle_bool_iff in Hp. by rewrite <- Hp1, <- Hk.
Qed.

(** Both queues that [reconcile] returns are in ascending order of
    [calc_diff(price, last)], and hold what [reconcile_symbols] found. *)
Lemma reconcile_spec (self : Passivbot) (ideal : gmap string (list order))
    (to_cancel to_create : list order) :
  reconcile self ideal = Ok (to_cancel, to_create) →
  ∃ queues,
    reconcile_symbols self ideal (dict_keys (active_symbols self)) = Ok queues
    ∧ to_cancel ≡ₚ queues.1 ∧ to_create ≡ₚ queues.2
    ∧ queue_sorted self to_cancel ∧ queue_sorted self to_create.
Proof.
  unfold reconcile. intros H. bind_ok H. bind_ok H. bind_ok H.
  injection H as <- <-. exists a. split; [done|].
  apply with_diff_spec in E0 as [E0 K0], E1 as [E1 K1].
  unfold sorted_by_key at 1 2. rewrite !sorted_perm, E0, E1.
  split; [done|]. split; [done|].
  split; by apply sorted_by_key_sorted.
Qed.

End Reconciler.

Section IdealOrders.
Import Forager.
Context `{ext : Externals}.

Lemma filter_ideal_symbol (self : Passivbot) (s : string) (l : list (Q * otuple)) :
  ∀ (seen : gset string) (r : list order),
    filter_ideal self s seen l = Ok r → ∀ x, x ∈ r → symbol x = s.
Proof.
  induction l as [|[d o] l IH]; simpl; intros seen r H x Hx.
  { injection H as <-. by apply elem_of_nil in Hx. }
  destruct (Qeq_bool (t_qty o) 0
            || (str_in "initial" (t_tag o) || str_in "unstuck" (t_tag o))
               && Qlt_bool (price_distance_threshold self) d); [by eapply IH|].
  case_bool_decide; [by eapply IH|].
  bind_ok H. bind_ok H. injection H as <-.
  apply elem_of_cons in Hx as [->|Hx]; [done | by eapply IH].
Qed.

Lemma filter_all_spec (self : Passivbot) (tuples : gmap string (list otuple))
    (symbols : list string) (ideal : gmap string (list order)) :
  filter_all self symbols tuples = Ok ideal →
  (∀ s, s ∈ symbols → is_Some (ideal !! s))
  ∧ (∀ s l x, ideal !! s = Some l → x ∈ l → symbol x = s).
Proof.
  revert ideal. induction symbols as [|s0 rest IH]; simpl; intros ideal H.
  { injection H as <-. split; [by intros s ?%elem_of_nil|].
    intros s l x. by rewrite lookup_empty. }
  bind_ok H. bind_ok H. bind_ok H. bind_ok H. injection H as <-.
  destruct (IH _ eq_refl) as [IH1 IH2]. split.
  - intros s [->|Hs]%elem_of_cons; [by rewrite lookup_insert_eq|].
    destruct (decide (s0 = s)) as [->|Hne]; [by rewrite lookup_insert_eq|].
    rewrite lookup_insert_ne by done. by apply IH1.
  - intros s l x. destruct (decide (s0 = s)) as [->|Hne].
    + rewrite lookup_insert_eq. intros [= <-] Hx. by eapply filter_ideal_symbol.
    + rewrite lookup_insert_ne by done. apply IH2.
Qed.

Lemma ideal_long_live_configs (self : Passivbot) (s : string) (b : bool) (l : list otuple) :
  ideal_long self s b = Ok l → is_Some (live_configs self !! s).
Proof.
  unfold ideal_long. intros H. bind_ok H. apply getitem_Ok in E. by rewrite E.
Qed.

Lemma compose_ideal_live_configs (self : Passivbot) (symbols : list string) :
  ∀ (tuples tuples' : gmap string (list otuple)),
    compose_ideal self symbols tuples = Ok tuples' →
    ∀ s, s ∈ symbols → is_Some (live_configs self !! s).
Proof.
  induction symbols as [|s0 rest IH]; simpl; intros tuples tuples' H s Hs.
  { by apply elem_of_nil in Hs. }
  bind_ok H. bind_ok H. bind_ok H. bind_ok H.
  apply elem_of_cons in Hs as [->|Hs]; [by eapply ideal_long_live_configs|].
  by eapply IH.
Qed.

(** What the reconciler needs to know of the ideal orders. *)
Lemma calc_ideal_orders_spec (self : Passivbot) (ideal : gmap string (list order)) :
  calc_ideal_orders self = Ok ideal →
  (∀ s, s ∈ active_symbols self → is_Some (live_configs self !! s))
  ∧ (∀ s, s ∈ dict_keys (active_symbols self) → is_Some (ideal !! s))
  ∧ (∀ s l x, ideal !! s = Some l → x ∈ l → symbol x = s).
Proof.
  unfold calc_ideal_orders, unstuck_and_filter. intros H.
  bind_ok H. bind_ok H. bind_ok H.
  split; [by eapply compose_ideal_live_configs|].
  by apply filter_all_spec in H.
Qed.

Lemma actual_orders_of_symbol (self : Passivbot) (s : string) (x : order) :
  well_keyed (open_orders self) → x ∈ actual_orders_of self s → symbol x = s.
Proof.
  intros Hk. unfold actual_orders_of.
  destruct (open_orders self !! s) as [l|] eqn:E; [|by intros ?%elem_of_nil].
  intros (oo & -> & Hoo)%list_elem_of_fmap. simpl. by eapply Hk.
Qed.

End IdealOrders.

(** C3: in every state in which the ideal order set equals the actual
    open-order set on the keys (symbol, side, position_side, qty,
    price), [calc_orders_to_cancel_and_create] returns an empty
    [to_cancel] and an empty [to_create]. *)
Theorem reconciler_idempotent `{ext : Forager.Externals} (self : Forager.Passivbot)
    (ideal : gmap string (list Forager.order)) :
  Forager.calc_ideal_orders self = Forager.Ok ideal →
  Forager.same_order_sets self ideal →
  Forager.calc_orders_to_cancel_and_create self = Forager.Ok ([], []).
Proof.
  intros Hideal Hsame.
  destruct (calc_ideal_orders_spec self ideal Hideal) as (Hcfg & Hdom & _).
  unfold Forager.calc_orders_to_cancel_and_create. rewrite Hideal.
  cbn [mbind Forager.result_bind]. unfold Forager.reconcile.
  rewrite reconcile_symbols_nil; [reflexivity|].
  intros s Hs. pose proof (dict_keys_subset _ _ Hs) as Hs'.
  split; [by apply Hdom|]. split; [by apply Hcfg | by apply Hsame].
Qed.

(** C4: for every symbol and side, on an open-order store that files
    every order under its own symbol (as every reachable store does,
    [reachable_well_keyed]): if the side's mode is [manual],
    [calc_orders_to_cancel_and_create] emits neither a cancellation nor
    a creation of that symbol whose position_side is that side; if the
    side's mode is [tp_only], every emitted cancellation and creation
    of that symbol whose position_side is that side is reduce_only. *)
Theorem mode_filters_respected `{ext : Forager.Externals} (self : Forager.Passivbot)
    (to_cancel to_create : list Forager.order) (s : string)
    (cfg : Forager.sides Forager.side_config) (ps : Forager.pside) (x : Forager.order) :
  Forager.well_keyed (Forager.open_orders self) →
  Forager.calc_orders_to_cancel_and_create self = Forager.Ok (to_cancel, to_create) →
  Forager.live_configs self !! s = Some cfg →
  x ∈ to_cancel ++ to_create →
  Forager.symbol x = s →
  (Forager.mode (Forager.at_side cfg ps) = Forager.manual →
   Forager.position_side x ≠ ps)
  ∧ (Forager.mode (Forager.at_side cfg ps) = Forager.tp_only →
     Forager.position_side x = ps → Forager.reduce_only x = true).
Proof.
  intros Hkeyed Hrun Hcfg Hx Hsym.
  unfold Forager.calc_orders_to_cancel_and_create in Hrun. bind_ok Hrun.
  destruct (calc_ideal_orders_spec self a E) as (_ & _ & Hideal).
  apply reconcile_spec in Hrun as (queues & Hq & Hc & Hk & _).
  destruct (reconcile_symbols_elem self a _ queues x Hq) as [H1 H2].
  assert (Hpass : ∃ cfg', Forager.live_configs self !! s = Some cfg'
                          ∧ Forager.passes_modes cfg' x).
  { apply elem_of_app in Hx as [Hx|Hx].
    - rewrite Hc in Hx. destruct (H1 Hx) as (s' & cfg' & _ & Hcfg' & Hin & Hpass).
      apply (actual_orders_of_symbol self s' x Hkeyed) in Hin.
      exists cfg'. by rewrite <- Hsym, Hin.
    - rewrite Hk in Hx. destruct (H2 Hx) as (s' & cfg' & l & _ & Hcfg' & Hl & Hin & Hpass).
      apply (Hideal s' l x Hl) in Hin.
      exists cfg'. by rewrite <- Hsym, Hin. }
  destruct Hpass as (cfg' & Hcfg' & Hpass).
  rewrite Hcfg in Hcfg'. injection Hcfg' as <-. apply Hpass.
Qed.

Lemma same_keys_singleton (l1 l2 : list Forager.order) (a i : Forager.order) :
  l1 = [a] → l2 = [i] → Forager.keys_eqb a i = true → Forager.same_keys l1 l2.
Proof.
  intros -> -> Hk. split.
  - intros y ->%list_elem_of_singleton. exists i. split; [left | exact Hk].
  - intros y ->%list_elem_of_singleton. exists a. split; [left | exact Hk].
Qed.

Lemma reconciler_idempotent_witness :
  Forager.calc_orders_to_cancel_and_create (ext := Forager.reference_externals)
    Forager.state_S4 = Forager.Ok ([], []).
Proof.
  apply (reconciler_idempotent (ext := Forager.reference_externals)
           Forager.state_S4 Forager.ideal_S4).
  - vm_compute. reflexivity.
  - intros s Hs. apply list_elem_of_singleton in Hs as ->.
    eapply same_keys_singleton; vm_compute; reflexivity.
Defined.

Lemma mode_filters_respected_witness :
  (Forager.mode (Forager.at_side Forager.cfg_manual Forager.long) = Forager.manual →
   Forager.position_side Forager.order_s1 ≠ Forager.long)
  ∧ (Forager.mode (Forager.at_side Forager.cfg_manual Forager.long) = Forager.tp_only →
     Forager.position_side Forager.order_s1 = Forager.long →
     Forager.reduce_only Forager.order_s1 = true).
Proof.
  apply (mode_filters_respected (ext := Forager.reference_externals)
           Forager.state_manual [Forager.order_s1] [] "A"
           Forager.cfg_manual Forager.long Forager.order_s1).
  - apply reachable_invariant.
    apply (Forager.reach_refresh [Forager.oo_m1; Forager.oo_s1]).
    vm_compute. repeat constructor; intros H; inversion H; subst;
      try discriminate; match goal with H' : _ ∈ [] |- _ => inversion H' end.
  - vm_compute. reflexivity.
  - vm_compute. reflexivity.
  - left.
  - reflexivity.
Defined.

(** ** Batches (passivbot_forager.py, exchanges/bitget.py) *)

Section Batches.
Import Forager.
Context `{ext : Externals}.

(** Both queues come back in ascending order of the distance to the
    last price. *)
Lemma queues_sorted (self : Passivbot) (to_cancel to_create : list order) :
  calc_orders_to_cancel_and_create self = Ok (to_cancel, to_create) →
  queue_sorted self to_cancel ∧ queue_sorted self to_create.
Proof.
  unfold calc_orders_to_cancel_and_create. intros H. bind_ok H.
  by apply reconcile_spec in H as (_ & _ & _ & _ & Hc & Hk).
Qed.

Lemma slice_to_nonneg {B : Type} (n : Z) (l : list B) :
  (0 <= n)%Z → slice_to n l = take (Z.to_nat n) l.
Proof. intros Hn. unfold slice_to. by rewrite (proj2 (Z.leb_le 0 n) Hn). Qed.

Lemma slice_to_length {B : Type} (n : Z) (l : list B) :
  (0 <= n)%Z → (Z.of_nat (length (slice_to n l)) <= n)%Z.
Proof. intros Hn. rewrite slice_to_nonneg, length_take by done. lia. Qed.

(** With a cap that is not negative the adapter is handed at most the
    cap, so it never reorders: the batch is the head of the queue. *)
Lemma dispatch_is_head (self : Passivbot) (to_cancel to_create : list order) :
  (0 <= max_n_cancellations_per_batch self)%Z →
  (0 <= max_n_creations_per_batch self)%Z →
  dispatch self to_cancel to_create
  = (take (Z.to_nat (max_n_cancellations_per_batch self)) to_cancel,
     take (Z.to_nat (max_n_creations_per_batch self)) to_create).
Proof.
  intros Hc Hk. unfold dispatch, execute_cancellations, execute_orders, execute_multiple.
  pose proof (slice_to_length _ to_cancel Hc) as Hlen.
  destruct (Z.ltb_spec (max_n_cancellations_per_batch self)
              (Z.of_nat (length (slice_to (max_n_cancellations_per_batch self) to_cancel))))
    as [Hlt|_]; [lia|].
  rewrite !slice_to_nonneg by done. by rewrite !take_take, !Nat.min_id.
Qed.

(** Handed more than the cap, the adapter takes reduce-only orders first. *)
Lemma execute_cancellations_prefers_reduce_only (self : Passivbot) (orders : list order) :
  (0 <= max_n_cancellations_per_batch self)%Z →
  (max_n_cancellations_per_batch self < Z.of_nat (length orders))%Z →
  execute_cancellations self orders
  = take (Z.to_nat (max_n_cancellations_per_batch self))
      (List.filter reduce_only orders ++ List.filter (λ x, negb (reduce_only x)) orders).
Proof.
  intros Hc Hlen. unfold execute_cancellations, execute_multiple.
  rewrite (proj2 (Z.ltb_lt _ _) Hlen), !slice_to_nonneg by done.
  by rewrite take_take, Nat.min_id.
Qed.

(** At most the caps are dispatched. *)
Lemma dispatch_within_caps (self : Passivbot) (to_cancel to_create : list order) :
  (0 <= max_n_cancellations_per_batch self)%Z →
  (0 <= max_n_creations_per_batch self)%Z →
  (Z.of_nat (length (dispatch self to_cancel to_create).1)
   <= max_n_cancellations_per_batch self)%Z
  ∧ (Z.of_nat (length (dispatch self to_cancel to_create).2)
     <= max_n_creations_per_batch self)%Z.
Proof.
  intros Hc Hk. rewrite dispatch_is_head by done. simpl.
  rewrite !length_take. lia.
Qed.

End Batches.

(** C5 at a failing input: with [max_n_cancellations_per_batch = 1] and
    two pending cancellations, a long entry at distance 0.45/100.45
    and a reduce-only long close at distance 1.55/100.45, the tick
    cancels the entry and keeps the reduce-only close waiting, whereas
    [execute_cancellations] handed the whole queue picks the
    reduce-only close. *)
Theorem reduce_only_not_preferred `{ext : Forager.Externals} :
  Forager.calc_orders_to_cancel_and_create Forager.state_batch
  = Forager.Ok ([Forager.order_e1; Forager.order_c1], [])
  ∧ Forager.max_n_cancellations_per_batch Forager.state_batch = 1%Z
  ∧ Forager.reduce_only Forager.order_e1 = false
  ∧ Forager.reduce_only Forager.order_c1 = true
  ∧ Forager.execute_to_exchange Forager.state_batch
    = Forager.Ok ([Forager.order_e1], [])
  ∧ Forager.execute_cancellations Forager.state_batch
      [Forager.order_e1; Forager.order_c1]
    = [Forager.order_c1].
Proof.
  repeat split; vm_compute; reflexivity.
Qed.

(** ** Unstucking (passivbot_forager.py) *)

Section Unstuck.
Import Forager.
Context `{ext : Externals}.

Lemma unstuck_close_long_tag (self : Passivbot) (ideal : gmap string (list otuple))
    (s : string) (c : otuple) :
  unstuck_close_long self ideal s = Ok (Some c) → t_tag c = unstuck_tag long.
Proof.
  unfold unstuck_close_long. intros H.
  bind_ok H. bind_ok H. bind_ok H. bind_ok H.
  destruct (ideal_closes_of ideal s long) as [|first ?]; [discriminate H|].
  destruct (Qle_bool _ _); [discriminate H|].
  bind_ok H. bind_ok H.
  destruct (Qne_bool _ _); [|discriminate H].
  by injection H as <-.
Qed.

(** The short branch never yields a close: it either finds no ideal
    close to compare with, or raises on [ideal_closes[0]["price"]]. *)
Lemma unstuck_close_short_none (self : Passivbot) (ideal : gmap string (list otuple))
    (s : string) (c : otuple) :
  unstuck_close_short self ideal s ≠ Ok (Some c).
Proof.
  unfold unstuck_close_short. intros H.
  bind_ok H. bind_ok H. bind_ok H. bind_ok H.
  destruct (ideal_closes_of ideal s short) as [|first ?]; discriminate H.
Qed.

Lemma unstuck_loop_Ok (self : Passivbot) (ideal : gmap string (list otuple))
    (l : list stuck_entry) (s : string) (q p : Q) (tag : string) :
  unstuck_loop self ideal l = Ok (s, (q, p, tag)) → ¬ q == 0 →
  ∃ ps d, (s, ps, d) ∈ l ∧ tag = unstuck_tag ps.
Proof.
  intros H Hq. induction l as [|[[s0 ps0] d0] rest IH]; simpl in H.
  { injection H as <- <- <- <-. by destruct Hq. }
  bind_ok H. destruct a as [c|].
  - injection H as -> ->. exists ps0, d0. split; [left|].
    destruct ps0.
    + by apply unstuck_close_long_tag in E.
    + by apply unstuck_close_short_none in E.
  - destruct (IH H) as (ps & d & Hin & Htag). exists ps, d. split; [by right | done].
Qed.

Lemma stuck_check_elem (self : Passivbot) (s0 : string) (ps0 : pside)
    (l : list stuck_entry) (e : stuck_entry) :
  stuck_check self s0 ps0 = Ok l → e ∈ l →
  e.1.1 = s0 ∧ e.1.2 = ps0 ∧ counts_as_stuck self s0 ps0.
Proof.
  unfold stuck_check, counts_as_stuck. intros H He.
  destruct (has_position self s0 ps0) eqn:Hpos;
    [|injection H as <-; by apply elem_of_nil in He].
  bind_ok H. bind_ok H. bind_ok H.
  destruct (is_stuck _ _) eqn:Hstuck;
    [|injection H as <-; by apply elem_of_nil in He].
  bind_ok H. injection H as <-. apply list_elem_of_singleton in He as ->. simpl.
  apply getitem_Ok in E, E1. unfold getpos in E0.
  destruct (items_get (positions self) s0) as [pos|] eqn:Hp; [|discriminate E0].
  injection E0 as <-. repeat split. by exists pos, a1, a.
Qed.

Lemma collect_stuck_elem (self : Passivbot) (symbols : list string) :
  ∀ (l : list stuck_entry) (e : stuck_entry),
    collect_stuck self symbols = Ok l → e ∈ l → counts_as_stuck self e.1.1 e.1.2.
Proof.
  induction symbols as [|s0 rest IH]; simpl; intros l e H He.
  { injection H as <-. by apply elem_of_nil in He. }
  bind_ok H. bind_ok H. bind_ok H. injection H as <-.
  apply elem_of_app in He as [He|He];
    [|apply elem_of_app in He as [He|He]].
  - by destruct (stuck_check_elem _ _ _ _ _ E He) as (-> & -> & ?).
  - by destruct (stuck_check_elem _ _ _ _ _ E0 He) as (-> & -> & ?).
  - by eapply IH.
Qed.

Lemma receives_unstuck_stuck (self : Passivbot) (ideal : gmap string (list otuple))
    (s : string) (ps : pside) :
  receives_unstuck self ideal s ps → counts_as_stuck self s ps.
Proof.
  intros (q & p & H & Hq). unfold calc_unstucking_close in H. bind_ok H.
  destruct a as [|e0 l0] eqn:El; [injection H as _ <- _ _; by destruct Hq|].
  rewrite <- El in *. clear El.
  apply unstuck_loop_Ok in H as (ps' & d & Hin & Htag); [|done].
  apply elem_of_sorted in Hin.
  assert (ps' = ps) as -> by (destruct ps, ps'; simpl in Htag; congruence).
  by apply (collect_stuck_elem _ _ _ _ E Hin).
Qed.

Lemma unstuck_loop_first (self : Passivbot) (ideal : gmap string (list otuple))
    (l : list stuck_entry) (s : string) (q p : Q) (ps : pside) :
  unstuck_loop self ideal l = Ok (s, (q, p, unstuck_tag ps)) → ¬ q == 0 →
  ∃ before d after,
    l = before ++ (s, ps, d) :: after ∧ Forall (skipped self ideal) before.
Proof.
  intros H Hq. induction l as [|[[s0 ps0] d0] rest IH]; simpl in H.
  { injection H as _ <- _ _. by destruct Hq. }
  bind_ok H. destruct a as [c|].
  - injection H as -> ->. exists [], d0, rest. split; [|constructor].
    destruct ps0.
    + apply unstuck_close_long_tag in E. by destruct ps.
    + by apply unstuck_close_short_none in E.
  - destruct (IH H) as (before & d & after & -> & Hb).
    exists ((s0, ps0, d0) :: before), d, after. split; [done|].
    constructor; [|done]. unfold skipped. simpl. by destruct ps0.
Qed.

Lemma receives_unstuck_first (self : Passivbot) (ideal : gmap string (list otuple))
    (s : string) (ps : pside) :
  receives_unstuck self ideal s ps → first_not_skipped self ideal s ps.
Proof.
  intros (q & p & H & Hq). unfold calc_unstucking_close in H. bind_ok H.
  destruct a as [|e0 l0] eqn:El; [injection H as _ <- _ _; by destruct Hq|].
  rewrite <- El in *. clear El.
  apply unstuck_loop_first in H as (before & d & after & Hl & Hb); [|done].
  by exists a, before, d, after.
Qed.

Lemma receives_unstuck_unique (self : Passivbot) (ideal : gmap string (list otuple))
    (s1 s2 : string) (p1 p2 : pside) :
  receives_unstuck self ideal s1 p1 → receives_unstuck self ideal s2 p2 →
  s1 = s2 ∧ p1 = p2.
Proof.
  intros (q1 & c1 & H1 & _) (q2 & c2 & H2 & _).
  rewrite H1 in H2. injection H2 as -> _ _ Htag. split; [done|].
  destruct p1, p2; simpl in Htag; congruence.
Qed.

End Unstuck.

(** C1 (as amended): on every tick, a (symbol, side) that receives the
    unstuck close holds a position that the engine counts as stuck
    (its wallet-exposure limit is 0, or we/W > unstuck_threshold) and
    is the first stuck position, in ascending order of price gap, for
    which the engine proposes a close; and at most one (symbol, side)
    receives an unstuck close.  A stuck position need not receive one. *)
Theorem unstuck_trigger `{ext : Forager.Externals} (self : Forager.Passivbot)
    (ideal_orders : gmap string (list Forager.otuple)) :
  (∀ symbol ps,
     Forager.receives_unstuck self ideal_orders symbol ps →
     Forager.counts_as_stuck self symbol ps
     ∧ Forager.first_not_skipped self ideal_orders symbol ps)
  ∧ (∀ s1 p1 s2 p2,
       Forager.receives_unstuck self ideal_orders s1 p1 →
       Forager.receives_unstuck self ideal_orders s2 p2 → s1 = s2 ∧ p1 = p2).
Proof.
  split.
  - intros symbol ps Hr.
    split; [by eapply receives_unstuck_stuck | by apply receives_unstuck_first].
  - intros s1 p1 s2 p2. apply receives_unstuck_unique.
Qed.

Lemma unstuck_trigger_witness :
  Forager.receives_unstuck (ext := Forager.reference_externals)
    Forager.state_S5 Forager.ideal_S5 "B" Forager.long
  ∧ Forager.counts_as_stuck (ext := Forager.reference_externals)
      Forager.state_S5 "B" Forager.long
  ∧ Forager.first_not_skipped (ext := Forager.reference_externals)
      Forager.state_S5 Forager.ideal_S5 "B" Forager.long.
Proof.
  assert (Hr : Forager.receives_unstuck (ext := Forager.reference_externals)
                 Forager.state_S5 Forager.ideal_S5 "B" Forager.long).
  { eexists _, _. split; [vm_compute; reflexivity|]. intros H. discriminate H. }
  split; [exact Hr|].
  exact (proj1 (unstuck_trigger (ext := Forager.reference_externals)
                  Forager.state_S5 Forager.ideal_S5) "B" Forager.long Hr).
Defined.

(** C1 (as stated) fails in scenario S5: the long of A has
    we/W = 1.2 > 0.9, yet the unstuck close of the tick goes to B. *)
Lemma unstuck_trigger_counterexample :
  ¬ Forager.unstuck_trigger_claim (ext := Forager.reference_externals)
      Forager.state_S5 Forager.ideal_S5.
Proof.
  intros [Hiff _]. destruct (Hiff "A" Forager.long) as [_ Hrecv].
  destruct Hrecv as (q & p & Heq & _).
  - eexists _, _, _. split; [reflexivity|]. split; [reflexivity|].
    split; [reflexivity|]. vm_compute. reflexivity.
  - vm_compute in Heq. discriminate Heq.
Qed.

(** C2 at a failing input: with [unstuck_loss_allowance_pct = 0] and a
    realized loss of 500 in the ledger, [calc_unstucking_close] still
    proposes to close 0.1 of the long of B at 99.5, below its entry
    price 100, which takes cumulative realized PnL further below
    [-unstuck_loss_allowance_pct * peak_balance = 0] for any peak
    balance; and the close is in the ideal order set. *)
Theorem unstuck_ignores_loss_allowance :
  (∃ cfg, Forager.live_configs Forager.state_loss !! "B" = Some cfg
          ∧ Forager.unstuck_loss_allowance_pct (Forager.on_long cfg) = 0)
  ∧ (∃ q p,
       Forager.calc_unstucking_close (ext := Forager.reference_externals)
         Forager.state_loss Forager.ideal_S5
       = Forager.Ok ("B", (q, p, "unstuck_close_long"))
       ∧ q == - (1 # 10) ∧ p == 995 # 10
       ∧ ∀ peak_balance,
           Forager.cumulative_pnl Forager.state_loss
           + Forager.calc_pnl_long 100 p q 1
           < - (0 * peak_balance))
  ∧ (∃ ideal,
       Forager.unstuck_and_filter (ext := Forager.reference_externals)
         Forager.state_loss Forager.ideal_S5 = Forager.Ok ideal
       ∧ Forager.holds_unstuck ideal "B" = true).
Proof.
  split; [|split].
  - eexists. split; [vm_compute; reflexivity | reflexivity].
  - eexists _, _. split; [vm_compute; reflexivity|].
    split; [reflexivity|]. split; [reflexivity|].
    intros peak_balance. unfold Forager.cumulative_pnl, Forager.calc_pnl_long.
    simpl. cbv [Z.abs]. lra.
  - eexists. split; vm_compute; reflexivity.
Qed.

(** * Further properties of the code *)

(** ** Profit of a long and of a short (jitted.py) *)

(** X3: on the same entry price, close price and quantity, the profit of
    a long and the profit of a short cancel (on an inverse market
    provided neither price is zero, where the code divides by them). *)
Theorem long_short_pnl_cancel (xk : Jitted.xk_tuple) (entry_price close_price qty : Q) :
  (Jitted.inverse xk = true -> ~ entry_price == 0 /\ ~ close_price == 0) ->
  Jitted.calc_long_pnl xk entry_price close_price qty
  + Jitted.calc_shrt_pnl xk entry_price close_price qty == 0.
Proof.
  intros Hinv. unfold Jitted.calc_long_pnl, Jitted.calc_shrt_pnl.
  destruct (Jitted.inverse xk); ring.
Qed.

Lemma long_short_pnl_cancel_witness :
  Jitted.calc_long_pnl Jitted.xk_unit 100 110 2
  + Jitted.calc_shrt_pnl Jitted.xk_unit 100 110 2 == 0.
Proof.
  apply (long_short_pnl_cancel Jitted.xk_unit 100 110 2).
  simpl. discriminate.
Defined.

(** ** More on the open-order store (passivbot_forager.py) *)

Section StoreMore.
Import Forager.

Lemma filter_other_ids (oid : string) (l : list open_order) :
  oid ∉ ids_of l → List.filter (λ x, negb (String.eqb (oo_id x) oid)) l = l.
Proof.
  induction l as [|x l IH]; intros Hn; simpl; [reflexivity|].
  simpl in Hn. apply not_elem_of_cons in Hn as [Hx Hl].
  destruct (String.eqb (oo_id x) oid) eqn:E.
  - apply String.eqb_eq in E. congruence.
  - simpl. now rewrite IH.
Qed.

Lemma update_open_orders_from (fetched : list open_order) (s : string) :
  ∀ store : gmap string (list open_order),
    default [] (foldl (λ store elm,
                         <[oo_symbol elm := default [] (store !! oo_symbol elm) ++ [elm]]> store)
                      store fetched !! s)
    = default [] (store !! s) ++ List.filter (λ x, String.eqb (oo_symbol x) s) fetched.
Proof.
  induction fetched as [|elm fetched IH]; intros store; simpl.
  - now rewrite app_nil_r.
  - rewrite IH. destruct (String.eqb (oo_symbol elm) s) eqn:E.
    + apply String.eqb_eq in E. subst s. rewrite lookup_insert_eq. simpl.
      now rewrite <- app_assoc.
    + apply String.eqb_neq in E. now rewrite lookup_insert_ne.
Qed.

Lemma update_open_orders_keys (fetched : list open_order) (s : string) :
  ∀ store : gmap string (list open_order),
    is_Some (foldl (λ store elm,
                      <[oo_symbol elm := default [] (store !! oo_symbol elm) ++ [elm]]> store)
                   store fetched !! s)
    ↔ is_Some (store !! s) ∨ ∃ x, x ∈ fetched ∧ oo_symbol x = s.
Proof.
  induction fetched as [|elm fetched IH]; intros store; simpl.
  - split; [by left | intros [H | (x & Hx & _)]; [done | by apply elem_of_nil in Hx]].
  - rewrite IH. destruct (decide (oo_symbol elm = s)) as [<-|Hne].
    + rewrite lookup_insert_eq. split.
      * intros _. right. exists elm. split; [left | done].
      * intros _. left. by eexists.
    + rewrite lookup_insert_ne by done. split.
      * intros [H | (x & Hx & Hs)]; [by left |].
        right. exists x. split; [by right | done].
      * intros [H | (x & Hx & Hs)]; [by left |].
        apply elem_of_cons in Hx as [-> | Hx]; [done |].
        right. by exists x.
Qed.

End StoreMore.

(** X9: for a message that carries an id, a symbol and the four keys
    that the log line reads (side, qty, position_side and price, as
    every [order_msg] does), [add_new_order] leaves the id filed under
    that symbol, touches no other symbol, and returns [True] exactly
    when the id was not filed there before (it falls off its end,
    returning [None], otherwise). *)
Theorem add_new_order_files_order (store : gmap string (list Forager.open_order))
    (o : Forager.order_msg) (oid sym : string) :
  Forager.msg_id o = Some oid -> Forager.msg_symbol o = Some sym ->
  (exists l, (Forager.add_new_order store (Some o)).1 !! sym = Some l
             /\ oid ∈ Forager.ids_of l)
  /\ (forall sym', sym' <> sym ->
        (Forager.add_new_order store (Some o)).1 !! sym' = store !! sym')
  /\ ((Forager.add_new_order store (Some o)).2 = Forager.ret_True
      <-> oid ∉ Forager.ids_of (default [] (store !! sym)))
  /\ (Forager.add_new_order store (Some o)).2 <> Forager.ret_False.
Proof.
  intros Hid Hsym. unfold Forager.add_new_order. rewrite Hid, Hsym.
  pose proof (ensure_symbol_lookup store sym) as Hl.
  assert (Hd : default [] (Forager.ensure_symbol store sym !! sym)
               = default [] (store !! sym)).
  { unfold Forager.ensure_symbol. destruct (store !! sym) as [l|] eqn:E.
    - now rewrite E.
    - now rewrite lookup_insert_eq. }
  assert (Ho : forall sym', sym' <> sym ->
             Forager.ensure_symbol store sym !! sym' = store !! sym').
  { intros sym' Hne. unfold Forager.ensure_symbol.
    destruct (store !! sym); [reflexivity|]. now rewrite lookup_insert_ne. }
  rewrite Hd.
  destruct (bool_decide (oid ∉ Forager.ids_of (default [] (store !! sym)))) eqn:Hb.
  - apply bool_decide_eq_true in Hb. cbn [fst snd]. repeat split.
    + eexists. split; [apply lookup_insert_eq|].
      unfold Forager.ids_of. rewrite fmap_app, elem_of_app. right. simpl. left.
    + intros sym' Hne. rewrite lookup_insert_ne by congruence. now apply Ho.
    + done.
    + discriminate.
  - apply bool_decide_eq_false in Hb. cbn [fst snd]. repeat split.
    + destruct (ensure_symbol_is_Some store sym) as [l El].
      exists l. split; [exact El|].
      rewrite El in Hd. simpl in Hd. subst l.
      destruct (decide (oid ∈ Forager.ids_of (default [] (store !! sym)))); [done|].
      exfalso. by apply Hb.
    + exact Ho.
    + discriminate.
    + intros Hn. by apply Hb in Hn.
    + discriminate.
Qed.

Lemma add_new_order_files_order_witness :
  (exists l, (Forager.add_new_order Forager.store_o1 (Some Forager.msg_o1)).1 !! "A" = Some l
             /\ "o1" ∈ Forager.ids_of l)
  /\ (forall sym', sym' <> "A" ->
        (Forager.add_new_order Forager.store_o1 (Some Forager.msg_o1)).1 !! sym'
        = Forager.store_o1 !! sym')
  /\ ((Forager.add_new_order Forager.store_o1 (Some Forager.msg_o1)).2 = Forager.ret_True
      <-> "o1" ∉ Forager.ids_of (default [] (Forager.store_o1 !! "A")))
  /\ (Forager.add_new_order Forager.store_o1 (Some Forager.msg_o1)).2 <> Forager.ret_False.
Proof.
  apply (add_new_order_files_order Forager.store_o1 Forager.msg_o1 "o1" "A"); reflexivity.
Defined.

(** X10: for a message that carries an id, a symbol and the four keys
    that the log line reads (side, qty, position_side and price, as
    every [order_msg] does), [remove_cancelled_order] leaves under that
    symbol exactly the orders with another id, in their order, touches
    no other symbol, and returns [True] exactly when the id was filed
    there. *)
Theorem remove_cancelled_order_removes (store : gmap string (list Forager.open_order))
    (o : Forager.order_msg) (oid sym : string) :
  Forager.msg_id o = Some oid -> Forager.msg_symbol o = Some sym ->
  (Forager.remove_cancelled_order store (Some o)).1 !! sym
  = Some (List.filter (λ x, negb (String.eqb (Forager.oo_id x) oid))
                      (default [] (store !! sym)))
  /\ (oid ∉ Forager.ids_of
              (default [] ((Forager.remove_cancelled_order store (Some o)).1 !! sym)))
  /\ (forall sym', sym' <> sym ->
        (Forager.remove_cancelled_order store (Some o)).1 !! sym' = store !! sym')
  /\ ((Forager.remove_cancelled_order store (Some o)).2 = Forager.ret_True
      <-> oid ∈ Forager.ids_of (default [] (store !! sym))).
Proof.
  intros Hid Hsym.
  assert (Hd : default [] (Forager.ensure_symbol store sym !! sym)
               = default [] (store !! sym)).
  { unfold Forager.ensure_symbol. destruct (store !! sym) as [l|] eqn:E.
    - now rewrite E.
    - now rewrite lookup_insert_eq. }
  assert (Ho : forall sym', sym' <> sym ->
             Forager.ensure_symbol store sym !! sym' = store !! sym').
  { intros sym' Hne. unfold Forager.ensure_symbol.
    destruct (store !! sym); [reflexivity|]. now rewrite lookup_insert_ne. }
  assert (Hgone : oid ∉ Forager.ids_of
            (List.filter (λ x, negb (String.eqb (Forager.oo_id x) oid))
                         (default [] (store !! sym)))).
  { unfold Forager.ids_of. intros Hin.
    apply list_elem_of_fmap in Hin as (x & Hx & Hin).
    apply list_elem_of_In, filter_In in Hin as [_ Hin].
    apply negb_true_iff, String.eqb_neq in Hin. congruence. }
  assert (Hfirst : (Forager.remove_cancelled_order store (Some o)).1 !! sym
    = Some (List.filter (λ x, negb (String.eqb (Forager.oo_id x) oid))
                        (default [] (store !! sym)))).
  { unfold Forager.remove_cancelled_order. rewrite Hid, Hsym, Hd.
    destruct (bool_decide (oid ∈ Forager.ids_of (default [] (store !! sym)))) eqn:Hb;
      cbn [fst].
    - apply lookup_insert_eq.
    - apply bool_decide_eq_false in Hb. rewrite (filter_other_ids _ _ Hb).
      destruct (ensure_symbol_is_Some store sym) as [l El].
      rewrite El in Hd. simpl in Hd. now subst l. }
  split; [exact Hfirst|]. rewrite Hfirst. split; [exact Hgone|].
  unfold Forager.remove_cancelled_order. rewrite Hid, Hsym, Hd.
  destruct (bool_decide (oid ∈ Forager.ids_of (default [] (store !! sym)))) eqn:Hb;
    cbn [fst snd].
  - apply bool_decide_eq_true in Hb. split; [|done].
    intros sym' Hne. rewrite lookup_insert_ne by congruence. now apply Ho.
  - apply bool_decide_eq_false in Hb. split; [exact Ho|].
    split; [discriminate | intros Hin; by apply Hb in Hin].
Qed.

Lemma remove_cancelled_order_removes_witness :
  (Forager.remove_cancelled_order Forager.store_o1 (Some Forager.msg_o1)).1 !! "A"
  = Some (List.filter (λ x, negb (String.eqb (Forager.oo_id x) "o1"))
                      (default [] (Forager.store_o1 !! "A")))
  /\ ("o1" ∉ Forager.ids_of
        (default [] ((Forager.remove_cancelled_order Forager.store_o1
                        (Some Forager.msg_o1)).1 !! "A")))
  /\ (forall sym', sym' <> "A" ->
        (Forager.remove_cancelled_order Forager.store_o1 (Some Forager.msg_o1)).1 !! sym'
        = Forager.store_o1 !! sym')
  /\ ((Forager.remove_cancelled_order Forager.store_o1 (Some Forager.msg_o1)).2
      = Forager.ret_True
      <-> "o1" ∈ Forager.ids_of (default [] (Forager.store_o1 !! "A"))).
Proof.
  apply (remove_cancelled_order_removes Forager.store_o1 Forager.msg_o1 "o1" "A");
    reflexivity.
Defined.

(** X11: adding an order whose id is new under its symbol and then
    removing it restores the store, up to the empty list that the first
    call files for a symbol the store did not know. *)
Theorem add_then_remove_restores (store : gmap string (list Forager.open_order))
    (o : Forager.order_msg) (oid sym : string) :
  Forager.msg_id o = Some oid -> Forager.msg_symbol o = Some sym ->
  oid ∉ Forager.ids_of (default [] (store !! sym)) ->
  (Forager.remove_cancelled_order (Forager.add_new_order store (Some o)).1 (Some o)).1
  = Forager.ensure_symbol store sym.
Proof.
  intros Hid Hsym Hnew.
  assert (Hd : default [] (Forager.ensure_symbol store sym !! sym)
               = default [] (store !! sym)).
  { unfold Forager.ensure_symbol. destruct (store !! sym) as [l|] eqn:E.
    - now rewrite E.
    - now rewrite lookup_insert_eq. }
  unfold Forager.add_new_order. rewrite Hid, Hsym, Hd.
  rewrite bool_decide_eq_true_2 by exact Hnew. cbn [fst].
  unfold Forager.remove_cancelled_order. rewrite Hid, Hsym.
  set (cur := default [] (store !! sym)) in *.
  set (new := Forager.open_order_of_msg o oid sym).
  assert (He : Forager.ensure_symbol
                 (<[sym := cur ++ [new]]> (Forager.ensure_symbol store sym)) sym
               = <[sym := cur ++ [new]]> (Forager.ensure_symbol store sym)).
  { apply ensure_symbol_present. rewrite lookup_insert_eq. by eexists. }
  rewrite He, lookup_insert_eq. cbn [default from_option id].
  rewrite bool_decide_eq_true_2.
  - cbn [fst]. rewrite insert_insert_eq.
    rewrite List.filter_app, (filter_other_ids _ _ Hnew). simpl.
    rewrite String.eqb_refl. simpl. rewrite app_nil_r.
    apply insert_id.
    destruct (ensure_symbol_is_Some store sym) as [l El].
    rewrite El in *. simpl in Hd. now subst l.
  - unfold Forager.ids_of. rewrite fmap_app, elem_of_app. right. simpl. left.
Qed.

Lemma add_then_remove_restores_witness :
  (Forager.remove_cancelled_order (Forager.add_new_order ∅ (Some Forager.msg_o1)).1
     (Some Forager.msg_o1)).1
  = Forager.ensure_symbol ∅ "A".
Proof.
  apply (add_then_remove_restores ∅ Forager.msg_o1 "o1" "A");
    [reflexivity | reflexivity | ].
  rewrite lookup_empty. simpl. apply not_elem_of_nil.
Defined.

(** X12: a refresh groups the fetched orders by symbol: a symbol is a
    key of the rebuilt store exactly when some fetched order names it,
    and its list holds the fetched orders of that symbol in the order
    in which the exchange returned them. *)
Theorem update_open_orders_groups (fetched : list Forager.open_order) (s : string) :
  (is_Some (Forager.update_open_orders fetched !! s)
   <-> exists x, x ∈ fetched /\ Forager.oo_symbol x = s)
  /\ default [] (Forager.update_open_orders fetched !! s)
     = List.filter (λ x, String.eqb (Forager.oo_symbol x) s) fetched.
Proof.
  unfold Forager.update_open_orders. split.
  - rewrite update_open_orders_keys. rewrite lookup_empty. split.
    + intros [[l Hl] | H]; [discriminate | exact H].
    + intros H. by right.
  - rewrite update_open_orders_from. now rewrite lookup_empty.
Qed.

(** ** Order updates from the websocket (passivbot_forager.py) *)

Section Handlers.
Import Forager.

Lemma handle_order_update_invariants (upds : list order_update) :
  ∀ (store : gmap string (list open_order)) (rf : bool),
    unique_ids store → well_keyed store →
    unique_ids (handle_order_update store rf upds).1
    ∧ well_keyed (handle_order_update store rf upds).1
    ∧ (rf = true → (handle_order_update store rf upds).2 = true).
Proof.
  induction upds as [|upd rest IH]; intros store rf Hu Hk;
    cbn [handle_order_update]; [done|].
  destruct (upd_status upd) as [status|]; [|done].
  destruct (String.eqb status "closed"
            || match upd_filled upd with
               | Some filled => Qlt_bool 0 filled
               | None => false
               end).
  { destruct (msg_symbol (upd_order upd)); [|done].
    destruct (IH store true Hu Hk) as (H1 & H2 & H3). auto. }
  case_bool_decide.
  { apply IH; [by apply unique_ids_remove | by apply well_keyed_remove]. }
  destruct (String.eqb status "open").
  - apply IH; [by apply unique_ids_add | by apply well_keyed_add].
  - by apply IH.
Qed.

End Handlers.

(** X13: whatever the batch of order updates, [handle_order_update]
    keeps the store free of duplicate ids within a symbol and keeps
    every order filed under its own symbol, and it never clears
    [recent_fill]. *)
Theorem handle_order_update_keeps_store (store : gmap string (list Forager.open_order))
    (recent_fill : bool) (upd_list : list Forager.order_update) :
  Forager.unique_ids store -> Forager.well_keyed store ->
  Forager.unique_ids (Forager.handle_order_update store recent_fill upd_list).1
  /\ Forager.well_keyed (Forager.handle_order_update store recent_fill upd_list).1
  /\ (recent_fill = true ->
      (Forager.handle_order_update store recent_fill upd_list).2 = true).
Proof. intros Hu Hk. by apply handle_order_update_invariants. Qed.

Lemma handle_order_update_keeps_store_witness :
  Forager.unique_ids
    (Forager.handle_order_update Forager.store_o1 true
       [{| Forager.upd_status := Some "canceled"; Forager.upd_filled := None;
           Forager.upd_order := Forager.msg_o1 |}]).1
  /\ Forager.well_keyed
       (Forager.handle_order_update Forager.store_o1 true
          [{| Forager.upd_status := Some "canceled"; Forager.upd_filled := None;
              Forager.upd_order := Forager.msg_o1 |}]).1
  /\ (true = true ->
      (Forager.handle_order_update Forager.store_o1 true
         [{| Forager.upd_status := Some "canceled"; Forager.upd_filled := None;
             Forager.upd_order := Forager.msg_o1 |}]).2 = true).
Proof.
  assert (Hr : Forager.reachable_with Forager.distinct_ids Forager.store_o1)
    by apply Forager.reach_add, Forager.reach_init.
  apply reachable_invariant in Hr as [Hu Hk].
  exact (handle_order_update_keeps_store Forager.store_o1 true _ Hu Hk).
Defined.

(** X14: an update without a ["status"] ends the processing of its
    batch: the updates before it take effect, the updates after it are
    dropped. *)
Theorem handle_order_update_stops_at_missing_status
    (store : gmap string (list Forager.open_order)) (recent_fill : bool)
    (before after : list Forager.order_update) (bad : Forager.order_update) :
  Forager.upd_status bad = None ->
  Forager.handle_order_update store recent_fill (before ++ bad :: after)
  = Forager.handle_order_update store recent_fill before.
Proof.
  intros Hbad. revert store recent_fill.
  induction before as [|upd rest IH]; intros store rf;
    cbn [app Forager.handle_order_update].
  - now rewrite Hbad.
  - destruct (Forager.upd_status upd) as [status|]; [|reflexivity].
    destruct (String.eqb status "closed"
              || match Forager.upd_filled upd with
                 | Some filled => Forager.Qlt_bool 0 filled
                 | None => false
                 end).
    { destruct (Forager.msg_symbol (Forager.upd_order upd)); [apply IH | reflexivity]. }
    case_bool_decide; [apply IH|].
    destruct (String.eqb status "open"); apply IH.
Qed.

Lemma handle_order_update_stops_at_missing_status_witness :
  Forager.handle_order_update ∅ false
    ([] ++ {| Forager.upd_status := None; Forager.upd_filled := None;
              Forager.upd_order := Forager.msg_o1 |}
        :: [{| Forager.upd_status := Some "open"; Forager.upd_filled := None;
               Forager.upd_order := Forager.msg_o1 |}])
  = Forager.handle_order_update ∅ false [].
Proof.
  apply (handle_order_update_stops_at_missing_status ∅ false []). reflexivity.
Defined.

(** ** Loops and the clock, continued (passivbot_forager.py) *)

Section Loops.
Import Forager.

Lemma minute_of_mono (a b : Q) : a <= b → (minute_of a <= minute_of b)%Z.
Proof.
  intros H. unfold minute_of. apply Qfloor_resp_le.
  apply Qmult_le_compat_r; [exact H | discriminate].
Qed.

Lemma run_execution_loop_from_minutes (clock : list pass_clock) :
  ∀ prev_minute : Z,
    StronglySorted (λ c c', t_start c <= t_start c') clock →
    Forall (λ c, (prev_minute <= minute_of (t_start c))%Z) clock →
    StronglySorted (λ a b : tick, (minute_of a.1 < minute_of b.1)%Z)
      (run_execution_loop_from prev_minute clock)
    ∧ Forall (λ a : tick, (prev_minute < minute_of a.1)%Z)
        (run_execution_loop_from prev_minute clock).
Proof.
  induction clock as [|c rest IH]; intros prev Hs Hp; simpl.
  { split; constructor. }
  apply StronglySorted_inv in Hs as [Hs Hc].
  apply Forall_cons in Hp as [Hpc Hp].
  unfold run_execution_loop_pass.
  destruct (Z.eqb_spec (minute_of (t_start c)) prev) as [Heq|Hne]; cbn [negb fst snd].
  - apply IH; assumption.
  - assert (Hlater : Forall (λ c', (minute_of (t_start c) <= minute_of (t_start c'))%Z) rest).
    { eapply Forall_impl; [exact Hc|]. intros c' Hle. by apply minute_of_mono. }
    destruct (IH (minute_of (t_start c)) Hs Hlater) as [IH1 IH2].
    split.
    + constructor; [exact IH1|]. simpl. exact IH2.
    + constructor; [simpl; lia|].
      eapply Forall_impl; [exact IH2|]. simpl. intros a Ha. lia.
Qed.

Lemma maintain_thing_sorted (update_interval : Q) (clock : list maintain_clock) :
  ∀ last : Q,
    Forall (λ c, m_check c <= m_stamp c) clock →
    Sorted (λ t t', t + update_interval < t') (last :: maintain_thing update_interval last clock).
Proof.
  induction clock as [|c rest IH]; intros last Hc; simpl.
  { repeat constructor. }
  apply Forall_cons in Hc as [Hc Hrest].
  destruct (Qlt_bool update_interval (m_check c - last)) eqn:Hg.
  - apply Qlt_bool_iff in Hg. constructor; [by apply IH|].
    constructor. lra.
  - by apply IH.
Qed.

Lemma length_string_of_list_ascii (l : list Ascii.ascii) :
  String.length (String.string_of_list_ascii l) = length l.
Proof. induction l as [|a l IH]; simpl; [reflexivity | now rewrite IH]. Qed.

End Loops.

(** X15: on a clock that does not run backwards, [run_execution_loop]
    runs its ticks in strictly increasing wall-clock minutes, all later
    than the minute in which the loop started: never two ticks in one
    minute. *)
Theorem run_execution_loop_once_per_minute (started : Q) (clock : list Forager.pass_clock) :
  StronglySorted (λ c c', Forager.t_start c <= Forager.t_start c') clock ->
  Forall (λ c, started <= Forager.t_start c) clock ->
  StronglySorted (λ a b : Forager.tick, (Forager.minute_of a.1 < Forager.minute_of b.1)%Z)
    (Forager.run_execution_loop started clock)
  /\ Forall (λ a : Forager.tick, (Forager.minute_of started < Forager.minute_of a.1)%Z)
       (Forager.run_execution_loop started clock).
Proof.
  intros Hs Hp. unfold Forager.run_execution_loop.
  apply run_execution_loop_from_minutes; [exact Hs|].
  eapply Forall_impl; [exact Hp|]. intros c Hc. by apply minute_of_mono.
Qed.

Lemma run_execution_loop_once_per_minute_witness :
  StronglySorted (λ a b : Forager.tick, (Forager.minute_of a.1 < Forager.minute_of b.1)%Z)
    (Forager.run_execution_loop 0
       [{| Forager.t_start := 30000; Forager.t_tick := 30000; Forager.t_done := 30000;
           Forager.raised := false |};
        {| Forager.t_start := 61000; Forager.t_tick := 61000; Forager.t_done := 62000;
           Forager.raised := false |};
        {| Forager.t_start := 62100; Forager.t_tick := 62100; Forager.t_done := 62100;
           Forager.raised := false |};
        {| Forager.t_start := 125000; Forager.t_tick := 125000; Forager.t_done := 126000;
           Forager.raised := false |}])
  /\ Forall (λ a : Forager.tick, (Forager.minute_of 0 < Forager.minute_of a.1)%Z)
       (Forager.run_execution_loop 0
          [{| Forager.t_start := 30000; Forager.t_tick := 30000; Forager.t_done := 30000;
              Forager.raised := false |};
           {| Forager.t_start := 61000; Forager.t_tick := 61000; Forager.t_done := 62000;
              Forager.raised := false |};
           {| Forager.t_start := 62100; Forager.t_tick := 62100; Forager.t_done := 62100;
              Forager.raised := false |};
           {| Forager.t_start := 125000; Forager.t_tick := 125000; Forager.t_done := 126000;
              Forager.raised := false |}]).
Proof.
  apply (run_execution_loop_once_per_minute 0).
  - repeat constructor; discriminate.
  - repeat constructor; discriminate.
Defined.

(** X16: when the clock does not run backwards between the guard and the
    assignment of a pass, [maintain_thing] calls its update function at
    timestamps more than the update interval apart, the first of them
    more than the interval after the initial timestamp. *)
Theorem maintain_thing_throttled (update_interval last_update_timestamp : Q)
    (clock : list Forager.maintain_clock) :
  Forall (λ c, Forager.m_check c <= Forager.m_stamp c) clock ->
  Sorted (λ t t', t + update_interval < t')
    (last_update_timestamp
     :: Forager.maintain_thing update_interval last_update_timestamp clock).
Proof. apply maintain_thing_sorted. Qed.

Lemma maintain_thing_throttled_witness :
  Sorted (λ t t', t + 60000 < t')
    (0 :: Forager.maintain_thing 60000 0
            [{| Forager.m_check := 59000; Forager.m_stamp := 59001 |};
             {| Forager.m_check := 60001; Forager.m_stamp := 60002 |};
             {| Forager.m_check := 120002; Forager.m_stamp := 120003 |};
             {| Forager.m_check := 120003; Forager.m_stamp := 120004 |}]).
Proof.
  apply (maintain_thing_throttled 60000 0).
  repeat constructor; discriminate.
Defined.

(** X17: with a maximum length that is not negative,
    [format_custom_ids] returns as many orders as it is given, each
    with a custom id no longer than the maximum and with every other
    field unchanged. *)
Theorem format_custom_ids_bounded (shorten_custom_id : string → string)
    (uuid4_hex : nat → string) (max_length : Z) (orders : list Forager.order)
    (i : nat) (x : Forager.order) :
  (0 <= max_length)%Z ->
  Forager.format_custom_ids shorten_custom_id uuid4_hex max_length orders !! i = Some x ->
  length (Forager.format_custom_ids shorten_custom_id uuid4_hex max_length orders)
  = length orders
  /\ exists o c,
       orders !! i = Some o
       /\ Forager.custom_id x = Some c
       /\ (Z.of_nat (String.length c) <= max_length)%Z
       /\ Forager.symbol x = Forager.symbol o /\ Forager.side x = Forager.side o
       /\ Forager.position_side x = Forager.position_side o
       /\ Forager.qty x = Forager.qty o /\ Forager.price x = Forager.price o
       /\ Forager.reduce_only x = Forager.reduce_only o /\ Forager.id x = Forager.id o.
Proof.
  intros Hm Hx. unfold Forager.format_custom_ids in *.
  split; [apply length_imap|].
  rewrite list_lookup_imap in Hx.
  destruct (orders !! i) as [o|] eqn:Ho; [|discriminate].
  simpl in Hx. injection Hx as <-.
  exists o. eexists. split; [reflexivity|]. split; [reflexivity|].
  split; [|repeat split].
  unfold Forager.str_slice_to. rewrite length_string_of_list_ascii.
  by apply slice_to_length.
Qed.

Lemma format_custom_ids_bounded_witness :
  exists x,
    Forager.format_custom_ids (λ s, s) (λ _, "0123456789abcdef0123456789abcdef")
      Forager.custom_id_max_length [Forager.order_e1] !! 0%nat = Some x
    /\ exists c, Forager.custom_id x = Some c
                 /\ (Z.of_nat (String.length c) <= Forager.custom_id_max_length)%Z.
Proof.
  eexists. split; [vm_compute; reflexivity|].
  destruct (format_custom_ids_bounded (λ s, s) (λ _, "0123456789abcdef0123456789abcdef")
              Forager.custom_id_max_length [Forager.order_e1] 0 _
              ltac:(discriminate) eq_refl) as (_ & o & c & _ & Hc & Hlen & _).
  exists c. split; [exact Hc | exact Hlen].
Defined.

(** ** The ideal orders and the queues, continued (passivbot_forager.py) *)

Section EngineMore.
Import Forager.
Context `{ext : Externals}.

Lemma Qabs_nonzero_pos (q : Q) : ¬ q == 0 → 0 < Qabs q.
Proof.
  intros Hq. destruct (Qlt_le_dec 0 (Qabs q)) as [H|H]; [exact H|].
  exfalso. apply Hq. apply Qabs_Qle_condition in H. lra.
Qed.

(** Where an order of the filtered list comes from. *)
Lemma filter_ideal_elem (self : Passivbot) (s : string) (l : list (Q * otuple)) :
  ∀ (seen : gset string) (r : list order),
    filter_ideal self s seen l = Ok r → ∀ x, x ∈ r →
    ∃ d o, (d, o) ∈ l
           ∧ ¬ t_qty o == 0
           ∧ ((str_in "initial" (t_tag o) || str_in "unstuck" (t_tag o)) = true →
              d <= price_distance_threshold self)
           ∧ determine_side_from_order_tuple o = Ok (side x)
           ∧ x = {| symbol := s; side := side x;
                    position_side := if str_in "long" (t_tag o) then long else short;
                    qty := Qabs (t_qty o); price := t_price o;
                    reduce_only := str_in "close" (t_tag o);
                    id := None; custom_id := Some (t_tag o) |}.
Proof.
  induction l as [|[d o] l IH]; cbn [filter_ideal]; intros seen r H x Hx.
  { injection H as <-. by apply elem_of_nil in Hx. }
  assert (Hrec : ∀ seen', filter_ideal self s seen' l = Ok r →
            ∃ d0 o0, (d0, o0) ∈ (d, o) :: l
              ∧ ¬ t_qty o0 == 0
              ∧ ((str_in "initial" (t_tag o0) || str_in "unstuck" (t_tag o0)) = true →
                 d0 <= price_distance_threshold self)
              ∧ determine_side_from_order_tuple o0 = Ok (side x)
              ∧ x = {| symbol := s; side := side x;
                       position_side := if str_in "long" (t_tag o0) then long else short;
                       qty := Qabs (t_qty o0); price := t_price o0;
                       reduce_only := str_in "close" (t_tag o0);
                       id := None; custom_id := Some (t_tag o0) |}).
  { intros seen' H'. destruct (IH seen' r H' x Hx) as (d0 & o0 & Hin & Hrest).
    exists d0, o0. split; [by right | exact Hrest]. }
  destruct (Qeq_bool (t_qty o) 0) eqn:Hq; cbn [orb] in H; [by eapply Hrec|].
  destruct ((str_in "initial" (t_tag o) || str_in "unstuck" (t_tag o))
            && Qlt_bool (price_distance_threshold self) d) eqn:Hfar; [by eapply Hrec|].
  case_bool_decide; [by eapply Hrec|].
  bind_ok H. bind_ok H. injection H as <-.
  apply elem_of_cons in Hx as [->|Hx].
  - exists d, o. split; [left|]. split; [by apply Qeq_bool_neq|].
    split; [|split; [exact E | reflexivity]].
    intros Htag. rewrite Htag in Hfar. cbn [andb] in Hfar.
    by apply Qlt_bool_false_iff in Hfar.
  - destruct (IH _ _ E0 x Hx) as (d0 & o0 & Hin & Hrest).
    exists d0, o0. split; [by right | exact Hrest].
Qed.


Lemma with_pprice_diff_elem (self : Passivbot) (s : string) (cur : list otuple)
    (wd : list (Q * otuple)) (d : Q) (o : otuple) :
  with_pprice_diff self s cur = Ok wd → (d, o) ∈ wd →
  o ∈ cur ∧ ∃ tk, tickers self !! s = Some tk ∧ d = calc_diff (t_price o) (last tk).
Proof.
  unfold with_pprice_diff. destruct cur as [|o0 cur].
  { intros [= <-] Hin. by apply elem_of_nil in Hin. }
  intros H Hin. bind_ok H. injection H as <-.
  assert (Hin' : (d, o) ∈ (λ x, (calc_diff (t_price x) (last a), x)) <$> (o0 :: cur))
    by exact Hin.
  apply list_elem_of_fmap in Hin' as (o' & [= -> ->] & Hin').
  split; [exact Hin'|]. exists a. split; [by apply getitem_Ok | reflexivity].
Qed.

Lemma filter_all_lookup (self : Passivbot) (tuples : gmap string (list otuple))
    (symbols : list string) (ideal : gmap string (list order)) (s : string)
    (l : list order) :
  filter_all self symbols tuples = Ok ideal → ideal !! s = Some l →
  ∃ cur wd, tuples !! s = Some cur
            ∧ with_pprice_diff self s cur = Ok wd
            ∧ filter_ideal self s ∅ (sorted with_diff_leb wd) = Ok l.
Proof.
  revert ideal. induction symbols as [|s0 rest IH]; cbn [filter_all]; intros ideal H Hl.
  { injection H as <-. by rewrite lookup_empty in Hl. }
  bind_ok H. bind_ok H. bind_ok H. bind_ok H. injection H as <-.
  destruct (decide (s0 = s)) as [->|Hne].
  - rewrite lookup_insert_eq in Hl. injection Hl as <-.
    exists a, a0. split; [by apply getitem_Ok | done].
  - rewrite lookup_insert_ne in Hl by done. by eapply IH.
Qed.

Lemma unstuck_loop_long_only (self : Passivbot) (ideal : gmap string (list otuple))
    (l : list stuck_entry) (s : string) (c : otuple) :
  unstuck_loop self ideal l = Ok (s, c) →
  (s = "" ∧ c = (0, 0, ""))
  ∨ (t_tag c = "unstuck_close_long" ∧ ¬ t_qty c == 0
     ∧ ∃ d, (s, long, d) ∈ l).
Proof.
  induction l as [|[[s0 ps0] d0] rest IH]; cbn [unstuck_loop]; intros H.
  { injection H as <- <-. by left. }
  bind_ok H. destruct a as [c0|].
  - injection H as -> ->. right. destruct ps0.
    + split; [by apply unstuck_close_long_tag in E|].
      split; [|exists d0; left].
      unfold unstuck_close_long in E.
      bind_ok E. bind_ok E. bind_ok E. bind_ok E.
      destruct (ideal_closes_of ideal s long) as [|first ?]; [discriminate E|].
      destruct (Qle_bool _ _); [discriminate E|].
      bind_ok E. bind_ok E.
      destruct (Qne_bool _ _) eqn:Hq; [|discriminate E].
      injection E as <-. cbn [t_qty fst]. unfold Qne_bool in Hq.
      apply negb_true_iff in Hq. by apply Qeq_bool_neq.
    + by apply unstuck_close_short_none in E.
  - destruct (IH H) as [Hl | (Ht & Hq & d & Hin)]; [by left|].
    right. split; [done|]. split; [done|]. exists d. by right.
Qed.

End EngineMore.

(** X18: every ideal order that [calc_ideal_orders] returns for a symbol
    carries that symbol, a strictly positive quantity and no exchange
    id; it is reduce-only exactly when its tag contains "close", its
    position side is long exactly when the tag contains "long"; and if
    the tag contains "initial" or "unstuck", its price lies within
    [price_distance_threshold] of the last price. *)
Theorem ideal_orders_well_formed `{ext : Forager.Externals} (self : Forager.Passivbot)
    (ideal : gmap string (list Forager.order)) (s : string) (l : list Forager.order)
    (x : Forager.order) :
  Forager.calc_ideal_orders self = Forager.Ok ideal ->
  ideal !! s = Some l -> x ∈ l ->
  Forager.symbol x = s /\ 0 < Forager.qty x /\ Forager.id x = None
  /\ exists tag,
       Forager.custom_id x = Some tag
       /\ Forager.reduce_only x = Forager.str_in "close" tag
       /\ Forager.position_side x
          = (if Forager.str_in "long" tag then Forager.long else Forager.short)
       /\ ((Forager.str_in "initial" tag || Forager.str_in "unstuck" tag) = true ->
           exists tk, Forager.tickers self !! s = Some tk
                      /\ Forager.calc_diff (Forager.price x) (Forager.last tk)
                         <= Forager.price_distance_threshold self).
Proof.
  intros H Hl Hx. unfold Forager.calc_ideal_orders, Forager.unstuck_and_filter in H.
  bind_ok H. bind_ok H. bind_ok H.
  destruct (filter_all_lookup _ _ _ _ _ _ H Hl) as (cur & wd & Hcur & Hwd & Hf).
  destruct (filter_ideal_elem _ _ _ _ _ Hf x Hx) as (d & o & Hin & Hq & Hfar & _ & ->).
  apply elem_of_sorted in Hin.
  destruct (with_pprice_diff_elem _ _ _ _ _ _ Hwd Hin) as (_ & tk & Htk & ->).
  cbn. split; [reflexivity|]. split; [by apply Qabs_nonzero_pos|].
  split; [reflexivity|]. exists (Forager.t_tag o). repeat split.
  intros Htag. exists tk. split; [exact Htk | by apply Hfar].
Qed.

Lemma ideal_orders_well_formed_witness :
  exists x, Forager.ideal_S4 !! "A" = Some [x]
            /\ Forager.symbol x = "A" /\ 0 < Forager.qty x /\ Forager.id x = None.
Proof.
  eexists. split; [reflexivity|].
  destruct (ideal_orders_well_formed (ext := Forager.reference_externals)
              Forager.state_S4 Forager.ideal_S4 "A" _ _
              ltac:(vm_compute; reflexivity) eq_refl ltac:(left))
    as (Hs & Hq & Hid & _).
  split; [exact Hs | split; [exact Hq | exact Hid]].
Defined.



(** X20: [calc_unstucking_close] only ever proposes a close for a long:
    it returns either the empty proposal or a close with a quantity
    other than zero, tagged "unstuck_close_long", for a symbol whose
    long position counts as stuck.  No short position is ever unstuck. *)
Theorem unstuck_close_is_long `{ext : Forager.Externals} (self : Forager.Passivbot)
    (ideal_orders : gmap string (list Forager.otuple)) (s : string) (c : Forager.otuple) :
  Forager.calc_unstucking_close self ideal_orders = Forager.Ok (s, c) ->
  (s = "" /\ c = (0, 0, ""))
  \/ (Forager.t_tag c = "unstuck_close_long" /\ ~ Forager.t_qty c == 0
      /\ Forager.counts_as_stuck self s Forager.long).
Proof.
  intros H. unfold Forager.calc_unstucking_close in H. bind_ok H.
  destruct a as [|e0 l0] eqn:El; [injection H as <- <-; by left|].
  rewrite <- El in *. clear El.
  apply unstuck_loop_long_only in H as [Hl | (Ht & Hq & d & Hin)]; [by left|].
  right. split; [exact Ht|]. split; [exact Hq|].
  apply elem_of_sorted in Hin.
  exact (collect_stuck_elem _ _ _ _ E Hin).
Qed.

Lemma unstuck_close_is_long_witness :
  exists s c,
    Forager.calc_unstucking_close (ext := Forager.reference_externals)
      Forager.state_S5 Forager.ideal_S5 = Forager.Ok (s, c)
    /\ ((s = "" /\ c = (0, 0, ""))
        \/ (Forager.t_tag c = "unstuck_close_long" /\ ~ Forager.t_qty c == 0
            /\ Forager.counts_as_stuck (ext := Forager.reference_externals)
                 Forager.state_S5 s Forager.long)).
Proof.
  eexists _, _. split; [vm_compute; reflexivity|].
  apply (unstuck_close_is_long (ext := Forager.reference_externals)
           Forager.state_S5 Forager.ideal_S5).
  vm_compute. reflexivity.
Defined.

(** X21: when the unstuck close has a quantity other than zero,
    [calc_ideal_orders] replaces with it every proposal of its symbol
    whose tag contains "close", on both sides: the symbol keeps its
    other proposals in their order, followed by the unstuck close, and
    the other symbols keep theirs. *)
Theorem apply_unstucking_replaces_closes (ideal_orders ideal_orders' : gmap string (list Forager.otuple))
    (unstucking_symbol : string) (unstucking_close : Forager.otuple) :
  ~ Forager.t_qty unstucking_close == 0 ->
  Forager.apply_unstucking ideal_orders unstucking_symbol unstucking_close
  = Forager.Ok ideal_orders' ->
  (exists cur,
     ideal_orders !! unstucking_symbol = Some cur
     /\ ideal_orders' !! unstucking_symbol
        = Some (List.filter (λ x, negb (Forager.str_in "close" (Forager.t_tag x))) cur
                ++ [unstucking_close]))
  /\ (forall x, x ∈ default [] (ideal_orders' !! unstucking_symbol) ->
        Forager.str_in "close" (Forager.t_tag x) = true -> x = unstucking_close)
  /\ (forall s, s <> unstucking_symbol -> ideal_orders' !! s = ideal_orders !! s).
Proof.
  intros Hq H. unfold Forager.apply_unstucking in H.
  assert (Hne : Forager.Qne_bool (Forager.t_qty unstucking_close) 0 = true).
  { unfold Forager.Qne_bool. apply negb_true_iff.
    destruct (Qeq_bool (Forager.t_qty unstucking_close) 0) eqn:E; [|reflexivity].
    apply Qeq_bool_iff in E. by destruct Hq. }
  rewrite Hne in H. bind_ok H. injection H as <-.
  apply getitem_Ok in E. split; [|split].
  - exists a. split; [exact E | apply lookup_insert_eq].
  - intros x. rewrite lookup_insert_eq. cbn [default from_option id].
    intros [Hx|Hx]%elem_of_app Hc.
    + apply list_elem_of_In, filter_In in Hx as [_ Hx].
      rewrite Hc in Hx. discriminate Hx.
    + by apply list_elem_of_singleton in Hx.
  - intros s Hs. by rewrite lookup_insert_ne.
Qed.

Lemma apply_unstucking_replaces_closes_witness :
  exists ideal',
    Forager.apply_unstucking Forager.ideal_S5 "B"
      (- (1 # 10), 995 # 10, "unstuck_close_long") = Forager.Ok ideal'
    /\ (forall x, x ∈ default [] (ideal' !! "B") ->
          Forager.str_in "close" (Forager.t_tag x) = true ->
          x = (- (1 # 10), 995 # 10, "unstuck_close_long")).
Proof.
  eexists. split; [vm_compute; reflexivity|].
  apply (apply_unstucking_replaces_closes Forager.ideal_S5 _ "B"
           (- (1 # 10), 995 # 10, "unstuck_close_long"));
    [discriminate | vm_compute; reflexivity].
Defined.

(** X22: both queues of [calc_orders_to_cancel_and_create] come back in
    ascending order of the relative distance between order price and
    last price of the order's symbol. *)
Theorem queues_sorted_by_distance `{ext : Forager.Externals} (self : Forager.Passivbot)
    (to_cancel to_create : list Forager.order) :
  Forager.calc_orders_to_cancel_and_create self = Forager.Ok (to_cancel, to_create) ->
  Forager.queue_sorted self to_cancel /\ Forager.queue_sorted self to_create.
Proof.
  unfold Forager.calc_orders_to_cancel_and_create. intros H. bind_ok H.
  by apply reconcile_spec in H as (_ & _ & _ & _ & Hc & Hk).
Qed.

Lemma queues_sorted_by_distance_witness :
  Forager.queue_sorted Forager.state_batch [Forager.order_e1; Forager.order_c1]
  /\ Forager.queue_sorted Forager.state_batch [].
Proof.
  apply (queues_sorted_by_distance (ext := Forager.reference_externals)
           Forager.state_batch).
  vm_compute. reflexivity.
Defined.

(** X23: with caps that are not negative, a tick of
    [execute_to_exchange] hands to the exchange the head of each queue,
    in queue order and at most the cap of that queue. *)
Theorem execute_to_exchange_dispatches_heads `{ext : Forager.Externals}
    (self : Forager.Passivbot) (cancelled created : list Forager.order) :
  (0 <= Forager.max_n_cancellations_per_batch self)%Z ->
  (0 <= Forager.max_n_creations_per_batch self)%Z ->
  Forager.execute_to_exchange self = Forager.Ok (cancelled, created) ->
  exists to_cancel to_create,
    Forager.calc_orders_to_cancel_and_create self = Forager.Ok (to_cancel, to_create)
    /\ cancelled = take (Z.to_nat (Forager.max_n_cancellations_per_batch self)) to_cancel
    /\ created = take (Z.to_nat (Forager.max_n_creations_per_batch self)) to_create
    /\ (Z.of_nat (length cancelled) <= Forager.max_n_cancellations_per_batch self)%Z
    /\ (Z.of_nat (length created) <= Forager.max_n_creations_per_batch self)%Z.
Proof.
  intros Hc Hk H. unfold Forager.execute_to_exchange in H. bind_ok H.
  destruct a as [to_cancel to_create]. cbn [fst snd] in H.
  rewrite dispatch_is_head in H by assumption. injection H as <- <-.
  exists to_cancel, to_create. split; [reflexivity|].
  split; [reflexivity|]. split; [reflexivity|].
  rewrite !length_take. lia.
Qed.

Lemma execute_to_exchange_dispatches_heads_witness :
  exists to_cancel to_create,
    Forager.calc_orders_to_cancel_and_create (ext := Forager.reference_externals)
      Forager.state_batch = Forager.Ok (to_cancel, to_create)
    /\ [Forager.order_e1]
       = take (Z.to_nat (Forager.max_n_cancellations_per_batch Forager.state_batch)) to_cancel
    /\ [] = take (Z.to_nat (Forager.max_n_creations_per_batch Forager.state_batch)) to_create
    /\ (Z.of_nat (length [Forager.order_e1])
        <= Forager.max_n_cancellations_per_batch Forager.state_batch)%Z
    /\ (Z.of_nat (length (@nil Forager.order))
        <= Forager.max_n_creations_per_batch Forager.state_batch)%Z.
Proof.
  apply (execute_to_exchange_dispatches_heads (ext := Forager.reference_externals)
           Forager.state_batch [Forager.order_e1] []).
  - discriminate.
  - discriminate.
  - vm_compute. reflexivity.
Defined.

(** X24: handed more orders than the cap (a cap that is not negative),
    the adapter's [execute_cancellations] issues exactly cap
    cancellations and takes reduce-only orders first: it cancels an
    order that is not reduce-only only if it cancels every reduce-only
    order it was handed. *)
Theorem execute_cancellations_reduce_only_first (self : Forager.Passivbot)
    (orders : list Forager.order) :
  (0 <= Forager.max_n_cancellations_per_batch self)%Z ->
  (Forager.max_n_cancellations_per_batch self < Z.of_nat (length orders))%Z ->
  Z.of_nat (length (Forager.execute_cancellations self orders))
  = Forager.max_n_cancellations_per_batch self
  /\ forall x y,
       x ∈ Forager.execute_cancellations self orders -> Forager.reduce_only x = false ->
       y ∈ orders -> Forager.reduce_only y = true ->
       y ∈ Forager.execute_cancellations self orders.
Proof.
  intros Hc Hlen. rewrite execute_cancellations_prefers_reduce_only by assumption.
  set (n := Z.to_nat (Forager.max_n_cancellations_per_batch self)).
  set (ro := List.filter Forager.reduce_only orders).
  set (rest := List.filter (λ x, negb (Forager.reduce_only x)) orders).
  assert (Hsum : (length ro + length rest = length orders)%nat).
  { subst ro rest. clear. induction orders as [|o l IH]; simpl; [reflexivity|].
    destruct (Forager.reduce_only o); simpl; lia. }
  split.
  - rewrite length_take, length_app. lia.
  - intros x y Hx Hxr Hy Hyr. rewrite take_app in *.
    apply elem_of_app in Hx as [Hx|Hx].
    + apply elem_of_take in Hx as (i & Hx & _). apply list_elem_of_lookup_2 in Hx.
      apply list_elem_of_In, filter_In in Hx as [_ Hx]. congruence.
    + assert (Hn : (length ro < n)%nat).
      { destruct (decide (n - length ro = 0)%nat) as [Hz|Hz]; [|lia].
        rewrite Hz in Hx. by apply elem_of_nil in Hx. }
      apply elem_of_app. left. rewrite take_ge by lia.
      apply list_elem_of_In, filter_In. split; [by apply list_elem_of_In | exact Hyr].
Qed.

Lemma execute_cancellations_reduce_only_first_witness :
  Z.of_nat (length (Forager.execute_cancellations Forager.state_batch
                      [Forager.order_e1; Forager.order_c1]))
  = Forager.max_n_cancellations_per_batch Forager.state_batch
  /\ forall x y,
       x ∈ Forager.execute_cancellations Forager.state_batch
             [Forager.order_e1; Forager.order_c1] ->
       Forager.reduce_only x = false ->
       y ∈ [Forager.order_e1; Forager.order_c1] -> Forager.reduce_only y = true ->
       y ∈ Forager.execute_cancellations Forager.state_batch
             [Forager.order_e1; Forager.order_c1].
Proof.
  apply (execute_cancellations_reduce_only_first Forager.state_batch
           [Forager.order_e1; Forager.order_c1]); [discriminate | reflexivity].
Defined.

(** ** Dicts in insertion order, candles and the PnL ledger
    (passivbot_forager.py) *)

Section Dicts.
Import Forager.
Context {K V : Type} (eqb : K → K → bool).
Hypothesis eqb_refl : ∀ k, eqb k k = true.
Hypothesis eqb_sym : ∀ k k', eqb k k' = eqb k' k.
Hypothesis eqb_trans : ∀ k1 k2 k3, eqb k1 k2 = true → eqb k2 k3 = true → eqb k1 k3 = true.

Lemma dict_set_key (k : K) (v : V) (d : list (K * V)) (k' : K) (v' : V) :
  (k', v') ∈ dict_set eqb k v d → (∃ v'', (k', v'') ∈ d) ∨ k' = k.
Proof.
  induction d as [|[k0 v0] d IH]; simpl.
  - intros [= -> ->]%list_elem_of_singleton. by right.
  - destruct (eqb k0 k).
    + intros [[= -> ->]|Hin]%elem_of_cons; left.
      * exists v0. left.
      * exists v'. by right.
    + intros [[= -> ->]|Hin]%elem_of_cons.
      * left. exists v0. left.
      * destruct (IH Hin) as [[v'' H]|H]; [|by right]. left. exists v''. by right.
Qed.

Lemma dict_set_distinct (k : K) (v : V) (d : list (K * V)) :
  keys_distinct eqb d → keys_distinct eqb (dict_set eqb k v d).
Proof.
  unfold keys_distinct.
  induction d as [|[k0 v0] d IH]; simpl; intros Hd.
  - repeat constructor.
  - apply StronglySorted_inv in Hd as [Hd Hk0].
    destruct (eqb k0 k) eqn:E.
    + constructor; [exact Hd | exact Hk0].
    + constructor; [by apply IH|].
      apply Forall_forall. intros [k' v'] Hin. simpl.
      destruct (dict_set_key _ _ _ _ _ Hin) as [[v'' H]| ->]; [|exact E].
      rewrite Forall_forall in Hk0. exact (Hk0 _ H).
Qed.

Lemma dict_set_elem (k : K) (v : V) (d : list (K * V)) (k' : K) (v' : V) :
  keys_distinct eqb d →
  (k', v') ∈ dict_set eqb k v d →
  (eqb k' k = true ∧ v' = v) ∨ ((k', v') ∈ d ∧ eqb k' k = false).
Proof.
  unfold keys_distinct.
  induction d as [|[k0 v0] d IH]; simpl; intros Hd.
  - intros [= -> ->]%list_elem_of_singleton. left. by rewrite eqb_refl.
  - apply StronglySorted_inv in Hd as [Hd Hk0].
    destruct (eqb k0 k) eqn:E.
    + intros [[= -> ->]|Hin]%elem_of_cons; [by left|].
      right. split; [by right|].
      rewrite Forall_forall in Hk0. specialize (Hk0 _ Hin). simpl in Hk0.
      destruct (eqb k' k) eqn:E'; [|reflexivity].
      rewrite eqb_sym in E'. by rewrite (eqb_trans _ _ _ E E') in Hk0.
    + intros [[= -> ->]|Hin]%elem_of_cons.
      * right. split; [left | done].
      * destruct (IH Hd Hin) as [H|[H1 H2]]; [by left|].
        right. split; [by right | done].
Qed.

Lemma dict_set_has (k : K) (v : V) (d : list (K * V)) :
  ∃ k', (k', v) ∈ dict_set eqb k v d ∧ eqb k' k = true.
Proof.
  induction d as [|[k0 v0] d IH]; simpl.
  - exists k. split; [left | apply eqb_refl].
  - destruct (eqb k0 k) eqn:E.
    + exists k0. split; [left | done].
    + destruct IH as (k' & Hin & Hk). exists k'. split; [by right | done].
Qed.

Lemma dict_set_key_kept (k : K) (v : V) (d : list (K * V)) (k' : K) (v' : V) :
  (k', v') ∈ d → ∃ v'', (k', v'') ∈ dict_set eqb k v d.
Proof.
  induction d as [|[k0 v0] d IH]; simpl; [by intros ?%elem_of_nil|].
  destruct (eqb k0 k) eqn:E.
  - intros [[= -> ->]|Hin]%elem_of_cons.
    + exists v. left.
    + exists v'. by right.
  - intros [[= -> ->]|Hin]%elem_of_cons.
    + exists v0. left.
    + destruct (IH Hin) as [v'' H]. exists v''. by right.
Qed.

(** What a loop of assignments makes of a dict. *)
Lemma fold_dict_set {A : Type} (key : V → K) (kf : A → K) (vf : A → V) (l : list A) :
  ∀ d : list (K * V),
    keys_distinct eqb d →
    Forall (λ kv, eqb kv.1 (key kv.2) = true) d →
    Forall (λ a, eqb (kf a) (key (vf a)) = true) l →
    let d' := foldl (λ d a, dict_set eqb (kf a) (vf a) d) d l in
    keys_distinct eqb d'
    ∧ Forall (λ kv, eqb kv.1 (key kv.2) = true) d'
    ∧ (∀ k v, (k, v) ∈ d' →
         (∃ a, a ∈ l ∧ v = vf a)
         ∨ ((k, v) ∈ d ∧ ∀ a, a ∈ l → eqb k (kf a) = false))
    ∧ (∀ a, a ∈ l → ∃ k v, (k, v) ∈ d' ∧ eqb k (kf a) = true)
    ∧ (∀ k v, (k, v) ∈ d → ∃ v', (k, v') ∈ d').
Proof.
  induction l as [|a l IH]; intros d Hd Hkeyed Hl; cbn [foldl].
  { split; [done|]. split; [done|]. split; [|split].
    - intros k v Hin. right. split; [done|]. by intros a ?%elem_of_nil.
    - by intros a ?%elem_of_nil.
    - intros k v Hin. by exists v. }
  apply Forall_cons in Hl as [Ha Hl].
  assert (Hkeyed1 : Forall (λ kv, eqb kv.1 (key kv.2) = true)
                      (dict_set eqb (kf a) (vf a) d)).
  { apply Forall_forall. intros [k v] Hin. simpl.
    destruct (dict_set_elem _ _ _ _ _ Hd Hin) as [[Hk ->]|[Hin' _]].
    - by eapply eqb_trans.
    - rewrite Forall_forall in Hkeyed. exact (Hkeyed _ Hin'). }
  destruct (IH _ (dict_set_distinct _ _ _ Hd) Hkeyed1 Hl) as (H1 & H2 & H3 & H4 & H5).
  split; [exact H1|]. split; [exact H2|]. split; [|split].
  - intros k v Hin. destruct (H3 _ _ Hin) as [(a' & Ha' & ->)|[Hin1 Hno]].
    + left. exists a'. split; [by right | done].
    + destruct (dict_set_elem _ _ _ _ _ Hd Hin1) as [[Hk ->]|[Hin' Hk]].
      * left. exists a. split; [left | done].
      * right. split; [done|]. intros a' [->|Ha']%elem_of_cons; [done | by apply Hno].
  - intros a' [->|Ha']%elem_of_cons; [|by apply H4].
    destruct (dict_set_has (kf a) (vf a) d) as (k' & Hin & Hk).
    destruct (H5 _ _ Hin) as [v' Hv']. by exists k', v'.
  - intros k v Hin. destruct (dict_set_key_kept (kf a) (vf a) _ _ _ Hin) as [v'' H].
    by apply H5 in H.
Qed.

(** The values of a dict whose items are filed under their own keys
    have pairwise different keys. *)
Lemma values_distinct (key : V → K) (d : list (K * V)) :
  keys_distinct eqb d →
  Forall (λ kv, eqb kv.1 (key kv.2) = true) d →
  StronglySorted (λ a b, eqb (key a) (key b) = false) d.*2.
Proof.
  unfold keys_distinct. induction 1 as [|[k v] d Hd IH Hk]; intros Hkeyed; simpl.
  { constructor. }
  apply Forall_cons in Hkeyed as [Hkv Hkeyed]. simpl in Hkv.
  constructor; [by apply IH|].
  apply Forall_fmap, Forall_forall. intros [k' v'] Hin. simpl.
  rewrite Forall_forall in Hk, Hkeyed.
  specialize (Hk _ Hin). specialize (Hkeyed _ Hin). simpl in *.
  destruct (eqb (key v) (key v')) eqn:E; [|reflexivity].
  assert (H1 : eqb k (key v') = true) by (by eapply eqb_trans).
  rewrite eqb_sym in Hkeyed.
  by rewrite (eqb_trans _ _ _ H1 Hkeyed) in Hk.
Qed.

End Dicts.

Section Candles.
Import Forager.

Lemma Qeq_bool_sym (a b : Q) : Qeq_bool a b = Qeq_bool b a.
Proof.
  destruct (Qeq_bool a b) eqn:E1, (Qeq_bool b a) eqn:E2; try reflexivity.
  - apply Qeq_bool_iff in E1. symmetry in E1. apply Qeq_bool_iff in E1. congruence.
  - apply Qeq_bool_iff in E2. symmetry in E2. apply Qeq_bool_iff in E2. congruence.
Qed.

Lemma Qeq_bool_trans (a b c : Q) :
  Qeq_bool a b = true → Qeq_bool b c = true → Qeq_bool a c = true.
Proof.
  intros H1%Qeq_bool_iff H2%Qeq_bool_iff. apply Qeq_bool_iff. by rewrite H1.
Qed.

Lemma insert_sorted_strict (x : hlc) (l : list hlc) :
  StronglySorted (λ a b, hlc_ts a < hlc_ts b) l →
  Forall (λ y, Qeq_bool (hlc_ts x) (hlc_ts y) = false) l →
  StronglySorted (λ a b, hlc_ts a < hlc_ts b) (insert_sorted hlc_leb x l).
Proof.
  induction 1 as [|y l Hl IH Hy]; intros Hx; simpl.
  { repeat constructor. }
  apply Forall_cons in Hx as [Hxy Hx]. apply Qeq_bool_neq in Hxy.
  unfold hlc_leb at 1. destruct (Qle_bool (hlc_ts x) (hlc_ts y)) eqn:E.
  - apply Qle_bool_iff in E.
    assert (Hlt : hlc_ts x < hlc_ts y).
    { destruct (Qlt_le_dec (hlc_ts x) (hlc_ts y)) as [H|H]; [exact H|].
      exfalso. apply Hxy. lra. }
    constructor; [by constructor|].
    constructor; [exact Hlt|].
    eapply Forall_impl; [exact Hy|]. simpl. intros z Hz. lra.
  - assert (Hlt : hlc_ts y < hlc_ts x).
    { apply Qnot_le_lt. intros Hle. apply Qle_bool_iff in Hle. congruence. }
    constructor; [by apply IH|].
    apply Forall_forall. intros z Hz.
    apply (elem_of_Permutation_proper z _ _ (insert_sorted_perm hlc_leb x l)) in Hz.
    apply elem_of_cons in Hz as [->|Hz]; [exact Hlt|].
    rewrite Forall_forall in Hy. by apply Hy.
Qed.

Lemma sorted_strict (l : list hlc) :
  StronglySorted (λ a b, Qeq_bool (hlc_ts a) (hlc_ts b) = false) l →
  StronglySorted (λ a b, hlc_ts a < hlc_ts b) (sorted hlc_leb l).
Proof.
  induction 1 as [|x l Hl IH Hx]; simpl; [constructor|].
  apply insert_sorted_strict; [exact IH|].
  apply Forall_forall. intros y Hy. apply elem_of_sorted in Hy.
  rewrite Forall_forall in Hx. by apply Hx.
Qed.

Lemma StronglySorted_filter_bool {A : Type} (R : A → A → Prop) (p : A → bool)
    (l : list A) :
  StronglySorted R l → StronglySorted R (List.filter p l).
Proof.
  induction 1 as [|x l Hl IH Hx]; simpl; [constructor|].
  destruct (p x); [|exact IH].
  constructor; [exact IH|].
  apply Forall_forall. intros y Hy. apply list_elem_of_In, filter_In in Hy as [Hy _].
  rewrite Forall_forall in Hx. apply Hx. by apply list_elem_of_In.
Qed.

(** The merged dict of [update_hlcs_1m_single]. *)
Lemma merged_candles (stored candles : list hlc) :
  let d := dict_update Qeq_bool (dict_comp Qeq_bool hlc_ts stored)
             (dict_comp Qeq_bool hlc_ts candles) in
  StronglySorted (λ a b, Qeq_bool (hlc_ts a) (hlc_ts b) = false) d.*2
  ∧ (∀ x, x ∈ d.*2 →
       x ∈ candles ∨ (x ∈ stored ∧ ∀ c, c ∈ candles → ¬ hlc_ts c == hlc_ts x))
  ∧ (∀ c, c ∈ stored ++ candles → ∃ x, x ∈ d.*2 ∧ hlc_ts x == hlc_ts c).
Proof.
  pose proof (fold_dict_set Qeq_bool Qeq_bool_refl Qeq_bool_sym Qeq_bool_trans
                hlc_ts hlc_ts (λ x, x) stored []) as H1.
  pose proof (fold_dict_set Qeq_bool Qeq_bool_refl Qeq_bool_sym Qeq_bool_trans
                hlc_ts hlc_ts (λ x, x) candles []) as H2.
  assert (Hnil : keys_distinct Qeq_bool (@nil (Q * hlc))) by constructor.
  assert (Hself : ∀ l : list hlc,
            Forall (λ a, Qeq_bool (hlc_ts a) (hlc_ts a) = true) l).
  { intros l. apply Forall_forall. intros a _. apply Qeq_bool_refl. }
  cbv beta in H1, H2.
  specialize (H1 Hnil ltac:(constructor) (Hself stored)).
  specialize (H2 Hnil ltac:(constructor) (Hself candles)).
  cbn zeta in H1, H2.
  fold (dict_comp Qeq_bool hlc_ts stored) in H1.
  fold (dict_comp Qeq_bool hlc_ts candles) in H2.
  destruct H1 as (D1 & K1 & E1 & C1 & _). destruct H2 as (D2 & K2 & E2 & C2 & _).
  pose proof (fold_dict_set Qeq_bool Qeq_bool_refl Qeq_bool_sym Qeq_bool_trans
                hlc_ts fst snd (dict_comp Qeq_bool hlc_ts candles)
                (dict_comp Qeq_bool hlc_ts stored) D1 K1 K2) as H3.
  cbn zeta in H3.
  fold (dict_update Qeq_bool (dict_comp Qeq_bool hlc_ts stored)
          (dict_comp Qeq_bool hlc_ts candles)) in H3.
  destruct H3 as (D3 & K3 & E3 & C3 & P3).
  cbn zeta. split; [|split].
  - by apply (values_distinct Qeq_bool Qeq_bool_sym Qeq_bool_trans hlc_ts).
  - intros x Hx. apply list_elem_of_fmap in Hx as ([k v] & -> & Hin). simpl.
    destruct (E3 _ _ Hin) as [([k2 v2] & Hin2 & ->)|[Hin1 Hno]]; simpl.
    + left. destruct (E2 _ _ Hin2) as [(a & Ha & ->)|[Hn _]]; [exact Ha|].
      by apply elem_of_nil in Hn.
    + right. split.
      * destruct (E1 _ _ Hin1) as [(a & Ha & ->)|[Hn _]]; [exact Ha|].
        by apply elem_of_nil in Hn.
      * intros c Hc Heq. destruct (C2 _ Hc) as (k2 & v2 & Hin2 & Hk2).
        specialize (Hno _ Hin2). simpl in Hno.
        rewrite Forall_forall in K1. specialize (K1 _ Hin1). simpl in K1.
        apply Qeq_bool_iff in K1, Hk2.
        assert (Hkk : k == k2) by (rewrite K1, Hk2; by symmetry).
        apply Qeq_bool_iff in Hkk. congruence.
  - intros c [Hc|Hc]%elem_of_app.
    + destruct (C1 _ Hc) as (k1 & v1 & Hin1 & Hk1).
      destruct (P3 _ _ Hin1) as [v' Hv'].
      exists v'. split; [apply list_elem_of_fmap; by exists (k1, v')|].
      rewrite Forall_forall in K3. specialize (K3 _ Hv'). simpl in K3.
      apply Qeq_bool_iff in K3, Hk1. by rewrite <- K3.
    + destruct (C2 _ Hc) as (k2 & v2 & Hin2 & Hk2).
      destruct (C3 _ Hin2) as (k & v & Hin & Hk). simpl in Hk.
      exists v. split; [apply list_elem_of_fmap; by exists (k, v)|].
      rewrite Forall_forall in K3. specialize (K3 _ Hin). simpl in K3.
      apply Qeq_bool_iff in K3, Hk, Hk2. by rewrite <- K3, Hk.
Qed.

End Candles.

(** X25: [update_hlcs_1m_single] leaves the candles of a symbol in
    strictly increasing order of timestamp, none older than three hours
    before [since]; every candle it keeps was fetched or was stored
    under a timestamp that no fetched candle has; and every stored or
    fetched candle inside the window has a candle with its timestamp in
    the result. *)
Theorem update_hlcs_1m_single_merges (stored : option (list Forager.hlc))
    (candles : list Forager.hlc) (since : Q) :
  StronglySorted (λ a b, Forager.hlc_ts a < Forager.hlc_ts b)
    (Forager.update_hlcs_1m_single stored candles since)
  /\ Forall (λ x, since - 1000 * 60 * 60 * 3 <= Forager.hlc_ts x)
       (Forager.update_hlcs_1m_single stored candles since)
  /\ (forall x, x ∈ Forager.update_hlcs_1m_single stored candles since ->
        x ∈ candles
        \/ (x ∈ default [] stored
            /\ forall c, c ∈ candles -> ~ Forager.hlc_ts c == Forager.hlc_ts x))
  /\ (forall c, c ∈ default [] stored ++ candles ->
        since - 1000 * 60 * 60 * 3 <= Forager.hlc_ts c ->
        exists x, x ∈ Forager.update_hlcs_1m_single stored candles since
                  /\ Forager.hlc_ts x == Forager.hlc_ts c).
Proof.
  unfold Forager.update_hlcs_1m_single.
  destruct (merged_candles (default [] stored) candles) as (Hd & He & Hc).
  cbn zeta in Hd, He, Hc.
  set (d := Forager.dict_update Qeq_bool
              (Forager.dict_comp Qeq_bool Forager.hlc_ts (default [] stored))
              (Forager.dict_comp Qeq_bool Forager.hlc_ts candles)) in *.
  split; [|split; [|split]].
  - apply StronglySorted_filter_bool. by apply sorted_strict.
  - apply Forall_forall. intros x Hx.
    apply list_elem_of_In, filter_In in Hx as [_ Hx]. by apply Qle_bool_iff.
  - intros x Hx. apply list_elem_of_In, filter_In in Hx as [Hx _].
    apply list_elem_of_In, elem_of_sorted in Hx. by apply He.
  - intros c Hc' Hw. destruct (Hc _ Hc') as (x & Hx & Hts).
    exists x. split; [|exact Hts].
    apply list_elem_of_In, filter_In. split.
    + apply list_elem_of_In, elem_of_sorted. exact Hx.
    + apply Qle_bool_iff. by rewrite Hts.
Qed.

Section Ledger.
Import Forager.

Lemma string_eqb_sym (a b : string) : String.eqb a b = String.eqb b a.
Proof. apply String.eqb_sym. Qed.

Lemma string_eqb_trans (a b c : string) :
  String.eqb a b = true → String.eqb b c = true → String.eqb a c = true.
Proof. intros ->%String.eqb_eq ->%String.eqb_eq. apply String.eqb_refl. Qed.

Lemma fill_leb_total (a b : pnl_fill) : fill_leb a b = true ∨ fill_leb b a = true.
Proof.
  unfold fill_leb. destruct (Qlt_le_dec (fill_timestamp b) (fill_timestamp a)) as [H|H].
  - right. apply Qle_bool_iff. lra.
  - left. by apply Qle_bool_iff.
Qed.

Lemma fill_leb_trans (a b c : pnl_fill) :
  fill_leb a b = true → fill_leb b c = true → fill_leb a c = true.
Proof.
  unfold fill_leb. intros H1%Qle_bool_iff H2%Qle_bool_iff. apply Qle_bool_iff. lra.
Qed.

Lemma distinct_ids_NoDup (l : list pnl_fill) :
  StronglySorted (λ a b, String.eqb (fill_id a) (fill_id b) = false) l →
  NoDup (fill_id <$> l).
Proof.
  induction 1 as [|x l Hl IH Hx]; simpl; constructor; [|exact IH].
  intros Hin. apply list_elem_of_fmap in Hin as (y & Hy & Hin).
  rewrite Forall_forall in Hx. specialize (Hx _ Hin).
  apply String.eqb_neq in Hx. congruence.
Qed.

Lemma StronglySorted_weaken {A : Type} (R R' : A → A → Prop) (l : list A) :
  (∀ a b, R a b → R' a b) → StronglySorted R l → StronglySorted R' l.
Proof.
  intros HR. induction 1 as [|x l Hl IH Hx]; constructor; [exact IH|].
  eapply Forall_impl; [exact Hx|]. intros y. apply HR.
Qed.

Lemma dedupe_sorted_spec (keep : pnl_fill → bool) (l : list pnl_fill) :
  NoDup (fill_id <$> dedupe_sorted keep l)
  ∧ StronglySorted (λ a b, fill_timestamp a <= fill_timestamp b) (dedupe_sorted keep l)
  ∧ Forall (λ x, keep x = true) (dedupe_sorted keep l)
  ∧ (∀ x, x ∈ dedupe_sorted keep l → x ∈ l)
  ∧ (∀ x, x ∈ l → keep x = true → fill_id x ∈ fill_id <$> dedupe_sorted keep l).
Proof.
  unfold dedupe_sorted.
  pose proof (fold_dict_set String.eqb String.eqb_refl string_eqb_sym string_eqb_trans
                fill_id fill_id (λ x, x) (List.filter keep l) []) as H.
  cbv beta in H.
  assert (Hnil : keys_distinct String.eqb (@nil (string * pnl_fill))) by constructor.
  assert (Hself : Forall (λ a, String.eqb (fill_id a) (fill_id a) = true)
                    (List.filter keep l)).
  { apply Forall_forall. intros a _. apply String.eqb_refl. }
  specialize (H Hnil ltac:(constructor) Hself). cbn zeta in H.
  fold (dict_comp String.eqb fill_id (List.filter keep l)) in H.
  destruct H as (D & Kd & E & C & _).
  set (d := dict_comp String.eqb fill_id (List.filter keep l)) in *.
  assert (Hfrom : ∀ x, x ∈ d.*2 → x ∈ List.filter keep l).
  { intros x Hx. apply list_elem_of_fmap in Hx as ([k v] & -> & Hin). simpl.
    destruct (E _ _ Hin) as [(a & Ha & ->)|[Hn _]]; [exact Ha|].
    by apply elem_of_nil in Hn. }
  split; [|split; [|split; [|split]]].
  - rewrite (sorted_perm fill_leb d.*2).
    apply distinct_ids_NoDup.
    by apply (values_distinct String.eqb string_eqb_sym string_eqb_trans fill_id).
  - pose proof (sorted_sorted fill_leb fill_leb_total fill_leb_trans d.*2) as Hs.
    eapply StronglySorted_weaken; [|exact Hs].
    intros a b Hab. by apply Qle_bool_iff.
  - apply Forall_forall. intros x Hx. apply elem_of_sorted, Hfrom in Hx.
    by apply list_elem_of_In, filter_In in Hx as [_ Hx].
  - intros x Hx. apply elem_of_sorted, Hfrom in Hx.
    apply list_elem_of_In, filter_In in Hx as [Hx _]. by apply list_elem_of_In.
  - intros x Hx Hk.
    assert (Hin : x ∈ List.filter keep l).
    { apply list_elem_of_In, filter_In. split; [by apply list_elem_of_In | exact Hk]. }
    destruct (C _ Hin) as (k & v & Hkv & Hkx).
    rewrite Forall_forall in Kd. specialize (Kd _ Hkv). simpl in Kd.
    apply String.eqb_eq in Kd, Hkx.
    apply list_elem_of_fmap. exists v. split; [congruence|].
    apply elem_of_sorted. apply list_elem_of_fmap. by exists (k, v).
Qed.

(** The last statement of the fetch: new fills are merged in. *)
Lemma merge_pnls_spec (limit : Q) (pnls res : list pnl_fill) :
  let new_pnls :=
    List.filter (λ x, negb (bool_decide (fill_id x ∈ fill_id <$> pnls))) res in
  let r := dedupe_sorted (λ elm, Qlt_bool limit (fill_timestamp elm)) (pnls ++ new_pnls) in
  NoDup (fill_id <$> r)
  ∧ StronglySorted (λ a b, fill_timestamp a <= fill_timestamp b) r
  ∧ Forall (λ x, limit < fill_timestamp x) r
  ∧ (∀ x, x ∈ r → x ∈ pnls ∨ x ∈ res)
  ∧ (∀ x, x ∈ pnls → limit < fill_timestamp x → fill_id x ∈ fill_id <$> r).
Proof.
  cbn zeta.
  set (new_pnls := List.filter _ res).
  destruct (dedupe_sorted_spec (λ elm, Qlt_bool limit (fill_timestamp elm))
              (pnls ++ new_pnls)) as (H1 & H2 & H3 & H4 & H5).
  split; [exact H1|]. split; [exact H2|]. split; [|split].
  - eapply Forall_impl; [exact H3|]. intros x Hx. by apply Qlt_bool_iff.
  - intros x Hx. apply H4, elem_of_app in Hx as [Hx|Hx]; [by left|]. right.
    apply list_elem_of_In, filter_In in Hx as [Hx _]. by apply list_elem_of_In.
  - intros x Hx Hlt. apply H5; [apply elem_of_app; by left | by apply Qlt_bool_iff].
Qed.

End Ledger.

(** X26: when [update_pnls] returns [True], the ledger it leaves holds
    no id twice, is in ascending order of timestamp and holds only
    fills newer than [age_limit]; each of its fills comes from the old
    ledger, the cache or one of the two fetches; and every fill of the
    old ledger that is newer than [age_limit] keeps its id in it. *)
Theorem update_pnls_ledger (pnls : list Forager.pnl_fill)
    (pnls_max_lookback_days upd_timestamp now_age now_guard : Q)
    (pnls_cache : list Forager.pnl_fill)
    (fetched_missing fetched : option (list Forager.pnl_fill))
    (pnls' : list Forager.pnl_fill) :
  Forager.update_pnls pnls pnls_max_lookback_days upd_timestamp now_age now_guard
    pnls_cache fetched_missing fetched = Forager.Ok (pnls', true) ->
  NoDup (Forager.fill_id <$> pnls')
  /\ StronglySorted (λ a b, Forager.fill_timestamp a <= Forager.fill_timestamp b) pnls'
  /\ Forall (λ x, Forager.age_limit now_age pnls_max_lookback_days
                  < Forager.fill_timestamp x) pnls'
  /\ (forall x, x ∈ pnls' ->
        x ∈ pnls \/ x ∈ pnls_cache
        \/ (exists m, fetched_missing = Some m /\ x ∈ m)
        \/ (exists r, fetched = Some r /\ x ∈ r))
  /\ (forall x, x ∈ pnls ->
        Forager.age_limit now_age pnls_max_lookback_days < Forager.fill_timestamp x ->
        Forager.fill_id x ∈ Forager.fill_id <$> pnls').
Proof.
  unfold Forager.update_pnls. intros H.
  set (limit := Forager.age_limit now_age pnls_max_lookback_days) in *.
  assert (Hmerge : forall loaded res,
            (forall x, x ∈ loaded ->
               x ∈ pnls \/ x ∈ pnls_cache
               \/ (exists m, fetched_missing = Some m /\ x ∈ m)) ->
            (pnls <> [] -> loaded = pnls) ->
            fetched = Some res ->
            pnls' = Forager.dedupe_sorted
                      (λ elm, Forager.Qlt_bool limit (Forager.fill_timestamp elm))
                      (loaded
                       ++ List.filter
                            (λ x, negb (bool_decide
                                          (Forager.fill_id x ∈ Forager.fill_id <$> loaded)))
                            res) ->
            NoDup (Forager.fill_id <$> pnls')
            /\ StronglySorted
                 (λ a b, Forager.fill_timestamp a <= Forager.fill_timestamp b) pnls'
            /\ Forall (λ x, limit < Forager.fill_timestamp x) pnls'
            /\ (forall x, x ∈ pnls' ->
                  x ∈ pnls \/ x ∈ pnls_cache
                  \/ (exists m, fetched_missing = Some m /\ x ∈ m)
                  \/ (exists r, fetched = Some r /\ x ∈ r))
            /\ (forall x, x ∈ pnls -> limit < Forager.fill_timestamp x ->
                  Forager.fill_id x ∈ Forager.fill_id <$> pnls')).
  { intros loaded res Hfrom Hsame Hres ->.
    destruct (merge_pnls_spec limit loaded res) as (H1 & H2 & H3 & H4 & H5).
    cbn zeta in H1, H2, H3, H4, H5.
    split; [exact H1|]. split; [exact H2|]. split; [exact H3|]. split.
    - intros x Hx. destruct (H4 _ Hx) as [Hl|Hr].
      + destruct (Hfrom _ Hl) as [?|[?|?]]; auto.
      + right. right. right. by exists res.
    - intros x Hx Hlt.
      assert (Hne : pnls <> []) by (intros Hnil; rewrite Hnil in Hx; by apply elem_of_nil in Hx).
      specialize (Hsame Hne). subst loaded. by apply H5. }
  destruct (Forager.Qlt_bool (1000 * 60 * 5) (now_guard - upd_timestamp)).
  - destruct pnls as [|p0 ps].
    + destruct pnls_cache as [|c0 cs].
      * destruct fetched as [res|]; [|discriminate H].
        injection H as H. symmetry in H.
        apply (Hmerge [] res); [by intros x ?%elem_of_nil | done | done | exact H].
      * destruct (Forager.Qlt_bool (limit + 1000 * 60 * 60 * 4)
                    (Forager.fill_timestamp c0)).
        -- destruct fetched_missing as [m|]; [|discriminate H].
           destruct fetched as [res|]; [|discriminate H].
           injection H as H. symmetry in H.
           apply (Hmerge (Forager.dedupe_sorted
                            (λ elm, Qle_bool limit (Forager.fill_timestamp elm))
                            ((c0 :: cs) ++ m)) res); [| done | done | exact H].
           intros x Hx.
           destruct (dedupe_sorted_spec
                       (λ elm, Qle_bool limit (Forager.fill_timestamp elm))
                       ((c0 :: cs) ++ m)) as (_ & _ & _ & Hin & _).
           apply Hin, elem_of_app in Hx as [Hx|Hx]; [by right; left|].
           right. right. by exists m.
        -- destruct fetched as [res|]; [|discriminate H].
           injection H as H. symmetry in H.
           apply (Hmerge (c0 :: cs) res); [| done | done | exact H].
           intros x Hx. by right; left.
    + destruct fetched as [res|]; [|discriminate H].
      injection H as H. symmetry in H.
      apply (Hmerge (p0 :: ps) res); [| done | done | exact H].
      intros x Hx. by left.
  - destruct fetched as [res|]; [|discriminate H].
    injection H as H. symmetry in H.
    apply (Hmerge pnls res); [| done | done | exact H].
    intros x Hx. by left.
Qed.

Lemma update_pnls_ledger_witness :
  exists pnls',
    Forager.update_pnls
      [{| Forager.fill_id := "a"; Forager.fill_pnl := 1; Forager.fill_timestamp := 10 |}]
      1 0 86400000 86400000 [] None
      (Some [{| Forager.fill_id := "b"; Forager.fill_pnl := - (2);
                Forager.fill_timestamp := 20 |};
             {| Forager.fill_id := "a"; Forager.fill_pnl := 1;
                Forager.fill_timestamp := 10 |}])
    = Forager.Ok (pnls', true)
    /\ NoDup (Forager.fill_id <$> pnls')
    /\ StronglySorted (λ a b, Forager.fill_timestamp a <= Forager.fill_timestamp b) pnls'
    /\ length pnls' = 2%nat.
Proof.
  eexists. split; [vm_compute; reflexivity|].
  destruct (update_pnls_ledger
              [{| Forager.fill_id := "a"; Forager.fill_pnl := 1;
                  Forager.fill_timestamp := 10 |}]
              1 0 86400000 86400000 [] None
              (Some [{| Forager.fill_id := "b"; Forager.fill_pnl := - (2);
                        Forager.fill_timestamp := 20 |};
                     {| Forager.fill_id := "a"; Forager.fill_pnl := 1;
                        Forager.fill_timestamp := 10 |}])
              _ ltac:(vm_compute; reflexivity)) as (H1 & H2 & _).
  split; [exact H1 | split; [exact H2 | reflexivity]].
Defined.

(** ** Trailing data (passivbot_forager.py) *)

Section Trailing.
Import Forager.

(** What one candle later than the position change does. *)
Lemma trailing_step_later (t : Q) (td : trailing_data) (x : hlc) :
  t < hlc_ts x →
  let td' := trailing_step t td x in
  (td_max_since_open td <= td_max_since_open td'
   ∧ hlc_high x <= td_max_since_open td'
   ∧ (td_max_since_open td' = td_max_since_open td
      ∨ td_max_since_open td' = hlc_high x))
  ∧ ((∀ q, xle (td_min_since_open td) q → xle (td_min_since_open td') q)
     ∧ xle (td_min_since_open td') (hlc_low x)
     ∧ (td_min_since_open td' = td_min_since_open td
        ∨ td_min_since_open td' = finite (hlc_low x))).
Proof.
  intros Hlater. unfold trailing_step.
  assert (Hle : Qle_bool (hlc_ts x) t = false).
  { destruct (Qle_bool (hlc_ts x) t) eqn:E; [|reflexivity].
    apply Qle_bool_iff in E. lra. }
  rewrite Hle. cbn zeta. split.
  - destruct (Qlt_bool (td_max_since_open td) (hlc_high x)) eqn:Hm; cbn [td_min_since_open].
    + apply Qlt_bool_iff in Hm.
      destruct (xlt (hlc_low x) (td_min_since_open td)); cbn [td_max_since_open];
        (split; [lra | split; [lra | by right]]).
    + apply Qlt_bool_false_iff in Hm.
      destruct (xlt (hlc_low x) (td_min_since_open td)); cbn [td_max_since_open];
        (split; [lra | split; [lra | by left]]).
  - assert (Hmin : ∀ td1 : trailing_data,
              td_min_since_open td1 = td_min_since_open td →
              let td' :=
                if xlt (hlc_low x) (td_min_since_open td1)
                then {| td_max_since_open := td_max_since_open td1;
                        td_min_since_max := td_min_since_max td1;
                        td_min_since_open := finite (hlc_low x);
                        td_max_since_min := hlc_close x |}
                else {| td_max_since_open := td_max_since_open td1;
                        td_min_since_max := td_min_since_max td1;
                        td_min_since_open := td_min_since_open td1;
                        td_max_since_min :=
                          py_max (td_max_since_min td1) (hlc_high x) |} in
              (∀ q, xle (td_min_since_open td) q → xle (td_min_since_open td') q)
              ∧ xle (td_min_since_open td') (hlc_low x)
              ∧ (td_min_since_open td' = td_min_since_open td
                 ∨ td_min_since_open td' = finite (hlc_low x))).
    { intros td1 <-. cbn zeta.
      destruct (td_min_since_open td1) as [m|]; cbn [xlt].
      - destruct (Qlt_bool (hlc_low x) m) eqn:Hl; cbn [td_min_since_open xle].
        + apply Qlt_bool_iff in Hl.
          split; [intros q Hq; lra | split; [lra | by right]].
        + apply Qlt_bool_false_iff in Hl.
          split; [done | split; [lra | by left]].
      - cbn [td_min_since_open xle].
        split; [done | split; [lra | by right]]. }
    destruct (Qlt_bool (td_max_since_open td) (hlc_high x)); by apply Hmin.
Qed.

Lemma trailing_step_earlier (t : Q) (td : trailing_data) (x : hlc) :
  hlc_ts x <= t → trailing_step t td x = td.
Proof.
  intros Hle. unfold trailing_step. apply Qle_bool_iff in Hle. by rewrite Hle.
Qed.

Lemma trailing_fold (t : Q) (cs : list hlc) :
  ∀ td : trailing_data,
    let td' := foldl (trailing_step t) td cs in
    (td_max_since_open td <= td_max_since_open td'
     ∧ (∀ x, x ∈ cs → t < hlc_ts x → hlc_high x <= td_max_since_open td')
     ∧ (td_max_since_open td' = td_max_since_open td
        ∨ ∃ x, x ∈ cs ∧ t < hlc_ts x ∧ td_max_since_open td' = hlc_high x))
    ∧ ((∀ q, xle (td_min_since_open td) q → xle (td_min_since_open td') q)
       ∧ (∀ x, x ∈ cs → t < hlc_ts x → xle (td_min_since_open td') (hlc_low x))
       ∧ (td_min_since_open td' = td_min_since_open td
          ∨ ∃ x, x ∈ cs ∧ t < hlc_ts x ∧ td_min_since_open td' = finite (hlc_low x))).
Proof.
  induction cs as [|c cs IH]; intros td; cbn [foldl]; cbn zeta.
  { split.
    - split; [lra|]. split; [by intros x ?%elem_of_nil | by left].
    - split; [done|]. split; [by intros x ?%elem_of_nil | by left]. }
  destruct (IH (trailing_step t td c)) as [(M1 & M2 & M3) (N1 & N2 & N3)].
  cbn zeta in *.
  destruct (Qlt_le_dec t (hlc_ts c)) as [Hlater|Hearlier].
  - destruct (trailing_step_later t td c Hlater) as [(S1 & S2 & S3) (T1 & T2 & T3)].
    cbn zeta in *. split.
    + split; [lra|]. split.
      * intros x [->|Hx]%elem_of_cons Hl; [lra | by apply M2].
      * destruct M3 as [M3|(x & Hx & Hl & M3)].
        -- rewrite M3. destruct S3 as [S3|S3]; [by left|].
           right. exists c. split; [left | done].
        -- right. exists x. split; [by right | done].
    + split; [by intros q Hq; apply N1, T1|]. split.
      * intros x [->|Hx]%elem_of_cons Hl; [by apply N1 | by apply N2].
      * destruct N3 as [N3|(x & Hx & Hl & N3)].
        -- rewrite N3. destruct T3 as [T3|T3]; [by left|].
           right. exists c. split; [left | done].
        -- right. exists x. split; [by right | done].
  - rewrite (trailing_step_earlier t td c Hearlier) in *. split.
    + split; [done|]. split.
      * intros x [->|Hx]%elem_of_cons Hl; [lra | by apply M2].
      * destruct M3 as [M3|(x & Hx & Hl & M3)]; [by left|].
        right. exists x. split; [by right | done].
    + split; [done|]. split.
      * intros x [->|Hx]%elem_of_cons Hl; [lra | by apply N2].
      * destruct N3 as [N3|(x & Hx & Hl & N3)]; [by left|].
        right. exists x. split; [by right | done].
Qed.

End Trailing.

(** X27: for a symbol and side with a last position change and stored
    candles, [update_trailing_data] leaves [max_since_open] at least the
    high and [min_since_open] at most the low of every candle later
    than the change; [max_since_open] is 0 or the high of such a candle,
    [min_since_open] is infinite or the low of such a candle. *)
Theorem update_trailing_data_extremes
    (trailing_prices : gmap string (Forager.sides Forager.trailing_data))
    (last_position_changes : gmap string (Forager.sides (option Q)))
    (active_symbols : list string) (hlcs_1m : gmap string (list Forager.hlc))
    (symbol : string) (ps : Forager.pside) (changes : Forager.sides (option Q))
    (t : Q) (candles : list Forager.hlc) :
  last_position_changes !! symbol = Some changes ->
  Forager.at_side changes ps = Some t ->
  hlcs_1m !! symbol = Some candles ->
  exists entry,
    Forager.update_trailing_data trailing_prices last_position_changes
      active_symbols hlcs_1m !! symbol = Some entry
    /\ (forall x, x ∈ candles -> t < Forager.hlc_ts x ->
          Forager.hlc_high x <= Forager.td_max_since_open (Forager.at_side entry ps)
          /\ Forager.xle (Forager.td_min_since_open (Forager.at_side entry ps))
               (Forager.hlc_low x))
    /\ (Forager.td_max_since_open (Forager.at_side entry ps) = 0
        \/ exists x, x ∈ candles /\ t < Forager.hlc_ts x
                     /\ Forager.td_max_since_open (Forager.at_side entry ps)
                        = Forager.hlc_high x)
    /\ (Forager.td_min_since_open (Forager.at_side entry ps) = Forager.inf
        \/ exists x, x ∈ candles /\ t < Forager.hlc_ts x
                     /\ Forager.td_min_since_open (Forager.at_side entry ps)
                        = Forager.finite (Forager.hlc_low x)).
Proof.
  intros Hc Ht Hh. unfold Forager.update_trailing_data.
  eexists. split.
  - apply lookup_set_to_map; [by intros y y' _ _ [= ->]|].
    exists symbol. split; [|reflexivity].
    apply elem_of_union. left. apply elem_of_union. right.
    apply elem_of_dom. by eexists.
  - rewrite Hc, Hh. cbn [mbind option_bind].
    destruct (trailing_fold t candles Forager.trailing_reset)
      as [(M1 & M2 & M3) (N1 & N2 & N3)].
    cbn zeta in *.
    destruct ps; cbn [Forager.at_side Forager.on_long Forager.on_short] in *;
      rewrite Ht; cbn [Forager.trailing_of];
      (split; [intros x Hx Hl; split; [by apply M2 | by apply N2] | split; assumption]).
Qed.

Lemma update_trailing_data_extremes_witness :
  exists entry,
    Forager.update_trailing_data ∅ Forager.changes_A ["A"] Forager.hlcs_A !! "A"
    = Some entry
    /\ (Forager.td_max_since_open (Forager.at_side entry Forager.long) = 0
        \/ exists x, x ∈ Forager.candles_A /\ 100 < Forager.hlc_ts x
                     /\ Forager.td_max_since_open (Forager.at_side entry Forager.long)
                        = Forager.hlc_high x).
Proof.
  destruct (update_trailing_data_extremes ∅ Forager.changes_A ["A"] Forager.hlcs_A
              "A" Forager.long {| Forager.on_long := Some 100; Forager.on_short := None |}
              100 Forager.candles_A
              ltac:(vm_compute; reflexivity) eq_refl ltac:(vm_compute; reflexivity))
    as (entry & He & _ & Hmax & _).
  exists entry. split; [exact He | exact Hmax].
Defined.

(** ** Orders fetched from the exchange (exchanges/bitget.py) *)

Section Fetch.
Import Forager.

Lemma convert_fetched_spec (o : fetched_order) (ts : Q) (x : open_order) :
  convert_fetched o = Some (ts, x) →
  is_Some (determine_side (fo_info o))
  ∧ ∃ i, fo_info o = Some i
         ∧ oo_id x = fo_id o ∧ oo_symbol x = fo_symbol o
         ∧ oo_qty x = fo_amount o ∧ oo_price x = fo_price o
         ∧ (reduce_only (actual_order_of x) = true ↔ tradeSide i = Some "close").
Proof.
  unfold convert_fetched. destruct (fo_info o) as [i|] eqn:Hi; [|discriminate].
  destruct (posSide i) as [pos_side|] eqn:Hp; [|discriminate].
  destruct (determine_side (Some i)) as [sd|] eqn:Hd; [|discriminate].
  destruct (pside_of_str pos_side) as [ps|] eqn:Hs; [|discriminate].
  intros [= <- <-]. split; [by eexists|]. exists i.
  split; [reflexivity|]. repeat (split; [reflexivity|]).
  cbn [actual_order_of reduce_only oo_position_side oo_side].
  unfold determine_side in Hd. rewrite Hp in Hd. unfold pside_of_str in Hs.
  destruct (tradeSide i) as [tside|]; [|discriminate Hd].
  destruct (reduceOnly i); [|discriminate Hd].
  destruct (String.eqb tside "close") eqn:Hc.
  - apply String.eqb_eq in Hc. subst tside.
    destruct (String.eqb pos_side "long").
    + injection Hd as <-. injection Hs as <-. done.
    + destruct (String.eqb pos_side "short"); [|discriminate Hd].
      injection Hd as <-. injection Hs as <-. done.
  - apply String.eqb_neq in Hc.
    destruct (String.eqb tside "open"); [|discriminate Hd].
    destruct (String.eqb pos_side "long").
    + injection Hd as <-. injection Hs as <-. split; [discriminate | congruence].
    + destruct (String.eqb pos_side "short"); [|discriminate Hd].
      injection Hd as <-. injection Hs as <-. split; [discriminate | congruence].
Qed.

End Fetch.

(** X28: when the adapter's [fetch_open_orders] returns a list, it
    returns one order per order of the exchange, the side of every
    one of them was determined, and the reconciler
    ([calc_orders_to_cancel_and_create]) reads an order as reduce-only
    exactly when the exchange reports its [tradeSide] as "close". *)
Theorem fetch_open_orders_sides (fetched : list Forager.fetched_order)
    (l : list Forager.open_order) :
  Forager.fetch_open_orders fetched = Some l ->
  length l = length fetched
  /\ Forall (λ o, is_Some (Forager.determine_side (Forager.fo_info o))) fetched
  /\ forall x, x ∈ l ->
       exists o i,
         o ∈ fetched /\ Forager.fo_info o = Some i
         /\ Forager.oo_id x = Forager.fo_id o
         /\ Forager.oo_symbol x = Forager.fo_symbol o
         /\ (Forager.reduce_only (Forager.actual_order_of x) = true
             <-> Forager.tradeSide i = Some "close").
Proof.
  unfold Forager.fetch_open_orders.
  destruct (mapM Forager.convert_fetched fetched) as [k|] eqn:Hk; [|discriminate].
  intros [= <-]. apply mapM_Some in Hk.
  split; [|split].
  - unfold Forager.sorted_by_key.
    rewrite length_fmap, (Permutation_length (sorted_perm Forager.key_leb k)).
    symmetry. by eapply Forall2_length.
  - apply Forall_forall. intros o Ho.
    apply list_elem_of_lookup in Ho as [n Hn].
    destruct (Forall2_lookup_l _ _ _ _ _ Hk Hn) as ([ts x] & _ & Hx).
    by destruct (convert_fetched_spec _ _ _ Hx) as [Hs _].
  - intros x Hx. unfold Forager.sorted_by_key in Hx.
    apply list_elem_of_fmap in Hx as ([ts x'] & -> & Hin). simpl.
    apply (elem_of_sorted Forager.key_leb (ts, x') k) in Hin.
    apply list_elem_of_lookup in Hin as [n Hn].
    destruct (Forall2_lookup_r _ _ _ _ _ Hk Hn) as (o & Ho & Hc).
    destruct (convert_fetched_spec _ _ _ Hc) as (_ & i & Hi & H1 & H2 & _ & _ & H5).
    exists o, i. split; [by eapply list_elem_of_lookup_2|]. done.
Qed.

Lemma fetch_open_orders_sides_witness :
  exists l,
    Forager.fetch_open_orders Forager.fetched_AB = Some l
    /\ length l = length Forager.fetched_AB
    /\ Forall (λ o, is_Some (Forager.determine_side (Forager.fo_info o)))
         Forager.fetched_AB.
Proof.
  eexists. split; [vm_compute; reflexivity|].
  destruct (fetch_open_orders_sides Forager.fetched_AB _
              ltac:(vm_compute; reflexivity)) as (H1 & H2 & _).
  split; [exact H1 | exact H2].
Defined.

(** ** The store after a tick (passivbot_forager.py) *)

Section Recording.
Import Forager.

(** The list of a symbol after [add_new_order]. *)
Lemma add_new_order_lookup (store : gmap string (list open_order))
    (elm : option order_msg) (sym : string) :
  default [] ((add_new_order store elm).1 !! sym)
  = default [] (store !! sym)
    ++ match elm with
       | Some o =>
           match msg_id o, msg_symbol o with
           | Some oid, Some sym' =>
               if bool_decide (sym' = sym)
                  && bool_decide (oid ∉ ids_of (default [] (store !! sym)))
               then [open_order_of_msg o oid sym]
               else []
           | _, _ => []
           end
       | None => []
       end.
Proof.
  assert (Hd : ∀ s s', default [] (ensure_symbol store s !! s') = default [] (store !! s')).
  { intros s s'. unfold ensure_symbol. destruct (store !! s) as [l|] eqn:E; [done|].
    destruct (decide (s = s')) as [<-|Hne].
    - by rewrite lookup_insert_eq, E.
    - by rewrite lookup_insert_ne. }
  unfold add_new_order. destruct elm as [o|]; [|by rewrite app_nil_r].
  destruct (msg_id o) as [oid|]; [|by rewrite app_nil_r].
  destruct (msg_symbol o) as [sym'|]; [|by rewrite app_nil_r].
  rewrite Hd. destruct (decide (sym' = sym)) as [->|Hne].
  - rewrite (bool_decide_eq_true_2 (sym = sym)) by done. cbn [andb].
    destruct (bool_decide (oid ∉ ids_of (default [] (store !! sym)))); cbn [fst].
    + by rewrite lookup_insert_eq.
    + by rewrite Hd, app_nil_r.
  - rewrite (bool_decide_eq_false_2 (sym' = sym)) by done. cbn [andb].
    rewrite app_nil_r.
    destruct (bool_decide (oid ∉ ids_of (default [] (store !! sym')))); cbn [fst].
    + by rewrite lookup_insert_ne, Hd.
    + by rewrite Hd.
Qed.

(** The list of a symbol after [remove_cancelled_order]. *)
Lemma remove_cancelled_order_lookup (store : gmap string (list open_order))
    (elm : option order_msg) (sym : string) :
  default [] ((remove_cancelled_order store elm).1 !! sym)
  = match elm with
    | Some o =>
        match msg_id o, msg_symbol o with
        | Some oid, Some sym' =>
            if bool_decide (sym' = sym)
            then List.filter (λ x, negb (String.eqb (oo_id x) oid))
                             (default [] (store !! sym))
            else default [] (store !! sym)
        | _, _ => default [] (store !! sym)
        end
    | None => default [] (store !! sym)
    end.
Proof.
  assert (Hd : ∀ s s', default [] (ensure_symbol store s !! s') = default [] (store !! s')).
  { intros s s'. unfold ensure_symbol. destruct (store !! s) as [l|] eqn:E; [done|].
    destruct (decide (s = s')) as [<-|Hne].
    - by rewrite lookup_insert_eq, E.
    - by rewrite lookup_insert_ne. }
  unfold remove_cancelled_order. destruct elm as [o|]; [|done].
  destruct (msg_id o) as [oid|]; [|done].
  destruct (msg_symbol o) as [sym'|]; [|done].
  rewrite Hd. destruct (decide (sym' = sym)) as [->|Hne].
  - rewrite (bool_decide_eq_true_2 (sym = sym)) by done.
    destruct (bool_decide (oid ∈ ids_of (default [] (store !! sym)))) eqn:Hb; cbn [fst].
    + by rewrite lookup_insert_eq.
    + apply bool_decide_eq_false in Hb. by rewrite Hd, (filter_other_ids _ _ Hb).
  - rewrite (bool_decide_eq_false_2 (sym' = sym)) by done.
    destruct (bool_decide (oid ∈ ids_of (default [] (store !! sym')))); cbn [fst].
    + by rewrite lookup_insert_ne, Hd.
    + by rewrite Hd.
Qed.

Lemma fold_add_invariants (created : list (option order_msg)) :
  ∀ store : gmap string (list open_order),
    unique_ids store → well_keyed store →
    unique_ids (foldl (λ store elm, (add_new_order store elm).1) store created)
    ∧ well_keyed (foldl (λ store elm, (add_new_order store elm).1) store created).
Proof.
  induction created as [|elm rest IH]; intros store Hu Hk; cbn [foldl]; [done|].
  apply IH; [by apply unique_ids_add | by apply well_keyed_add].
Qed.

Lemma fold_remove_invariants (cancelled : list (option order_msg)) :
  ∀ store : gmap string (list open_order),
    unique_ids store → well_keyed store →
    unique_ids (foldl (λ store elm, (remove_cancelled_order store elm).1) store cancelled)
    ∧ well_keyed (foldl (λ store elm, (remove_cancelled_order store elm).1) store cancelled).
Proof.
  induction cancelled as [|elm rest IH]; intros store Hu Hk; cbn [foldl]; [done|].
  apply IH; [by apply unique_ids_remove | by apply well_keyed_remove].
Qed.

(** An id that is filed stays filed through creations. *)
Lemma fold_add_keeps (created : list (option order_msg)) (oid sym : string) :
  ∀ store : gmap string (list open_order),
    oid ∈ ids_of (default [] (store !! sym)) →
    oid ∈ ids_of (default []
                    (foldl (λ store elm, (add_new_order store elm).1) store created !! sym)).
Proof.
  induction created as [|elm rest IH]; intros store Hin; cbn [foldl]; [done|].
  apply IH. rewrite add_new_order_lookup. unfold ids_of.
  rewrite fmap_app, elem_of_app. by left.
Qed.

(** Every acknowledged creation ends up filed. *)
Lemma fold_add_files (created : list (option order_msg)) (o : order_msg)
    (oid sym : string) :
  msg_id o = Some oid → msg_symbol o = Some sym →
  ∀ store : gmap string (list open_order),
    Some o ∈ created →
    oid ∈ ids_of (default []
                    (foldl (λ store elm, (add_new_order store elm).1) store created !! sym)).
Proof.
  intros Hid Hsym. induction created as [|elm rest IH]; intros store Hin; cbn [foldl].
  { by apply elem_of_nil in Hin. }
  apply elem_of_cons in Hin as [<-|Hin]; [|by apply IH].
  apply fold_add_keeps. rewrite add_new_order_lookup, Hid, Hsym.
  rewrite (bool_decide_eq_true_2 (sym = sym)) by done. cbn [andb].
  unfold ids_of. rewrite fmap_app, elem_of_app.
  case_bool_decide as Hn; [right; simpl; left|].
  left. exact Hn.
Qed.

(** An id that is not filed stays out through creations of other orders. *)
Lemma fold_add_absent (created : list (option order_msg)) (oid sym : string) :
  (∀ c, Some c ∈ created → ¬ (msg_id c = Some oid ∧ msg_symbol c = Some sym)) →
  ∀ store : gmap string (list open_order),
    oid ∉ ids_of (default [] (store !! sym)) →
    oid ∉ ids_of (default []
                    (foldl (λ store elm, (add_new_order store elm).1) store created !! sym)).
Proof.
  induction created as [|elm rest IH]; intros Hother store Hout; cbn [foldl]; [done|].
  apply IH; [intros c Hc; apply Hother; by right|].
  rewrite add_new_order_lookup. unfold ids_of. rewrite fmap_app, elem_of_app.
  intros [Hin|Hin]; [by apply Hout|].
  destruct elm as [o|]; [|by apply elem_of_nil in Hin].
  destruct (msg_id o) as [oid'|] eqn:Hid; [|by apply elem_of_nil in Hin].
  destruct (msg_symbol o) as [sym'|] eqn:Hsym; [|by apply elem_of_nil in Hin].
  destruct (bool_decide (sym' = sym)) eqn:Hs; cbn [andb] in Hin;
    [|by apply elem_of_nil in Hin].
  apply bool_decide_eq_true in Hs. subst sym'.
  destruct (bool_decide (oid' ∉ oo_id <$> default [] (store !! sym)));
    [|by apply elem_of_nil in Hin].
  simpl in Hin. apply list_elem_of_singleton in Hin. subst oid'.
  apply (Hother o); [left | done].
Qed.

Lemma filter_ids_subset (oid oid' : string) (l : list open_order) :
  oid ∈ ids_of (List.filter (λ x, negb (String.eqb (oo_id x) oid')) l) →
  oid ∈ ids_of l ∧ oid ≠ oid'.
Proof.
  unfold ids_of. intros (x & -> & Hx)%list_elem_of_fmap.
  apply list_elem_of_In, filter_In in Hx as [Hx Hne].
  apply negb_true_iff, String.eqb_neq in Hne.
  split; [|done]. apply list_elem_of_fmap. exists x. split; [done | by apply list_elem_of_In].
Qed.

(** An id that is not filed stays out through cancellations. *)
Lemma fold_remove_absent (cancelled : list (option order_msg)) (oid sym : string) :
  ∀ store : gmap string (list open_order),
    oid ∉ ids_of (default [] (store !! sym)) →
    oid ∉ ids_of (default []
                    (foldl (λ store elm, (remove_cancelled_order store elm).1)
                           store cancelled !! sym)).
Proof.
  induction cancelled as [|elm rest IH]; intros store Hout; cbn [foldl]; [done|].
  apply IH. rewrite remove_cancelled_order_lookup.
  destruct elm as [o|]; [|done].
  destruct (msg_id o) as [oid'|]; [|done].
  destruct (msg_symbol o) as [sym'|]; [|done].
  case_bool_decide; [|done].
  intros Hin. apply filter_ids_subset in Hin as [Hin _]. by apply Hout.
Qed.

(** Every acknowledged cancellation ends up out of its symbol's list. *)
Lemma fold_remove_removes (cancelled : list (option order_msg)) (o : order_msg)
    (oid sym : string) :
  msg_id o = Some oid → msg_symbol o = Some sym →
  ∀ store : gmap string (list open_order),
    Some o ∈ cancelled →
    oid ∉ ids_of (default []
                    (foldl (λ store elm, (remove_cancelled_order store elm).1)
                           store cancelled !! sym)).
Proof.
  intros Hid Hsym. induction cancelled as [|elm rest IH]; intros store Hin; cbn [foldl].
  { by apply elem_of_nil in Hin. }
  apply elem_of_cons in Hin as [<-|Hin]; [|by apply IH].
  apply fold_remove_absent. rewrite remove_cancelled_order_lookup, Hid, Hsym.
  rewrite (bool_decide_eq_true_2 (sym = sym)) by done.
  intros Hin. by apply filter_ids_subset in Hin as [_ Hne].
Qed.

End Recording.

(** X30: after the tail of a tick of [execute_to_exchange] has recorded
    the results of its requests, the store still holds no id twice
    within a symbol and every order under its own symbol; every
    acknowledged creation that carries an id and a symbol is filed
    under its symbol; and every acknowledged cancellation that carries
    an id and a symbol is gone from its symbol's list, unless a creation
    of the same tick carries the same id and symbol. *)
Theorem record_executions_store (store : gmap string (list Forager.open_order))
    (cancelled created : list (option Forager.order_msg)) :
  Forager.unique_ids store -> Forager.well_keyed store ->
  Forager.unique_ids (Forager.record_executions store cancelled created)
  /\ Forager.well_keyed (Forager.record_executions store cancelled created)
  /\ (forall o oid sym,
        Some o ∈ created ->
        Forager.msg_id o = Some oid -> Forager.msg_symbol o = Some sym ->
        oid ∈ Forager.ids_of
                (default [] (Forager.record_executions store cancelled created !! sym)))
  /\ (forall o oid sym,
        Some o ∈ cancelled ->
        Forager.msg_id o = Some oid -> Forager.msg_symbol o = Some sym ->
        (forall c, Some c ∈ created ->
                   ~ (Forager.msg_id c = Some oid /\ Forager.msg_symbol c = Some sym)) ->
        oid ∉ Forager.ids_of
                (default [] (Forager.record_executions store cancelled created !! sym))).
Proof.
  intros Hu Hk. unfold Forager.record_executions.
  destruct (fold_remove_invariants cancelled store Hu Hk) as [Hu1 Hk1].
  destruct (fold_add_invariants created _ Hu1 Hk1) as [Hu2 Hk2].
  split; [exact Hu2|]. split; [exact Hk2|]. split.
  - intros o oid sym Hin Hid Hsym. by apply (fold_add_files created o).
  - intros o oid sym Hin Hid Hsym Hother.
    apply fold_add_absent; [exact Hother|].
    by apply (fold_remove_removes cancelled o).
Qed.

Lemma record_executions_store_witness :
  Forager.unique_ids
    (Forager.record_executions Forager.store_o1 [Some Forager.msg_o1; None] [])
  /\ Forager.well_keyed
       (Forager.record_executions Forager.store_o1 [Some Forager.msg_o1; None] [])
  /\ ("o1" ∉ Forager.ids_of
              (default [] (Forager.record_executions Forager.store_o1
                             [Some Forager.msg_o1; None] [] !! "A"))).
Proof.
  assert (Hr : Forager.reachable_with Forager.distinct_ids Forager.store_o1)
    by apply Forager.reach_add, Forager.reach_init.
  apply reachable_invariant in Hr as [Hu Hk].
  destruct (record_executions_store Forager.store_o1 [Some Forager.msg_o1; None] [] Hu Hk)
    as (H1 & H2 & _ & H4).
  split; [exact H1|]. split; [exact H2|].
  apply (H4 Forager.msg_o1 "o1" "A"); [left | reflexivity | reflexivity |].
  intros c Hc. by apply elem_of_nil in Hc.
Defined.
